(** * Segmentation data pipeline and focal loss

    A shallow embedding of [segmentation/data.py] (label encoder and the
    three dataset adapters) and of [segmentation/loss.py] (focal loss),
    followed by the properties checked against them.

    Conventions of the embedding:
    - Python exceptions are the constructors of [Py.exn]; a call that may
      raise returns a [Py.result].
    - a [torch.uint8] / [numpy.uint8] value is a [Z] in [0, 256) and every
      operation that can leave that range writes its wrap-around out;
      Python integers and [int64] values are unbounded [Z] (no operation of
      the adapters gets near the 64-bit range).
    - a tensor is its shape together with its elements in row-major order;
      element-wise operations broadcast as the tensor library does.
    - a [float32] value is an IEEE 754 binary32 [spec_float]; the power and
      logarithm kernels are parameters of the loss.
    - the file system is a record of finite maps from paths to decoded
      contents (images, annotation stores, text lines, index tables). *)

From Stdlib Require Import ZArith QArith Lia String Ascii.
From Stdlib Require Import Strings.Byte.
From Stdlib Require Import Floats.SpecFloat.
From stdpp Require Import base option list gmap strings pretty.

#[local] Open Scope Z_scope.

(** ** Python runtime pieces used by the sources *)

Module Py.

Inductive exn : Set :=
| IndexError
| KeyError
| ValueError
| RuntimeError
| FileNotFoundError.

Inductive result (A : Type) : Type :=
| Ok (a : A)
| Raise (e : exn).
#[global] Arguments Ok {A} a.
#[global] Arguments Raise {A} e.

#[export] Instance result_ret : MRet result := @Ok.
#[export] Instance result_bind : MBind result :=
  λ A B f m, match m with Ok a => f a | Raise e => Raise e end.
#[export] Instance result_fmap : FMap result :=
  λ A B f m, match m with Ok a => Ok (f a) | Raise e => Raise e end.

(** [l[key]] on a Python list: a negative key counts from the end. *)
Definition getitem {A} (l : list A) (key : Z) : result A :=
  let n := Z.of_nat (length l) in
  let i := if bool_decide (key < 0) then key + n else key in
  if bool_decide (0 ≤ i < n)
  then from_option Ok (Raise IndexError) (l !! Z.to_nat i)
  else Raise IndexError.

(** [d[key]] on a dict kept as an association list in insertion order. *)
Fixpoint dict_get {V} (d : list (Z * V)) (key : Z) : result V :=
  match d with
  | [] => Raise KeyError
  | (k, v) :: d' => if bool_decide (k = key) then Ok v else dict_get d' key
  end.

Definition chars (s : string) : list ascii := list_ascii_of_string s.
Definition str (l : list ascii) : string := string_of_list_ascii l.

(** [s[:-n]] *)
Definition slice_to_neg (n : nat) (s : string) : string :=
  str (take (length (chars s) - n) (chars s)).

Fixpoint split_chars (sep : ascii) (l : list ascii) : list (list ascii) :=
  match l with
  | [] => [[]]
  | c :: l' =>
      if Ascii.eqb c sep then [] :: split_chars sep l'
      else match split_chars sep l' with
           | w :: ws => (c :: w) :: ws
           | [] => [[c]]
           end
  end.

(** [s.split(sep)] with an explicit one-character separator. *)
Definition split (sep : ascii) (s : string) : list string :=
  str <$> split_chars sep (chars s).

Fixpoint lstrip_chars (c : ascii) (l : list ascii) : list ascii :=
  match l with
  | [] => []
  | x :: l' => if Ascii.eqb x c then lstrip_chars c l' else l
  end.

(** [s.strip(c)] for a one-character [c]. *)
Definition strip (c : ascii) (s : string) : string :=
  str (reverse (lstrip_chars c (reverse (lstrip_chars c (chars s))))).

Fixpoint is_prefix (p l : list ascii) : bool :=
  match p, l with
  | [], _ => true
  | _ :: _, [] => false
  | x :: p', y :: l' => Ascii.eqb x y && is_prefix p' l'
  end.

Fixpoint contains_chars (p l : list ascii) : bool :=
  is_prefix p l ||
  match l with
  | [] => false
  | _ :: l' => contains_chars p l'
  end.

(** [sub in s] on strings. *)
Definition contains (sub s : string) : bool :=
  contains_chars (chars sub) (chars s).

(** [os.path.join(a, b)] (posix). *)
Definition path_join (a b : string) : string :=
  if is_prefix (chars "/") (chars b) then b
  else if bool_decide (a = "") || is_prefix (chars "/") (reverse (chars a))
       then a +:+ b
       else a +:+ "/" +:+ b.

End Py.
Import Py.

(** ** Tensors *)

Record tensor (T : Type) : Type := Tensor { shape : list nat; data : list T }.
Arguments Tensor {T} shape data.
Arguments shape {T} t.
Arguments data {T} t.

Definition numel (sh : list nat) : nat := foldr Nat.mul 1%nat sh.

Definition full {T} (sh : list nat) (x : T) : tensor T :=
  Tensor sh (replicate (numel sh) x).

Definition tmap {T U} (f : T → U) (t : tensor T) : tensor U :=
  Tensor (shape t) (f <$> data t).

(** Broadcasting. Two shapes are aligned at their last axis; a pair of
    sizes is compatible when they are equal or one of them is 1, and a
    missing axis counts as 1. The functions below work on shapes written
    last axis first. *)
Fixpoint broadcast_rev (a b : list nat) : option (list nat) :=
  match a, b with
  | [], _ => Some b
  | _, [] => Some a
  | x :: a', y :: b' =>
      d ← (if decide (x = y) then Some x
           else if decide (x = 1%nat) then Some y
           else if decide (y = 1%nat) then Some x
           else None);
      s ← broadcast_rev a' b';
      Some (d :: s)
  end.

Definition broadcast_shapes (a b : list nat) : option (list nat) :=
  reverse <$> broadcast_rev (reverse a) (reverse b).

(** The row-major position, in a tensor of shape [sa], of the element
    that its expansion to shape [s] shows at row-major position [i]: along
    an axis of size 1 the single entry is repeated. *)
Fixpoint source_rev (s sa : list nat) (i : nat) : nat :=
  match s, sa with
  | d :: s', da :: sa' =>
      ((if decide (da = 1%nat) then 0 else i mod d) + da * source_rev s' sa' (i / d))%nat
  | _, _ => 0%nat
  end.

Definition expand {T} (t : tensor T) (s : list nat) : tensor T :=
  Tensor s (omap (λ i, data t !! source_rev (reverse s) (reverse (shape t)) i)
                 (seq 0 (numel s))).

(** Element-wise binary operation. Operands of one shape are combined
    position by position (expanding a tensor to its own shape changes
    nothing); operands of different shapes are both expanded to their
    broadcast shape, and raise when there is none. *)
Definition tzip {T U V} (f : T → U → V) (a : tensor T) (b : tensor U)
  : result (tensor V) :=
  if decide (shape a = shape b)
  then Ok (Tensor (shape a) (zip_with f (data a) (data b)))
  else match broadcast_shapes (shape a) (shape b) with
       | Some s => Ok (Tensor s (zip_with f (data (expand a s)) (data (expand b s))))
       | None => Raise RuntimeError
       end.

(** In-place element-wise operation [a op= b]: the result keeps the shape
    of [a], so [b] has to expand to it. *)
Definition tzip_ {T U} (f : T → U → T) (a : tensor T) (b : tensor U)
  : result (tensor T) :=
  if decide (shape a = shape b)
  then Ok (Tensor (shape a) (zip_with f (data a) (data b)))
  else if decide (broadcast_shapes (shape a) (shape b) = Some (shape a))
       then Ok (Tensor (shape a) (zip_with f (data a) (data (expand b (shape a)))))
       else Raise RuntimeError.

(** A tensor record is well formed when it has as many elements as its
    shape says; every tensor of the sources is. *)
Definition wf {T} (t : tensor T) : Prop := length (data t) = numel (shape t).

(** Operations on [uint8] tensors. *)
Module U8.
Definition wrap (x : Z) : Z := x mod 256.
Definition of_byte (b : byte) : Z := Z.of_N (Byte.to_N b).

Definition zeros (sh : list nat) : tensor Z := full sh 0.
Definition ones_like (t : tensor Z) : tensor Z := full (shape t) 1.
Definition bitwise_not (t : tensor Z) : tensor Z :=
  tmap (λ x, wrap (Z.lnot x)) t.
Definition bitwise_and (a b : tensor Z) : result (tensor Z) :=
  tzip Z.land a b.
(** [t * c] for a Python integer [c]: the result keeps dtype uint8. *)
Definition mul_scalar (t : tensor Z) (c : Z) : tensor Z :=
  tmap (λ x, wrap (x * c)) t.
Definition max (a b : tensor Z) : result (tensor Z) := tzip Z.max a b.
(** [torch.arange(lo, hi, dtype=torch.uint8)] for [lo = 1]. *)
Definition arange1 (n : nat) : list Z :=
  (λ i, wrap (Z.of_nat i)) <$> seq 1 n.
End U8.

(** ** Images as the imaging library hands them over *)

Inductive pixels : Type :=
| L (px : list byte)
| LA (px : list (byte * byte))
| RGB (px : list (byte * byte * byte))
| RGBA (px : list (byte * byte * byte * byte)).

(** [size] is [(width, height)]. *)
Record Image : Type := { size : nat * nat; pix : pixels }.

(** One list per band: the channel-first reading of the pixel buffer. *)
Definition bands (p : pixels) : list (list byte) :=
  match p with
  | L px => [px]
  | LA px => [fst <$> px; snd <$> px]
  | RGB px => [(λ q, q.1.1) <$> px; (λ q, q.1.2) <$> px; snd <$> px]
  | RGBA px => [(λ q, q.1.1.1) <$> px; (λ q, q.1.1.2) <$> px;
                (λ q, q.1.2) <$> px; snd <$> px]
  end.

(** [img.tobytes()]: the pixel-interleaved buffer. *)
Definition tobytes (p : pixels) : list byte :=
  match p with
  | L px => px
  | LA px => px ≫= λ '(l, a), [l; a]
  | RGB px => px ≫= λ '(r, g, b), [r; g; b]
  | RGBA px => px ≫= λ '(r, g, b, a), [r; g; b; a]
  end.

(** [img.convert('RGB')] *)
Definition convert_RGB (img : Image) : Image :=
  {| size := size img;
     pix := RGB match pix img with
                | L px => (λ l, (l, l, l)) <$> px
                | LA px => (λ q, (q.1, q.1, q.1)) <$> px
                | RGB px => px
                | RGBA px => fst <$> px
                end |}.

(** [np.array(img, dtype=np.uint8)]: shape [(h, w)] for a single band,
    [(h, w, bands)] otherwise. *)
Definition np_array (img : Image) : tensor Z :=
  let '(w, h) := size img in
  Tensor (match pix img with L _ => [h; w] | _ => [h; w; length (bands (pix img))] end)
         (U8.of_byte <$> tobytes (pix img)).

(** Decoded contents of the files the adapters read. *)
Record filesystem (Store Index : Type) : Type := {
  images : gmap string Image;
  text_files : gmap string (list string);
  annotation_files : gmap string Store;
  index_files : gmap string Index;
}.
Arguments images {Store Index} f.
Arguments text_files {Store Index} f.
Arguments annotation_files {Store Index} f.
Arguments index_files {Store Index} f.

Definition open_file {V} (m : gmap string V) (path : string) : result V :=
  from_option Ok (Raise FileNotFoundError) (m !! path).

(** What every adapter's [get_raw_data] returns. *)
Record sample (I : Type) : Type := {
  image : I;
  seg_mask : tensor Z;
  loss_mask : tensor Z;
}.
Arguments image {I} s.
Arguments seg_mask {I} s.
Arguments loss_mask {I} s.

(** ** [class SegEncoder] *)

Module SegEncoder.

(** A channel-first tensor [(bands, h, w)], one list per channel. *)
Record chw (T : Type) : Type := CHW { dims : nat * nat * nat; chan : list (list T) }.
#[global] Arguments CHW {T} dims chan.
#[global] Arguments dims {T} c.
#[global] Arguments chan {T} c.

(** The byte buffer is viewed as [(h, w, bands)], which fails unless the
    sizes agree, and permuted to [(bands, h, w)]. *)
Definition pil_to_tensor (pil_img : Image) : result (chw Z) :=
  let '(w, h) := size pil_img in
  let nb := length (bands (pix pil_img)) in
  if bool_decide (length (tobytes (pix pil_img)) = (h * w * nb)%nat)
  then Ok (CHW (nb, h, w) ((λ plane : list byte, U8.of_byte <$> plane) <$> bands (pix pil_img)))
  else Raise RuntimeError.

Definition broadcast_dim (a b : nat) : result nat :=
  if bool_decide (a = 1%nat) then Ok b
  else if bool_decide (b = 1%nat) then Ok a
  else if bool_decide (a = b) then Ok a
  else Raise RuntimeError.

(** [bool.float()]: the floats 1.0 and 0.0, written as the integers they
    are. *)
Definition float_of_bool (b : bool) : Z := if b then 1 else 0.

Definition catgory_to_onehot (num_classes : nat) (cat_map_pil : Image)
  : result (chw Z) :=
  cat_map_1hw ← pil_to_tensor cat_map_pil;
  let cat_ids_n := U8.arange1 num_classes in
  let '(nb, h, w) := dims cat_map_1hw in
  n ← broadcast_dim (length cat_ids_n) nb;
  Ok (CHW (n, h, w)
        ((λ c : nat,
            let id := default 0 (cat_ids_n !! (if bool_decide (length cat_ids_n = 1%nat) then 0%nat else c)) in
            let plane := default [] (chan cat_map_1hw !! (if bool_decide (nb = 1%nat) then 0%nat else c)) in
            (λ v, float_of_bool (bool_decide (id = v))) <$> plane)
         <$> seq 0 n)).

Record encoded (I : Type) : Type := {
  image_b3hw : I;
  seg_mask_bnhw : chw Z;
  loss_mask_bnhw : chw Z;
}.
#[global] Arguments image_b3hw {I} e.
#[global] Arguments seg_mask_bnhw {I} e.
#[global] Arguments loss_mask_bnhw {I} e.

(** [__call__]: the crop stage hands the two masks over as images. *)
Definition call {I} (num_classes : nat) (img : I) (seg loss : Image)
  : result (encoded I) :=
  s ← catgory_to_onehot num_classes seg;
  l ← pil_to_tensor loss;
  Ok {| image_b3hw := img; seg_mask_bnhw := s; loss_mask_bnhw := l |}.

(** Sum over the channel axis at pixel [i]. *)
Definition channel_sum (t : chw Z) (i : nat) : Z :=
  foldr Z.add 0 ((λ plane, default 0 (plane !! i)) <$> chan t).

End SegEncoder.

(** ** [class COCODataset(BaseSet)] *)

Module COCODataset.

Record params : Type := {
  version : Z;
  data_dir : string;
  annotation_dir : string;
  min_area : Q;
  classes : gset string;
}.

Definition DEFAULT_PARAMS : params := {|
  version := 2017;
  data_dir := "/data/COCO2017";
  annotation_dir := "/data/COCO2017/annotations";
  min_area := 200;
  classes := list_to_set
    ["bottle"; "wine glass"; "cup"; "fork"; "knife"; "spoon"; "bowl";
     "chair"; "couch"; "bed"; "dining table"; "toilet"; "laptop"; "mouse";
     "remote"; "keyboard"; "microwave"; "oven"; "toaster"; "sink";
     "refrigerator"];
|}.

(** The annotation store of the COCO API. [imgs] and [cats] are dicts in
    insertion order; [imgToAnns] is a [defaultdict(list)]. A segmentation
    (polygons or RLE) is the set of pixels [(row, column)] it covers. *)
Record img_desc : Type := { file_name : string; height : nat; width : nat }.
Record cat_desc : Type := { name : string }.
Record annotation : Type := {
  image_id : Z;
  category_id : Z;
  iscrowd : Z;
  area : Q;
  segmentation : nat → nat → bool;
}.
Record COCO : Type := {
  imgs : list (Z * img_desc);
  cats : list (Z * cat_desc);
  imgToAnns : gmap Z (list annotation);
}.

Abbreviation fs := (filesystem COCO unit).

(** [coco.annToMask(ann)]: the binary uint8 raster of the segmentation at
    the height and width recorded for the annotation's image. *)
Definition raster (h w : nat) (region : nat → nat → bool) : list Z :=
  r ← seq 0 h; c ← seq 0 w; [if region r c then 1 else 0].

Definition annToMask (coco : COCO) (ann : annotation) : result (tensor Z) :=
  t ← dict_get (imgs coco) (image_id ann);
  Ok (Tensor [height t; width t] (raster (height t) (width t) (segmentation ann))).

Record t : Type := {
  p : params;
  mode : string;
  annotation_path : string;
  img_dir : string;
  coco : COCO;
  img_ids : list Z;
  class_map : gmap Z Z;
}.

Definition _generate_class_map (coco : COCO) (p : params) : gmap Z Z :=
  (foldl (λ '(mapping, idx) '(cat_id, cat),
            if decide (name cat ∈ classes p)
            then (<[cat_id := idx]> mapping, idx + 1)
            else (mapping, idx))
         (∅, 1) (cats coco)).1.

Definition __init__ (files : fs) (p : params) (train : bool) : result t :=
  let mode := if train then "train" else "val" in
  let annotation_path :=
    path_join (annotation_dir p)
              ("instances_" +:+ mode +:+ pretty (version p) +:+ ".json") in
  let img_dir := path_join (data_dir p) (mode +:+ pretty (version p)) in
  coco ← open_file (annotation_files files) annotation_path;
  Ok {| p := p; mode := mode; annotation_path := annotation_path;
        img_dir := img_dir; coco := coco;
        img_ids := fst <$> imgs coco;
        class_map := _generate_class_map coco p |}.

Definition _get_img (files : fs) (self : t) (img_id : Z) : result Image :=
  img_desc ← dict_get (imgs (coco self)) img_id;
  let img_fname := file_name img_desc in
  let img_fpath := path_join (img_dir self) img_fname in
  img ← open_file (images files) img_fpath;
  Ok (convert_RGB img).

(** The body of the loop over the annotations of one image, on the pair
    [(seg_mask, loss_mask)]. *)
Definition annotate (self : t) (masks : tensor Z * tensor Z) (ann : annotation)
  : result (tensor Z * tensor Z) :=
  let '(seg_mask, loss_mask) := masks in
  ann_mask ← annToMask (coco self) ann;
  if bool_decide (iscrowd ann ≠ 0) || negb (Qle_bool (min_area (p self)) (area ann))
  then loss_mask ← U8.bitwise_and loss_mask (U8.bitwise_not ann_mask);
       Ok (seg_mask, loss_mask)
  else match class_map self !! category_id ann with
       | Some class_id =>
           seg_mask ← U8.max seg_mask (U8.mul_scalar ann_mask class_id);
           Ok (seg_mask, loss_mask)
       | None => Ok (seg_mask, loss_mask)
       end.

Fixpoint annotate_all (self : t) (masks : tensor Z * tensor Z)
    (annotations : list annotation) : result (tensor Z * tensor Z) :=
  match annotations with
  | [] => Ok masks
  | ann :: rest => masks ← annotate self masks ann; annotate_all self masks rest
  end.

(** The key is an integer, so the type assertion that opens the method
    holds; the same goes for the other two adapters. *)
Definition get_raw_data (files : fs) (self : t) (key : Z) : result (sample Image) :=
  img_id ← getitem (img_ids self) key;
  let annotations := default [] (imgToAnns (coco self) !! img_id) in
  img ← _get_img files self img_id;
  let seg_mask := U8.zeros [(size img).2; (size img).1] in
  let loss_mask := U8.ones_like seg_mask in
  '(seg_mask, loss_mask) ← annotate_all self (seg_mask, loss_mask) annotations;
  image ← _get_img files self img_id;
  Ok {| image := image; seg_mask := seg_mask; loss_mask := loss_mask |}.

Definition __len__ (self : t) : Z := Z.of_nat (length (imgs (coco self))).

(** The dataset with the annotation list of one image replaced. *)
Definition with_annotations (self : t) (img_id : Z) (anns : list annotation) : t :=
  {| p := p self; mode := mode self; annotation_path := annotation_path self;
     img_dir := img_dir self;
     coco := {| imgs := imgs (coco self); cats := cats (coco self);
                imgToAnns := <[img_id := anns]> (imgToAnns (coco self)) |};
     img_ids := img_ids self; class_map := class_map self |}.

End COCODataset.

(** ** [class ADE20KDataset(BaseSet)] *)

Module ADE20KDataset.

Record params : Type := {
  root_dir : string;
  classes : gset string;
}.

Abbreviation fs := (filesystem unit unit).

Record t : Type := {
  p : params;
  img_path_list : list string;
  scenario_list : list string;
  seg_path_list : list string;
  dataset_size : nat;
  (** the dict [map_dict] captured by the closure [map_func] *)
  class_map : gmap Z Z;
}.

(** Rows of the class description file after the header: the class name
    is the last tab-separated field, stripped of blanks ([split] never
    returns an empty list, so [line[-1]] cannot raise). *)
Definition class_names (class_desc : list string) : list string :=
  (λ line, strip " "%char (default "" (last (split "009"%char (slice_to_neg 1 line)))))
  <$> drop 1 class_desc.

Definition build_map_dict (classes : gset string) (class_name_list : list string)
  : gmap Z Z :=
  (foldl (λ '(map_dict, cur_idx) '(i, n),
            if decide (n ∈ classes)
            then (<[Z.of_nat i + 1 := cur_idx]> map_dict, cur_idx + 1)
            else (map_dict, cur_idx))
         (∅, 1) (imap (λ i n, (i, n)) class_name_list)).1.

Definition map_func (map_dict : gmap Z Z) (elem : Z) : Z :=
  match map_dict !! elem with
  | Some v => v
  | None => 0
  end.

Definition _generate_class_map (files : fs) (p : params) (class_desc_path : string)
  : result (gmap Z Z) :=
  class_desc ← open_file (text_files files) class_desc_path;
  let class_name_list := class_names class_desc in
  Ok (build_map_dict (classes p) class_name_list).

(** [np.vectorize(f)(a)]: the output type is probed on the first element,
    so an array without elements is refused. *)
Definition vectorize (f : Z → Z) (a : tensor Z) : result (tensor Z) :=
  match data a with
  | [] => Raise ValueError
  | _ => Ok (tmap f a)
  end.

Fixpoint scan_lines (train : bool) (img_dir seg_anno_path : string)
    (anno_content : list string) (acc : list string * list string * list string)
  : result (list string * list string * list string) :=
  match anno_content with
  | [] => Ok acc
  | line :: rest =>
      match split " "%char (slice_to_neg 1 line) with
      | [img_name; scene_name] =>
          if train && contains "val" img_name
          then scan_lines train img_dir seg_anno_path rest acc
          else if negb train && contains "train" img_name
          then scan_lines train img_dir seg_anno_path rest acc
          else
            let '(imgs, segs, scenes) := acc in
            scan_lines train img_dir seg_anno_path rest
              (imgs ++ [path_join img_dir (img_name +:+ ".jpg")],
               segs ++ [path_join seg_anno_path (img_name +:+ ".png")],
               scenes ++ [scene_name])
      | _ => Raise ValueError
      end
  end.

Definition __init__ (files : fs) (p : params) (train : bool) : result t :=
  let root_dir := root_dir p in
  let img_dir :=
    path_join root_dir (if train then "images/training" else "images/validation") in
  let seg_anno_path :=
    path_join root_dir
      (if train then "annotations/training" else "annotations/validation") in
  let anno_path := path_join root_dir "sceneCategories.txt" in
  let class_desc_path := path_join root_dir "objectInfo150.txt" in
  anno_content ← open_file (text_files files) anno_path;
  '(imgs, segs, scenes) ← scan_lines train img_dir seg_anno_path anno_content ([], [], []);
  class_map ← _generate_class_map files p class_desc_path;
  Ok {| p := p; img_path_list := imgs; scenario_list := scenes;
        seg_path_list := segs; dataset_size := length imgs;
        class_map := class_map |}.

Definition get_raw_data (files : fs) (self : t) (key : Z) : result (sample Image) :=
  img_path ← getitem (img_path_list self) key;
  seg_path ← getitem (seg_path_list self) key;
  img ← open_file (images files) img_path;
  let img := convert_RGB img in
  seg ← open_file (images files) seg_path;
  let seg_mask := np_array seg in
  seg_mask ← vectorize (map_func (class_map self)) seg_mask;
  let seg_mask := tmap U8.wrap seg_mask in
  let loss_mask := U8.ones_like seg_mask in
  Ok {| image := img; seg_mask := seg_mask; loss_mask := loss_mask |}.

Definition __len__ (self : t) : Z := Z.of_nat (dataset_size self).

End ADE20KDataset.

(** ** [class FineGrainedADE20KDataset(BaseSet)] *)

Module FineGrainedADE20KDataset.

Record params : Type := {
  root_dir : string;
  classes : gset string;
}.

(** The index structure read from [index_ade20k.mat]: the parallel
    [filename] and [folder] fields, one pair per image. *)
Definition index : Type := list (string * string).

Abbreviation fs := (filesystem unit index).

Record t : Type := {
  p : params;
  ds : index;
  data_dir_base : string;
  img_path_list : list string;
  seg_path_list : list string;
  dataset_size : nat;
}.

Definition get_seg_path (img_path : string) : string :=
  slice_to_neg 4 img_path +:+ "_seg.png".

Definition __init__ (files : fs) (p : params) (train : bool) : result t :=
  ds ← open_file (index_files files) (path_join (root_dir p) "index_ade20k.mat");
  let data_dir_base := path_join (root_dir p) ".." in
  let img_set_mark := if train then "train" else "val" in
  let '(imgs, segs) :=
    foldl (λ '(imgs, segs) '(cur_file_name, folder_path),
             if contains img_set_mark cur_file_name
             then let img_path :=
                    path_join (path_join data_dir_base folder_path) cur_file_name in
                  (imgs ++ [img_path], segs ++ [get_seg_path img_path])
             else (imgs, segs))
          ([], []) ds in
  Ok {| p := p; ds := ds; data_dir_base := data_dir_base;
        img_path_list := imgs; seg_path_list := segs;
        dataset_size := length imgs |}.

(** [seg_img[:, :, k]] of the array of an image: an array with two axes
    only (a single band) has no third index. *)
Definition band (img : Image) (k : nat) : result (tensor Z) :=
  match pix img with
  | L _ => Raise IndexError
  | _ => match bands (pix img) !! k with
         | Some plane => Ok (Tensor [(size img).2; (size img).1] (U8.of_byte <$> plane))
         | None => Raise IndexError
         end
  end.

Definition get_raw_data (files : fs) (self : t) (key : Z)
  : result (sample (tensor Z)) :=
  img_path ← getitem (img_path_list self) key;
  seg_path ← getitem (seg_path_list self) key;
  raw_img ← open_file (images files) img_path;
  let raw_img := np_array (convert_RGB raw_img) in
  seg_img ← open_file (images files) seg_path;
  band0 ← band seg_img 0;
  let cat_map := tmap (λ x, x `div` 10) band0 in
  let cat_map := tmap (λ x, x * 256) cat_map in
  band1 ← band seg_img 1;
  cat_map ← tzip Z.add cat_map band1;
  let seg_mask := cat_map in
  let loss_mask := full (shape seg_mask) 1 in
  Ok {| image := raw_img; seg_mask := seg_mask; loss_mask := loss_mask |}.

Definition __len__ (self : t) : Z := Z.of_nat (dataset_size self).

End FineGrainedADE20KDataset.

(** ** [class FocalLoss(nn.Module)] *)

(** The scalar arithmetic a tensor's dtype provides. [forward] is written
    once against this interface. *)
Class Scalar (T : Type) : Type := {
  s0 : T;
  s1 : T;
  sadd : T → T → T;
  ssub : T → T → T;
  smul : T → T → T;
  sdiv : T → T → T;
  sneg : T → T;
  smax : T → T → T;
  smin : T → T → T;
  spow : T → T → T;
  slog : T → T;
}.

Module FocalLoss.

Record params (T : Type) : Type := { alpha : T; gamma : T; eps : T }.
#[global] Arguments alpha {T} p.
#[global] Arguments gamma {T} p.
#[global] Arguments eps {T} p.

Section forward.
Context {T : Type} `{Scalar T}.
(** [F.interpolate(x, (h, w))] *)
Variable interpolate : tensor T → nat → nat → result (tensor T).

(** [1 - t] *)
Definition rsub1 (t : tensor T) : tensor T := tmap (ssub s1) t.
(** [torch.clamp(t, lo, hi)] *)
Definition clamp (t : tensor T) (lo hi : T) : tensor T :=
  tmap (λ x, smin (smax x lo) hi) t.
(** [t.sum()]. The library does not fix the order in which it adds the
    elements up; here they are added in row-major order. The properties
    of the loss either hold for every order (NaN propagates through any
    sum) or equate [forward] with the sum of a tensor they describe. *)
Definition sum (t : tensor T) : T := foldl sadd s0 (data t).

(** make sure output and targets are of same size *)
Definition resize (output target inv_mask : tensor T)
  : result (tensor T * tensor T) :=
  if decide (shape output ≠ shape target)
  then h ← getitem (shape output) 2;
       w ← getitem (shape output) 3;
       target ← interpolate target h w;
       inv_mask ← interpolate inv_mask h w;
       Ok (target, inv_mask)
  else Ok (target, inv_mask).

(** The tensor [loss] before it is masked. *)
Definition elementwise (self : params T) (output target : tensor T)
  : result (tensor T) :=
  ot ← tzip smul output target;
  not ← tzip smul (rsub1 output) (rsub1 target);
  pt ← tzip sadd ot not;
  let pt := clamp pt (eps self) (ssub s1 (eps self)) in
  at_ ← tzip sadd (tmap (smul (alpha self)) target)
                  (tmap (smul (ssub s1 (alpha self))) (rsub1 target));
  l ← tzip smul (tmap sneg at_) (tmap (λ x, spow x (gamma self)) (rsub1 pt));
  tzip smul l (tmap slog pt).

Definition forward (self : params T) (output target inv_mask : tensor T)
  : result T :=
  '(target, inv_mask) ← resize output target inv_mask;
  loss ← elementwise self output target;
  let val_mask := rsub1 inv_mask in
  loss ← tzip_ smul loss (tmap (λ v, sdiv v (sum val_mask)) val_mask);
  Ok (sum loss).
End forward.

(** IEEE 754 binary32, the default dtype of the tensors the loss receives,
    for any power and logarithm functions. *)
Definition prec : Z := 24.
Definition emax : Z := 128.
Definition fmax (x y : spec_float) : spec_float :=
  match SFcompare x y with
  | Some Lt => y
  | Some _ => x
  | None => S754_nan
  end.
Definition fmin (x y : spec_float) : spec_float :=
  match SFcompare x y with
  | Some Gt => y
  | Some _ => x
  | None => S754_nan
  end.
Definition binary32 (pow : spec_float → spec_float → spec_float)
    (log : spec_float → spec_float) : Scalar spec_float := {|
  s0 := S754_zero false; s1 := SFone prec emax;
  sadd := SFadd prec emax; ssub := SFsub prec emax;
  smul := SFmul prec emax; sdiv := SFdiv prec emax; sneg := SFopp;
  smax := fmax; smin := fmin;
  spow := pow; slog := log;
|}.

Definition is_finite (x : spec_float) : bool :=
  match x with
  | S754_zero _ | S754_finite _ _ _ => true
  | S754_infinity _ | S754_nan => false
  end.

End FocalLoss.

(** ** Notions the properties are stated with *)

Module Polygon.
Import COCODataset.

Definition is_crowd (ann : annotation) : Prop := iscrowd ann ≠ 0.
Definition below_min_area (self : t) (ann : annotation) : Prop :=
  (area ann < min_area (p self))%Q.

(** [ann] is a non-crowd annotation of sufficient area whose category the
    class map sends to [class_id] and whose raster covers pixel [(r, c)]. *)
Definition labels (self : t) (r c : nat) (ann : annotation) (class_id : Z) : Prop :=
  ¬ is_crowd ann ∧ ¬ below_min_area self ann ∧
  class_map self !! category_id ann = Some class_id ∧
  segmentation ann r c = true.

(** [ann] is a crowd or too-small annotation whose raster covers [(r, c)]. *)
Definition excludes (self : t) (r c : nat) (ann : annotation) : Prop :=
  (is_crowd ann ∨ below_min_area self ann) ∧ segmentation ann r c = true.

(** What one annotation does to the two masks at pixel [(r, c)]. *)
Definition seg_px (self : t) (r c : nat) (acc : Z) (ann : annotation) : Z :=
  if bool_decide (iscrowd ann ≠ 0) || negb (Qle_bool (min_area (p self)) (area ann))
  then acc
  else match class_map self !! category_id ann with
       | Some class_id =>
           Z.max acc (U8.wrap ((if segmentation ann r c then 1 else 0) * class_id))
       | None => acc
       end.

Definition loss_px (self : t) (r c : nat) (acc : Z) (ann : annotation) : Z :=
  if bool_decide (iscrowd ann ≠ 0) || negb (Qle_bool (min_area (p self)) (area ann))
  then Z.land acc (U8.wrap (Z.lnot (if segmentation ann r c then 1 else 0)))
  else acc.
End Polygon.

Module FlatFile.
Import ADE20KDataset.

(** The class name at 1-indexed row [v] of the manifest, if there is such
    a row. *)
Definition row_name (names : list string) (v : Z) : option string :=
  if bool_decide (1 ≤ v) then names !! Z.to_nat (v - 1) else None.

(** The dense id of row [v]: one more than the number of allowed names in
    the rows before it. *)
Definition dense_id (classes : gset string) (names : list string) (v : Z) : Z :=
  Z.of_nat (length (filter (λ n, n ∈ classes) (take (Z.to_nat (v - 1)) names))) + 1.

Definition expected (classes : gset string) (names : list string) (v : Z) : Z :=
  match row_name names v with
  | Some n => if decide (n ∈ classes) then dense_id classes names v else 0
  | None => 0
  end.
End FlatFile.

Module Focal.
Import FocalLoss.

(** The focal term of one element: [-at * (1 - pt)^gamma * log(pt)] with
    [pt = o*t + (1-o)*(1-t)] clamped to [[eps, 1-eps]] and
    [at = alpha*t + (1-alpha)*(1-t)]. *)
Definition focal_term {T} `{Scalar T} (self : params T) (o t : T) : T :=
  let pt := smin (smax (sadd (smul o t) (smul (ssub s1 o) (ssub s1 t))) (eps self))
                 (ssub s1 (eps self)) in
  let at_ := sadd (smul (alpha self) t) (smul (ssub s1 (alpha self)) (ssub s1 t)) in
  smul (smul (sneg at_) (spow (ssub s1 pt) (gamma self))) (slog pt).

(** A tensor of the shape of [t] filled with [x]. *)
Definition filled_like {T} (x : T) (t : tensor T) : tensor T := tmap (λ _, x) t.
End Focal.

(** ** Example data *)

Module Fixtures.

Module Polygon.
Import COCODataset.

Definition params0 : params := {|
  version := 2017; data_dir := "d"; annotation_dir := "a"; min_area := 200;
  classes := {[ "fork"; "cup"; "knife"; "spoon"; "bed" ]} |}.

(** A cup over the whole image, a bed over its right pixel and a crowd
    region over its left pixel. *)
Definition cup : annotation := {|
  image_id := 7; category_id := 20; iscrowd := 0; area := 300;
  segmentation := λ _ _, true |}.
Definition bed : annotation := {|
  image_id := 7; category_id := 60; iscrowd := 0; area := 250;
  segmentation := λ _ c, bool_decide (c = 1%nat) |}.
Definition crowd : annotation := {|
  image_id := 7; category_id := 20; iscrowd := 1; area := 900;
  segmentation := λ _ c, bool_decide (c = 0%nat) |}.

Definition store0 : COCO := {|
  imgs := [(7, {| file_name := "x.jpg"; height := 1; width := 2 |})];
  cats := [(10, {| name := "fork" |}); (20, {| name := "cup" |});
           (30, {| name := "dog" |}); (40, {| name := "knife" |});
           (50, {| name := "spoon" |}); (60, {| name := "bed" |})];
  imgToAnns := {[ 7 := [cup; bed; crowd] ]} |}.

Definition photo : Image := {|
  size := (2, 1)%nat;
  pix := RGB [(Byte.x10, Byte.x20, Byte.x30); (Byte.x40, Byte.x50, Byte.x60)] |}.

Definition files0 : fs := {|
  images := {[ "d/train2017/x.jpg" := photo ]};
  text_files := ∅;
  annotation_files := {[ "a/instances_train2017.json" := store0 ]};
  index_files := ∅ |}.

Definition set0 : t := {|
  p := params0; mode := "train";
  annotation_path := "a/instances_train2017.json";
  img_dir := "d/train2017"; coco := store0; img_ids := [7];
  class_map := _generate_class_map store0 params0 |}.

(** A store with 256 categories, all of them allowed, and one annotation
    of the last category. *)
Definition wide_cats : list (Z * cat_desc) :=
  (λ i : nat, (Z.of_nat i, {| name := "c" +:+ pretty i |})) <$> seq 1 256.
Definition wide_params : params := {|
  version := 2017; data_dir := "d"; annotation_dir := "a"; min_area := 200;
  classes := list_to_set ((λ q, name q.2) <$> wide_cats) |}.
Definition last_cat : annotation := {|
  image_id := 7; category_id := 256; iscrowd := 0; area := 300;
  segmentation := λ _ _, true |}.
Definition wide_store : COCO := {|
  imgs := [(7, {| file_name := "x.jpg"; height := 1; width := 1 |})];
  cats := wide_cats;
  imgToAnns := {[ 7 := [last_cat] ]} |}.
Definition dot : Image := {|
  size := (1, 1)%nat; pix := RGB [(Byte.x10, Byte.x20, Byte.x30)] |}.
Definition wide_files : fs := {|
  images := {[ "d/train2017/x.jpg" := dot ]};
  text_files := ∅;
  annotation_files := {[ "a/instances_train2017.json" := wide_store ]};
  index_files := ∅ |}.
Definition wide_set : t := {|
  p := wide_params; mode := "train";
  annotation_path := "a/instances_train2017.json";
  img_dir := "d/train2017"; coco := wide_store; img_ids := [7];
  class_map := _generate_class_map wide_store wide_params |}.
End Polygon.

Module FlatFile.
Import ADE20KDataset.

Definition tab : string := String "009"%char "".
Definition nl : string := String "010"%char "".

Definition params0 : params := {| root_dir := "r"; classes := {[ "wall"; "sky" ]} |}.

Definition scene_lines : list string :=
  ["ADE_train_00000001 airport_terminal" +:+ nl; "ADE_val_00000001 abbey" +:+ nl].
Definition class_lines : list string :=
  ["Idx" +:+ tab +:+ "Ratio" +:+ tab +:+ "Train" +:+ tab +:+ "Val" +:+ tab +:+ "Name" +:+ nl;
   "1" +:+ tab +:+ "0.1576" +:+ tab +:+ "11664" +:+ tab +:+ "1172" +:+ tab +:+ "wall" +:+ nl;
   "2" +:+ tab +:+ "0.1072" +:+ tab +:+ "6046" +:+ tab +:+ "612" +:+ tab
       +:+ "building, edifice" +:+ nl;
   "3" +:+ tab +:+ "0.0878" +:+ tab +:+ "8265" +:+ tab +:+ "796" +:+ tab +:+ "sky" +:+ nl].

Definition photo : Image := {|
  size := (2, 2)%nat;
  pix := RGB [(Byte.x10, Byte.x20, Byte.x30); (Byte.x40, Byte.x50, Byte.x60);
              (Byte.x11, Byte.x21, Byte.x31); (Byte.x41, Byte.x51, Byte.x61)] |}.
(** wall, building, sky, and a pixel without label *)
Definition grid : Image := {|
  size := (2, 2)%nat; pix := L [Byte.x01; Byte.x02; Byte.x03; Byte.x00] |}.

Definition files0 : fs := {|
  images := {[ "r/images/training/ADE_train_00000001.jpg" := photo;
               "r/annotations/training/ADE_train_00000001.png" := grid ]};
  text_files := {[ "r/sceneCategories.txt" := scene_lines;
                   "r/objectInfo150.txt" := class_lines ]};
  annotation_files := ∅;
  index_files := ∅ |}.

Definition set0 : t := {|
  p := params0;
  img_path_list := ["r/images/training/ADE_train_00000001.jpg"];
  scenario_list := ["airport_terminal"];
  seg_path_list := ["r/annotations/training/ADE_train_00000001.png"];
  dataset_size := 1;
  class_map := build_map_dict (classes params0) (class_names class_lines) |}.
End FlatFile.

Module PackedColor.
Import FineGrainedADE20KDataset.

Definition params0 : params := {| root_dir := "d"; classes := {[ "bed" ]} |}.
Definition photo : Image := {|
  size := (1, 1)%nat; pix := RGB [(Byte.x07, Byte.x08, Byte.x09)] |}.
(** channel0 = 20, channel1 = 5 *)
Definition packed : Image := {|
  size := (1, 1)%nat; pix := RGB [(Byte.x14, Byte.x05, Byte.x00)] |}.
Definition files0 : fs := {|
  images := {[ "d/../f/ADE_train_1.jpg" := photo;
               "d/../f/ADE_train_1_seg.png" := packed ]};
  text_files := ∅; annotation_files := ∅;
  index_files := {[ "d/index_ade20k.mat" := [("ADE_train_1.jpg", "f")] ]} |}.
Definition set0 : t := {|
  p := params0; ds := [("ADE_train_1.jpg", "f")]; data_dir_base := "d/..";
  img_path_list := ["d/../f/ADE_train_1.jpg"];
  seg_path_list := ["d/../f/ADE_train_1_seg.png"];
  dataset_size := 1 |}.
End PackedColor.

End Fixtures.

(** ** [class BaseSet(Dataset)] *)

Module BaseSet.
Section pipeline.
Context {Raw Img Aug : Type}.
(** The adapter's [get_raw_data], the crop stage (which hands the image and
    the two masks over as images) and the image augmentor. *)
Variable get_raw_data : Z → result (sample Raw).
Variable multi_crop : sample Raw → result (Img * Image * Image).
Variable img_augmentor : Img → result Aug.
(** [len(self.p.classes)], the encoder's number of classes *)
Variable num_classes : nat.

Definition __getitem__ (key : Z) : result (SegEncoder.encoded Aug) :=
  raw_data ← get_raw_data key;
  '(crop_image, crop_seg, crop_loss) ← multi_crop raw_data;
  crop_image ← img_augmentor crop_image;
  SegEncoder.call num_classes crop_image crop_seg crop_loss.
End pipeline.
End BaseSet.

(** ** Further notions the properties are stated with *)

Module Decode.
Import SegEncoder.

(** Reading a class id back from the channels at pixel [i]: channel [c]
    (counted from 1) contributes [c] where it is set. *)
Definition class_at (t : chw Z) (i : nat) : Z :=
  foldr Z.add 0
    (zip_with (λ (c : nat) (plane : list Z), Z.of_nat c * default 0 (plane !! i))
              (seq 1 (length (chan t))) (chan t)).
End Decode.

Module Split.
(** Whether the flat-file adapter keeps an image name for the requested
    split. *)
Definition keeps (train : bool) (img_name : string) : bool :=
  negb (train && contains "val" img_name)
  && negb (negb train && contains "train" img_name).

Definition tab : ascii := "009"%char.
End Split.

Module MoreFixtures.
(** A large, non-crowd annotation of a category outside the class set. *)
Definition dog : COCODataset.annotation := {|
  COCODataset.image_id := 7; COCODataset.category_id := 30;
  COCODataset.iscrowd := 0; COCODataset.area := 500;
  COCODataset.segmentation := λ _ _, true |}.

(** A file system without any file. *)
Definition no_files : COCODataset.fs := {|
  images := ∅; text_files := ∅; annotation_files := ∅; index_files := ∅ |}.

(** The packed-colour files with a single-band annotation image. *)
Definition gray_files : FineGrainedADE20KDataset.fs := {|
  images := {[ "d/../f/ADE_train_1.jpg" := Fixtures.PackedColor.photo;
               "d/../f/ADE_train_1_seg.png"
                 := {| size := (1, 1)%nat; pix := L [Byte.x05] |} ]};
  text_files := ∅; annotation_files := ∅; index_files := ∅ |}.
End MoreFixtures.

Module Masks.
(** A tensor of [n] 8-bit values, and one of [n] values that are 0 or 1. *)
Definition u8_mask (n : nat) (t : tensor Z) : Prop :=
  length (data t) = n ∧ Forall (λ v, 0 ≤ v < 256) (data t).
Definition bit_mask (n : nat) (t : tensor Z) : Prop :=
  length (data t) = n ∧ Forall (λ v, v = 0 ∨ v = 1) (data t).
End Masks.

Module Mismatch.
Import COCODataset.

(** A store that records a 1x1 image for a file of 2x1 pixels, with a cup
    and a crowd region that cover the pixel in row 0, column 0, only. *)
Definition left_cup : annotation := {|
  image_id := 7; category_id := 20; iscrowd := 0; area := 300;
  segmentation := λ r c, bool_decide (r = 0%nat ∧ c = 0%nat) |}.
Definition left_crowd : annotation := {|
  image_id := 7; category_id := 20; iscrowd := 1; area := 900;
  segmentation := λ r c, bool_decide (r = 0%nat ∧ c = 0%nat) |}.
Definition store : COCO := {|
  imgs := [(7, {| file_name := "x.jpg"; height := 1; width := 1 |})];
  cats := cats Fixtures.Polygon.store0;
  imgToAnns := {[ 7 := [left_cup; left_crowd] ]} |}.
Definition files : fs := {|
  images := {[ "d/train2017/x.jpg" := Fixtures.Polygon.photo ]};
  text_files := ∅;
  annotation_files := {[ "a/instances_train2017.json" := store ]};
  index_files := ∅ |}.
Definition set : t := {|
  p := Fixtures.Polygon.params0; mode := "train";
  annotation_path := "a/instances_train2017.json";
  img_dir := "d/train2017"; coco := store; img_ids := [7];
  class_map := _generate_class_map store Fixtures.Polygon.params0 |}.
End Mismatch.

(** Notions the focal-loss properties are stated with, in binary32. *)
Module Float32.
Import FocalLoss.

Definition zero : spec_float := S754_zero false.
Definition one : spec_float := SFone prec emax.
(** 0.5 and the binary32 value nearest to 0.1 *)
Definition half : spec_float := S754_finite false 8388608 (-24).
Definition tenth : spec_float := S754_finite false 13421773 (-27).
(** 0.25 and the binary32 value nearest to 1/3 *)
Definition quarter : spec_float := S754_finite false 8388608 (-25).

(** The binary32 value of a natural number. *)
Definition of_nat (n : nat) : spec_float :=
  binary_normalize prec emax (Z.of_nat n) 0 false.




End Float32.

(** * Properties *)

(** ** Tensors: broadcasting *)

Section tensors.
Context {T U V : Type}.

Lemma numel_app (a b : list nat) : numel (a ++ b) = (numel a * numel b)%nat.
Proof.
  unfold numel. induction a as [|x a IH]; cbn; [lia|]. rewrite IH. lia.
Qed.

Lemma numel_reverse (s : list nat) : numel (reverse s) = numel s.
Proof.
  induction s as [|x s IH]; [done|].
  rewrite reverse_cons, numel_app, IH. unfold numel. cbn. lia.
Qed.

Lemma broadcast_rev_refl (s : list nat) : broadcast_rev s s = Some s.
Proof.
  induction s as [|d s IH]; [done|]. cbn. rewrite decide_True by done. cbn.
  by rewrite IH.
Qed.

Lemma broadcast_shapes_refl (s : list nat) : broadcast_shapes s s = Some s.
Proof. unfold broadcast_shapes. rewrite broadcast_rev_refl. cbn. by rewrite reverse_involutive. Qed.

Lemma broadcast_rev_absorb (a b s : list nat) :
  broadcast_rev a b = Some s →
  broadcast_rev s a = Some s ∧ broadcast_rev s b = Some s.
Proof.
  revert b s. induction a as [|x a IH]; intros [|y b] s Hs.
  - injection Hs as <-. done.
  - injection Hs as <-. split; [by destruct y|apply broadcast_rev_refl].
  - injection Hs as <-. split; [apply broadcast_rev_refl|done].
  - cbn in Hs.
    destruct (broadcast_rev a b) as [s'|] eqn:Hab.
    2: { by repeat case_decide. }
    destruct (IH b s' Hab) as [Ha Hb].
    assert (Hd : ∃ d, s = d :: s' ∧ (d = x ∨ x = 1%nat) ∧ (d = y ∨ y = 1%nat)).
    { destruct (decide (x = y)) as [->|Hxy]; [injection Hs as <-; exists y; tauto|].
      destruct (decide (x = 1%nat)) as [->|Hx1]; [injection Hs as <-; exists y; tauto|].
      destruct (decide (y = 1%nat)) as [->|Hy1]; [injection Hs as <-; exists x; tauto|].
      discriminate. }
    destruct Hd as (d & -> & Hx & Hy). cbn. rewrite Ha, Hb.
    split; repeat case_decide; cbn; try (by subst); lia.
Qed.

Lemma broadcast_shapes_absorb (a b s : list nat) :
  broadcast_shapes a b = Some s →
  broadcast_shapes s a = Some s ∧ broadcast_shapes s b = Some s.
Proof.
  unfold broadcast_shapes. intros Hs.
  destruct (broadcast_rev (reverse a) (reverse b)) as [r|] eqn:Hr; [|done].
  cbn in Hs. injection Hs as <-. rewrite reverse_involutive.
  destruct (broadcast_rev_absorb _ _ _ Hr) as [-> ->]. done.
Qed.

Lemma source_rev_lt (s sa : list nat) (i : nat) :
  broadcast_rev s sa = Some s →
  (i < numel s)%nat →
  (source_rev s sa i < numel sa)%nat.
Proof.
  revert sa i. induction s as [|d s IH]; intros [|da sa] i Hs Hi; cbn; try lia.
  - discriminate.
  - cbn in Hs. destruct (broadcast_rev s sa) as [s'|] eqn:Hr.
    2: { by repeat case_decide. }
    assert (Hd : s' = s ∧ (da = d ∨ da = 1%nat)).
    { destruct (decide (d = da)) as [->|Hxy]; [injection Hs as <-; tauto|].
      destruct (decide (d = 1%nat)) as [->|Hx1]; [injection Hs as <- <-; tauto|].
      destruct (decide (da = 1%nat)) as [->|Hy1]; [injection Hs as <-; tauto|].
      discriminate. }
    destruct Hd as [-> Hd].
    change (numel (d :: s)) with (d * numel s)%nat in Hi.
    change (numel (da :: sa)) with (da * numel sa)%nat.
    assert (d ≠ 0%nat) by (intros ->; lia).
    assert (Hq : (i / d < numel s)%nat) by (apply Nat.Div0.div_lt_upper_bound; lia).
    pose proof (IH sa (i / d)%nat Hr Hq) as Hsrc.
    pose proof (Nat.mod_upper_bound i d ltac:(done)) as Hmod.
    change (foldr Nat.mul 1%nat sa) with (numel sa). clear Hs.
    case_decide; nia.
Qed.

Lemma length_omap_total {A B} (f : A → option B) (l : list A) :
  Forall (λ x, is_Some (f x)) l → length (omap f l) = length l.
Proof.
  induction 1 as [|x l [y Hy] _ IH]; [done|]. cbn. rewrite Hy. cbn. by rewrite IH.
Qed.

Lemma expand_wf (t : tensor T) (s : list nat) :
  wf t → broadcast_shapes s (shape t) = Some s → wf (expand t s).
Proof.
  unfold wf, expand, broadcast_shapes. cbn. intros Hwf Hs.
  destruct (broadcast_rev (reverse s) (reverse (shape t))) as [r|] eqn:Hr; [|done].
  cbn in Hs. injection Hs as Hs.
  assert (r = reverse s) as -> by (by rewrite <- Hs, reverse_involutive).
  rewrite length_omap_total; [by rewrite length_seq|].
  apply Forall_forall. intros i Hi. apply elem_of_seq in Hi.
  apply lookup_lt_is_Some. rewrite Hwf, <- (numel_reverse (shape t)).
  apply source_rev_lt; [done|]. rewrite numel_reverse. lia.
Qed.

Lemma expand_elem (t : tensor T) (s : list nat) (x : T) :
  x ∈ data (expand t s) → x ∈ data t.
Proof.
  unfold expand. cbn. intros Hx. apply list_elem_of_omap in Hx as (i & _ & Hi).
  apply list_elem_of_lookup. eauto.
Qed.

Lemma expand_Forall (P : T → Prop) (t : tensor T) (s : list nat) :
  Forall P (data t) → Forall P (data (expand t s)).
Proof.
  intros Ht. apply Forall_forall. intros x Hx. apply expand_elem in Hx.
  by eapply Forall_forall in Ht.
Qed.
End tensors.

Section tensor_ops.
Context {T U V : Type}.

Lemma zip_with_Forall (f : T → U → V) (P : T → Prop) (Q : U → Prop) (R : V → Prop)
    (l : list T) (k : list U) :
  (∀ x y, P x → Q y → R (f x y)) →
  Forall P l → Forall Q k → Forall R (zip_with f l k).
Proof.
  intros Hf Hl Hk. apply Forall_forall. intros v Hv.
  apply elem_of_lookup_zip_with in Hv as (i & x & y & -> & Hx & Hy).
  apply Hf.
  - by eapply (proj1 (Forall_lookup _ _) Hl).
  - by eapply (proj1 (Forall_lookup _ _) Hk).
Qed.


Lemma tzip_wf (f : T → U → V) (a : tensor T) (b : tensor U) (s : list nat) :
  wf a → wf b → broadcast_shapes (shape a) (shape b) = Some s →
  ∃ c, tzip f a b = Ok c ∧ shape c = s ∧ wf c.
Proof.
  intros Ha Hb Hs. unfold tzip. case_decide as Hsh.
  - rewrite <- Hsh, broadcast_shapes_refl in Hs. injection Hs as <-.
    eexists. split; [done|]. split; [done|].
    unfold wf in *. cbn [data shape]. rewrite length_zip_with, Ha, Hb, Hsh. lia.
  - rewrite Hs. eexists. split; [done|]. split; [done|].
    destruct (broadcast_shapes_absorb _ _ _ Hs) as [Hsa Hsb].
    pose proof (expand_wf a s Ha Hsa) as Ha'. pose proof (expand_wf b s Hb Hsb) as Hb'.
    unfold wf, expand in *. cbn [data shape] in *. rewrite length_zip_with, Ha', Hb'. lia.
Qed.
End tensor_ops.

Section broadcast_more.

Lemma broadcast_rev_comm (a b : list nat) : broadcast_rev a b = broadcast_rev b a.
Proof.
  revert b. induction a as [|x a IH]; intros [|y b]; try done.
  cbn. rewrite (IH b).
  destruct (decide (x = y)) as [->|Hxy].
  - by rewrite decide_True by done.
  - rewrite (decide_False (P := y = x)) by congruence.
    destruct (decide (x = 1%nat)) as [->|Hx], (decide (y = 1%nat)) as [->|Hy]; done.
Qed.

Lemma broadcast_shapes_comm (a b : list nat) : broadcast_shapes a b = broadcast_shapes b a.
Proof. unfold broadcast_shapes. by rewrite broadcast_rev_comm. Qed.

Lemma tmap_wf {T U} (f : T → U) (t : tensor T) : wf t → wf (tmap f t).
Proof. unfold wf, tmap. cbn. by rewrite length_fmap. Qed.
End broadcast_more.

Section expand_same_shape.
Context {T : Type}.

Lemma source_rev_same (s : list nat) (i : nat) :
  (i < numel s)%nat → source_rev s s i = i.
Proof.
  revert i. induction s as [|d s IH]; intros i Hi.
  - cbn in *. lia.
  - change (numel (d :: s)) with (d * numel s)%nat in Hi. cbn [source_rev].
    assert (d ≠ 0%nat) by (intros ->; lia).
    rewrite IH by (apply Nat.Div0.div_lt_upper_bound; lia).
    pose proof (Nat.div_mod_eq i d) as Hdm.
    case_decide as Hd; [|lia].
    subst d. rewrite Nat.div_1_r in *. lia.
Qed.

Lemma omap_lookup_seq (l : list T) : omap (λ i, l !! i) (seq 0 (length l)) = l.
Proof.
  induction l as [|x l IH] using rev_ind; [done|].
  rewrite length_app. cbn [length]. rewrite Nat.add_1_r, seq_S, omap_app.
  assert (Hlast : omap (λ i, (l ++ [x]) !! i) [(0 + length l)%nat] = [x]).
  { cbn. rewrite lookup_app_r by lia. by rewrite Nat.sub_diag. }
  rewrite Hlast. f_equal. rewrite <- IH at 2. apply list_omap_ext, Forall_Forall2_diag, Forall_forall.
  intros i Hi. apply elem_of_seq in Hi. apply lookup_app_l. lia.
Qed.

(** Operands of one shape need no expansion: expanding a tensor to its own
    shape gives the tensor back. *)
Lemma expand_same (t : tensor T) : wf t → expand t (shape t) = t.
Proof.
  destruct t as [s d]. unfold wf, expand. cbn [shape data]. intros Hwf. f_equal.
  transitivity (omap (λ i, d !! i) (seq 0 (length d))); [|apply omap_lookup_seq].
  rewrite Hwf. apply list_omap_ext, Forall_Forall2_diag, Forall_forall.
  intros i Hi. apply elem_of_seq in Hi.
  rewrite source_rev_same; [done|]. rewrite numel_reverse. lia.
Qed.
End expand_same_shape.


(** ** Label encoder *)

Section encoder.
Import SegEncoder.

Lemma of_byte_range b : 0 ≤ U8.of_byte b < 256.
Proof.
  unfold U8.of_byte. pose proof (Byte.to_N_bounded b). lia.
Qed.

Lemma broadcast_dim_1 n : broadcast_dim n 1 = Ok n.
Proof.
  unfold broadcast_dim. repeat case_bool_decide; congruence.
Qed.

(** The encoder on a single-band grid, channel by channel. *)
Lemma catgory_to_onehot_L (n w h : nat) (px : list byte) :
  length px = (h * w)%nat →
  catgory_to_onehot n {| size := (w, h); pix := L px |} =
  Ok (CHW (n, h, w)
        ((λ c : nat, (λ v, float_of_bool (bool_decide (U8.wrap (Z.of_nat (S c)) = v)))
                     <$> (U8.of_byte <$> px)) <$> seq 0 n)).
Proof.
  intros Hlen. unfold catgory_to_onehot, pil_to_tensor. cbn.
  assert (Hx : length px = (h * w * 1)%nat) by lia.
  rewrite (bool_decide_eq_true_2 _ Hx). cbn.
  unfold U8.arange1. rewrite length_fmap, length_seq, broadcast_dim_1. cbn.
  do 2 f_equal. apply list_eq. intros c.
  rewrite !list_lookup_fmap.
  destruct (seq 0 n !! c) as [c'|] eqn:Hc; [|done]. cbn.
  apply lookup_seq in Hc as [-> Hc]. cbn. f_equal.
  assert (Hid : (if bool_decide (n = 1%nat) then 0%nat else c) = c)
    by (case_bool_decide; lia).
  rewrite Hid, list_lookup_fmap, lookup_seq_lt by done. cbn.
  reflexivity.
Qed.

Lemma indicator_sum (v : Z) (a n : nat) :
  foldr Z.add 0 ((λ c : nat, float_of_bool (bool_decide (Z.of_nat (S c) = v))) <$> seq a n)
  = if bool_decide (Z.of_nat a < v ≤ Z.of_nat (a + n)) then 1 else 0.
Proof.
  revert a. induction n as [|n IH]; intros a; cbn.
  - rewrite bool_decide_eq_false_2 by lia. done.
  - rewrite IH. unfold float_of_bool.
    repeat case_bool_decide; lia.
Qed.
End encoder.

Section encoder_main.
Import SegEncoder.

Lemma onehot_lookup (n : nat) (px : list byte) (c i : nat) (v : byte) :
  (c < n)%nat → px !! i = Some v →
  (((λ c : nat, (λ v, float_of_bool (bool_decide (U8.wrap (Z.of_nat (S c)) = v)))
                <$> (U8.of_byte <$> px)) <$> seq 0 n) !! c) ≫= (.!! i)
  = Some (float_of_bool (bool_decide (U8.wrap (Z.of_nat (S c)) = U8.of_byte v))).
Proof.
  intros Hc Hv. rewrite list_lookup_fmap, lookup_seq_lt by done. cbn.
  rewrite !list_lookup_fmap, Hv. done.
Qed.

Lemma wrap_small (c : nat) : (c ≤ 255)%nat → U8.wrap (Z.of_nat c) = Z.of_nat c.
Proof. intros. unfold U8.wrap. apply Z.mod_small. lia. Qed.

Lemma onehot_channel_sum (n : nat) (px : list byte) (i : nat) (v : byte) :
  (n ≤ 255)%nat → px !! i = Some v →
  ∀ d, channel_sum
    (CHW d
       ((λ c : nat, (λ v, float_of_bool (bool_decide (U8.wrap (Z.of_nat (S c)) = v)))
                    <$> (U8.of_byte <$> px)) <$> seq 0 n)) i
  = if bool_decide (1 ≤ U8.of_byte v ≤ Z.of_nat n) then 1 else 0.
Proof.
  intros Hn Hv d. unfold channel_sum. cbn.
  rewrite <- list_fmap_compose.
  rewrite (list_fmap_ext _ (λ c : nat, float_of_bool (bool_decide (Z.of_nat (S c) = U8.of_byte v))) (seq 0 n)).
  - rewrite indicator_sum. repeat case_bool_decide; lia.
  - intros k c Hk. apply lookup_seq in Hk as [-> Hk]. cbn.
    rewrite !list_lookup_fmap, Hv. cbn.
    rewrite (wrap_small (S k)) by lia. done.
Qed.

(** C4 (as amended): with at most 255 classes, the encoder turns a
    single-band grid of [h * w] bytes into [num_classes] channels such that
    channel [c] (for [c] from 1 to [num_classes]) holds 1 exactly at the
    pixels whose grid value is [c] and 0 elsewhere; at most one channel is
    1 at a pixel, and the sum over the channel axis is 0 or 1. *)
Theorem onehot_at_most_one_channel (num_classes w h : nat) (px : list byte) :
  (num_classes ≤ 255)%nat →
  length px = (h * w)%nat →
  ∃ onehot,
    catgory_to_onehot num_classes {| size := (w, h); pix := L px |} = Ok onehot ∧
    dims onehot = (num_classes, h, w) ∧
    length (chan onehot) = num_classes ∧
    ∀ (i : nat) (v : byte), px !! i = Some v →
      (∀ c : nat, (1 ≤ c ≤ num_classes)%nat →
         ∃ x, (chan onehot !! (c - 1)%nat) ≫= (.!! i) = Some x ∧
              (x = 0 ∨ x = 1) ∧ (x = 1 ↔ U8.of_byte v = Z.of_nat c)) ∧
      (∀ c c' : nat,
         (chan onehot !! c) ≫= (.!! i) = Some 1 →
         (chan onehot !! c') ≫= (.!! i) = Some 1 → c = c') ∧
      (channel_sum onehot i = 0 ∨ channel_sum onehot i = 1).
Proof.
  intros Hn Hlen. eexists. split; [apply catgory_to_onehot_L, Hlen|].
  cbn. split; [done|]. split; [by rewrite length_fmap, length_seq|].
  intros i v Hv. split; [|split].
  - intros c Hc. eexists. split.
    + apply onehot_lookup; [lia|done].
    + replace (S (c - 1)) with c by lia. rewrite wrap_small by lia.
      unfold float_of_bool. case_bool_decide; split; try tauto; split; intros; congruence || lia.
  - assert (Hone : ∀ c : nat,
      (((λ c : nat, (λ v, float_of_bool (bool_decide (U8.wrap (Z.of_nat (S c)) = v)))
                    <$> (U8.of_byte <$> px)) <$> seq 0 num_classes) !! c) ≫= (.!! i)
      = Some 1 → Z.of_nat (S c) = U8.of_byte v).
    { intros c Hc. destruct (decide (c < num_classes)%nat) as [Hlt|Hge].
      - rewrite (onehot_lookup _ _ _ _ _ Hlt Hv) in Hc.
        rewrite wrap_small in Hc by lia.
        unfold float_of_bool in Hc. case_bool_decide; [done|discriminate].
      - rewrite lookup_ge_None_2 in Hc; [discriminate|].
        rewrite length_fmap, length_seq. lia. }
    intros c c' Hc Hc'. apply Hone in Hc, Hc'. lia.
  - pose proof (onehot_channel_sum num_classes px i v Hn Hv (num_classes, h, w)) as Hs.
    unfold channel_sum in Hs. cbn in Hs. rewrite Hs. case_bool_decide; tauto.
Qed.

Lemma onehot_at_most_one_channel_witness :
  ∃ onehot,
    catgory_to_onehot 3 {| size := (2, 1)%nat; pix := L [Byte.x02; Byte.x00] |}
    = Ok onehot ∧ channel_sum onehot 0 = 1 ∧ channel_sum onehot 1 = 0.
Proof.
  destruct (onehot_at_most_one_channel 3 2 1 [Byte.x02; Byte.x00])
    as (onehot & Heq & _); [lia|reflexivity|].
  exists onehot. split; [exact Heq|].
  vm_compute in Heq. injection Heq as <-. split; reflexivity.
Defined.

(** C4 as stated fails from 257 classes on: the class ids are generated in
    the grid's 8-bit type, so channels 1 and 257 both carry id 1 and a pixel
    of value 1 sets both. *)
Lemma onehot_two_channels_at_257 :
  ∃ onehot,
    catgory_to_onehot 257 {| size := (1, 1)%nat; pix := L [Byte.x01] |} = Ok onehot ∧
    (chan onehot !! 0%nat) ≫= (.!! 0%nat) = Some 1 ∧
    (chan onehot !! 256%nat) ≫= (.!! 0%nat) = Some 1 ∧
    channel_sum onehot 0 = 2.
Proof.
  eexists. split; [vm_compute; reflexivity|].
  repeat split; vm_compute; reflexivity.
Qed.

(** C10 (as amended): with at most 255 classes, a pixel whose grid value is
    outside [1, num_classes] has 0 in every one of the [num_classes]
    channels. *)
Theorem out_of_range_is_background (num_classes w h : nat) (px : list byte) :
  (num_classes ≤ 255)%nat →
  length px = (h * w)%nat →
  ∃ onehot,
    catgory_to_onehot num_classes {| size := (w, h); pix := L px |} = Ok onehot ∧
    length (chan onehot) = num_classes ∧
    ∀ (i : nat) (v : byte), px !! i = Some v →
      ¬ (1 ≤ U8.of_byte v ≤ Z.of_nat num_classes) →
      ∀ c : nat, (c < num_classes)%nat →
        (chan onehot !! c) ≫= (.!! i) = Some 0.
Proof.
  intros Hn Hlen. eexists. split; [apply catgory_to_onehot_L, Hlen|].
  cbn. split; [by rewrite length_fmap, length_seq|].
  intros i v Hv Hout c Hc.
  rewrite (onehot_lookup _ _ _ _ _ Hc Hv), wrap_small by lia.
  unfold float_of_bool. case_bool_decide; [lia|done].
Qed.

Lemma out_of_range_is_background_witness :
  ∃ onehot,
    catgory_to_onehot 3 {| size := (2, 1)%nat; pix := L [Byte.x02; Byte.xc8] |}
    = Ok onehot ∧
    ∀ c : nat, (c < 3)%nat → (chan onehot !! c) ≫= (.!! 1%nat) = Some 0.
Proof.
  destruct (out_of_range_is_background 3 2 1 [Byte.x02; Byte.xc8])
    as (onehot & Heq & _ & Hbg); [lia|reflexivity|].
  exists onehot. split; [exact Heq|].
  apply (Hbg 1%nat Byte.xc8); [reflexivity|vm_compute; intros [_ H]; apply H; reflexivity].
Defined.

(** C10 as stated fails at 256 classes: channel 256 carries the wrapped
    id 0, so the background value 0, which is outside [1, 256], sets it. *)
Lemma background_sets_channel_256 :
  ∃ onehot,
    catgory_to_onehot 256 {| size := (1, 1)%nat; pix := L [Byte.x00] |} = Ok onehot ∧
    ¬ (1 ≤ U8.of_byte Byte.x00 ≤ 256) ∧
    (chan onehot !! 255%nat) ≫= (.!! 0%nat) = Some 1.
Proof.
  eexists. split; [vm_compute; reflexivity|].
  split; [vm_compute; intros [H _]; apply H; reflexivity|].
  vm_compute. reflexivity.
Qed.
End encoder_main.

(** ** Packed-colour adapter *)

Section packed_color.
Import FineGrainedADE20KDataset.

Lemma band_two (seg : Image) (b0 b1 : list byte) (rest : list (list byte)) :
  bands (pix seg) = b0 :: b1 :: rest →
  band seg 0 = Ok (Tensor [(size seg).2; (size seg).1] (U8.of_byte <$> b0)) ∧
  band seg 1 = Ok (Tensor [(size seg).2; (size seg).1] (U8.of_byte <$> b1)).
Proof.
  intros Hb. unfold band. rewrite Hb.
  destruct (pix seg); [discriminate| | |]; done.
Qed.

(** C5: whenever the key resolves and both files open, every pixel of
    the returned [seg_mask] is [(channel0 // 10) * 256 + channel1] of the
    annotation image; the result is a function of the two path lists and
    the files only, so the configured class set plays no part. *)
Theorem packed_color_decode (files : fs) (self : t) (key : Z)
    (img_path seg_path : string) (raw seg : Image)
    (b0 b1 : list byte) (rest : list (list byte)) :
  getitem (img_path_list self) key = Ok img_path →
  getitem (seg_path_list self) key = Ok seg_path →
  images files !! img_path = Some raw →
  images files !! seg_path = Some seg →
  bands (pix seg) = b0 :: b1 :: rest →
  ∃ s,
    get_raw_data files self key = Ok s ∧
    shape (seg_mask s) = [(size seg).2; (size seg).1] ∧
    length (data (seg_mask s)) = length b0 ∧
    (∀ (i : nat) (c0 c1 : byte), b0 !! i = Some c0 → b1 !! i = Some c1 →
       data (seg_mask s) !! i = Some (U8.of_byte c0 `div` 10 * 256 + U8.of_byte c1)) ∧
    (∀ self' : t,
       img_path_list self' = img_path_list self →
       seg_path_list self' = seg_path_list self →
       get_raw_data files self' key = Ok s).
Proof.
  intros Hi Hs Hraw Hseg Hb.
  destruct (band_two seg b0 b1 rest Hb) as [H0 H1].
  assert (Hlen : length b1 = length b0).
  { destruct (pix seg); simplify_eq/=; by rewrite !length_fmap. }
  assert (Hrun : ∀ self' : t,
    img_path_list self' = img_path_list self →
    seg_path_list self' = seg_path_list self →
    get_raw_data files self' key =
    Ok {| image := np_array (convert_RGB raw);
          seg_mask := Tensor [(size seg).2; (size seg).1]
            (zip_with Z.add ((λ x, x * 256) <$> ((λ x, x `div` 10) <$> (U8.of_byte <$> b0)))
                      (U8.of_byte <$> b1));
          loss_mask := full [(size seg).2; (size seg).1] 1 |}).
  { intros self' Ei Es. unfold get_raw_data. rewrite Ei, Es, Hi, Hs. cbn.
    unfold open_file. rewrite Hraw, Hseg. cbn. rewrite H0, H1. cbn.
    unfold tzip. cbn. rewrite decide_True by done. done. }
  eexists. split; [by apply Hrun|]. cbn.
  split; [done|]. split.
  - rewrite length_zip_with, !length_fmap. lia.
  - split; [|intros; by apply Hrun].
    intros i c0 c1 Hc0 Hc1.
    rewrite lookup_zip_with, !list_lookup_fmap, Hc0, Hc1. done.
Qed.

Lemma packed_set_built :
  __init__ Fixtures.PackedColor.files0 Fixtures.PackedColor.params0 true
  = Ok Fixtures.PackedColor.set0.
Proof. vm_compute. reflexivity. Qed.

(** channel0 = 20, channel1 = 5 decodes to 517. *)
Lemma packed_color_decode_witness :
  ∃ s, get_raw_data Fixtures.PackedColor.files0 Fixtures.PackedColor.set0 0 = Ok s ∧
       data (seg_mask s) = [517].
Proof.
  destruct (packed_color_decode Fixtures.PackedColor.files0 Fixtures.PackedColor.set0 0
              "d/../f/ADE_train_1.jpg" "d/../f/ADE_train_1_seg.png"
              Fixtures.PackedColor.photo Fixtures.PackedColor.packed
              [Byte.x14] [Byte.x05] [[Byte.x00]])
    as (s & Heq & _); [reflexivity..|].
  exists s. split; [exact Heq|].
  vm_compute in Heq. injection Heq as <-. reflexivity.
Defined.
End packed_color.

(** ** Flat-file class-map adapter *)

Section flat_file.
Import ADE20KDataset FlatFile.

Lemma build_map_dict_lookup (classes : gset string) (names : list string) (v : Z) :
  build_map_dict classes names !! v
  = n ← row_name names v;
    if decide (n ∈ classes) then Some (dense_id classes names v) else None.
Proof.
  unfold build_map_dict.
  set (step := λ '(map_dict, cur_idx) '(i, n),
         if decide (n ∈ classes)
         then (<[Z.of_nat i + 1 := cur_idx]> map_dict, cur_idx + 1)
         else (map_dict, cur_idx) : gmap Z Z * Z).
  assert (Hgen :
    (foldl step (∅, 1) (imap (λ i n, (i, n)) names)).2
    = Z.of_nat (length (filter (λ n, n ∈ classes) names)) + 1 ∧
    ∀ v, (foldl step (∅, 1) (imap (λ i n, (i, n)) names)).1 !! v
         = n ← row_name names v;
           if decide (n ∈ classes) then Some (dense_id classes names v) else None).
  { clear v. induction names as [|x names [IHidx IHmap]] using rev_ind.
    - cbn. split; [done|]. intros v. rewrite lookup_empty. unfold row_name.
      case_bool_decide; [|done]. by rewrite lookup_nil.
    - rewrite imap_app, foldl_app. cbn.
      destruct (foldl step (∅, 1) (imap (λ i n, (i, n)) names)) as [m idx] eqn:Hf.
      cbn in IHidx, IHmap. rewrite Nat.add_0_r.
      rewrite filter_app, length_app, filter_cons, filter_nil.
      assert (Hrow : ∀ v, row_name (names ++ [x]) v
                = if bool_decide (v = Z.of_nat (length names) + 1) then Some x
                  else row_name names v).
      { intros v. unfold row_name. case_bool_decide as H1; case_bool_decide as H2; try lia.
        - subst v. replace (Z.to_nat (Z.of_nat (length names) + 1 - 1)) with (length names) by lia.
          by rewrite lookup_app_r, Nat.sub_diag by lia.
        - destruct (decide (Z.to_nat (v - 1) < length names)%nat).
          + by rewrite lookup_app_l by lia.
          + rewrite lookup_app_r by lia. rewrite (lookup_ge_None_2 names) by lia.
            apply lookup_ge_None_2. cbn. lia.
        - done. }
      assert (Hdense : ∀ v, v ≤ Z.of_nat (length names) + 1 →
                dense_id classes (names ++ [x]) v = dense_id classes names v).
      { intros v Hv. unfold dense_id. by rewrite take_app_le by lia. }
      unfold step. destruct (decide (x ∈ classes)) as [Hx|Hx]; cbn.
      + split; [lia|]. intros v. rewrite Hrow. case_bool_decide as Hv.
        * subst v. rewrite lookup_insert_eq. cbn. rewrite decide_True by done.
          f_equal. unfold dense_id.
          replace (Z.to_nat (Z.of_nat (length names) + 1 - 1)) with (length names) by lia.
          rewrite take_app_length. lia.
        * rewrite lookup_insert_ne by lia. rewrite IHmap.
          destruct (row_name names v) as [n|] eqn:Hn; [|done]. cbn.
          case_decide; [|done]. rewrite Hdense; [done|].
          unfold row_name in Hn. case_bool_decide; [|done].
          apply lookup_lt_Some in Hn. lia.
      + split; [lia|]. intros v. rewrite Hrow. case_bool_decide as Hv.
        * subst v. cbn. rewrite decide_False by done. rewrite IHmap.
          unfold row_name. case_bool_decide; [|done].
          rewrite lookup_ge_None_2 by lia. done.
        * rewrite IHmap.
          destruct (row_name names v) as [n|] eqn:Hn; [|done]. cbn.
          case_decide; [|done]. rewrite Hdense; [done|].
          unfold row_name in Hn. case_bool_decide; [|done].
          apply lookup_lt_Some in Hn. lia. }
  apply Hgen.
Qed.

Lemma map_func_expected (classes : gset string) (names : list string) (v : Z) :
  map_func (build_map_dict classes names) v = expected classes names v.
Proof.
  unfold map_func, expected. rewrite build_map_dict_lookup.
  destruct (row_name names v); cbn; [|done]. by case_decide.
Qed.

Lemma expected_range (classes : gset string) (names : list string) (v : Z) :
  0 ≤ v → 0 ≤ expected classes names v ≤ v.
Proof.
  intros Hv. unfold expected, row_name, dense_id.
  case_bool_decide; [|lia].
  destruct (names !! Z.to_nat (v - 1)); [|lia].
  case_decide; [|lia].
  pose proof (length_filter (λ n, n ∈ classes) (take (Z.to_nat (v - 1)) names)).
  pose proof (length_take_le names (Z.to_nat (v - 1))).
  rewrite length_take in *. lia.
Qed.

Lemma init_class_map (files : fs) (prm : params) (train : bool) (self : t)
    (class_desc : list string) :
  __init__ files prm train = Ok self →
  text_files files !! path_join (root_dir prm) "objectInfo150.txt" = Some class_desc →
  class_map self = build_map_dict (classes prm) (class_names class_desc).
Proof.
  unfold __init__, _generate_class_map, open_file. intros Hinit Hdesc.
  rewrite Hdesc in Hinit. cbn in Hinit.
  destruct (text_files files !! _); [|discriminate]. cbn in Hinit.
  destruct (scan_lines _ _ _ _ _) as [[[imgs segs] scenes]|]; [|discriminate].
  cbn in Hinit. by injection Hinit as <-.
Qed.

(** C7: the class map built at construction sends grid value [v] to the
    dense id of row [v] when the name at that row is in the configured
    class set and to 0 otherwise; [get_raw_data] applies it to every byte
    of the annotation image, so every occurrence of a value whose row name
    is not allowed (or that names no row) is 0 in the returned
    [seg_mask]. *)
Theorem flat_file_class_map (files : fs) (prm : params) (train : bool) (self : t)
    (class_desc : list string) :
  __init__ files prm train = Ok self →
  text_files files !! path_join (root_dir prm) "objectInfo150.txt" = Some class_desc →
  (∀ v, map_func (class_map self) v
        = match row_name (class_names class_desc) v with
          | Some n => if decide (n ∈ classes prm)
                      then dense_id (classes prm) (class_names class_desc) v
                      else 0
          | None => 0
          end) ∧
  (∀ key img_path seg_path img seg,
     getitem (img_path_list self) key = Ok img_path →
     getitem (seg_path_list self) key = Ok seg_path →
     images files !! img_path = Some img →
     images files !! seg_path = Some seg →
     tobytes (pix seg) ≠ [] →
     ∃ s, get_raw_data files self key = Ok s ∧
          data (seg_mask s)
          = (λ b, map_func (class_map self) (U8.of_byte b)) <$> tobytes (pix seg) ∧
          ∀ (i : nat) (b : byte), tobytes (pix seg) !! i = Some b →
            (∀ n, row_name (class_names class_desc) (U8.of_byte b) = Some n →
                  n ∉ classes prm) →
            data (seg_mask s) !! i = Some 0).
Proof.
  intros Hinit Hdesc. pose proof (init_class_map _ _ _ _ _ Hinit Hdesc) as Hmap.
  split.
  - intros v. rewrite Hmap. apply map_func_expected.
  - intros key img_path seg_path img seg Hi Hs Himg Hseg Hne.
    assert (Hdata : (λ x, U8.wrap (map_func (class_map self) x)) <$> (U8.of_byte <$> tobytes (pix seg))
                    = (λ b, map_func (class_map self) (U8.of_byte b)) <$> tobytes (pix seg)).
    { rewrite <- list_fmap_compose. apply list_fmap_ext. intros i b _. cbn.
      rewrite Hmap, map_func_expected.
      pose proof (of_byte_range b).
      pose proof (expected_range (classes prm) (class_names class_desc) (U8.of_byte b)).
      unfold U8.wrap. apply Z.mod_small. lia. }
    assert (Harr : data (np_array seg) = U8.of_byte <$> tobytes (pix seg)).
    { unfold np_array. by destruct (size seg). }
    assert (Hvec : vectorize (map_func (class_map self)) (np_array seg)
                   = Ok (tmap (map_func (class_map self)) (np_array seg))).
    { unfold vectorize. rewrite Harr.
      destruct (tobytes (pix seg)); [done|reflexivity]. }
    exists {| image := convert_RGB img;
              seg_mask := tmap U8.wrap (tmap (map_func (class_map self)) (np_array seg));
              loss_mask := U8.ones_like
                (tmap U8.wrap (tmap (map_func (class_map self)) (np_array seg))) |}.
    split; [|split].
    + unfold get_raw_data. rewrite Hi, Hs. cbn. unfold open_file. rewrite Himg, Hseg. cbn.
      rewrite Hvec. reflexivity.
    + cbn. rewrite Harr, <- Hdata, <- !list_fmap_compose. done.
    + cbn. intros i b Hb Hno.
      rewrite Harr, <- !list_fmap_compose, list_lookup_fmap, Hb. cbn.
      rewrite Hmap, map_func_expected. unfold expected.
      destruct (row_name _ _) as [n|] eqn:Hn; [|done].
      rewrite decide_False by (by apply Hno). done.
Qed.
End flat_file.

Section flat_file_examples.
Import ADE20KDataset FlatFile Fixtures.FlatFile.

Lemma flat_set_built : __init__ files0 params0 true = Ok set0.
Proof. vm_compute. reflexivity. Qed.

Lemma flat_file_class_map_witness :
  ∃ s, get_raw_data files0 set0 0 = Ok s ∧ data (seg_mask s) = [1; 0; 2; 0].
Proof.
  destruct (flat_file_class_map files0 params0 true set0 class_lines)
    as [_ Hget]; [exact flat_set_built|reflexivity|].
  destruct (Hget 0 "r/images/training/ADE_train_00000001.jpg"
              "r/annotations/training/ADE_train_00000001.png" photo grid)
    as (s & Hrun & _); [reflexivity|reflexivity|reflexivity|reflexivity|discriminate|].
  exists s. split; [exact Hrun|].
  vm_compute in Hrun. injection Hrun as <-. reflexivity.
Defined.
End flat_file_examples.

(** ** Polygon-annotation adapter *)

Section folds.
Context {A B : Type} (f : B → A → B).
Hypothesis f_comm : ∀ b x y, f (f b x) y = f (f b y) x.

Lemma foldl_comm_perm (l l' : list A) :
  l ≡ₚ l' → ∀ b, foldl f b l = foldl f b l'.
Proof.
  induction 1 as [|x l l' _ IH|x y l|l l' l'' _ IH1 _ IH2]; intros b; cbn.
  - done.
  - apply IH.
  - by rewrite f_comm.
  - by rewrite IH1.
Qed.
End folds.

Section polygon.
Import COCODataset Polygon.

Lemma bind_singleton_fmap {X Y} (g : X → Y) (l : list X) :
  (l ≫= λ x, [g x]) = g <$> l.
Proof. induction l as [|x l IH]; cbn; [done|]. by rewrite IH. Qed.

Lemma raster_length (h w : nat) region : length (raster h w region) = (h * w)%nat.
Proof.
  unfold raster.
  assert (Hgen : ∀ a, length (seq a h ≫= λ r, seq 0 w ≫= λ c, [if region r c then 1 else 0])
                      = (h * w)%nat).
  { induction h as [|h IH]; intros a; cbn; [done|].
    rewrite length_app, IH, bind_singleton_fmap, length_fmap, length_seq. done. }
  apply Hgen.
Qed.

Lemma raster_lookup (h w : nat) region (r c : nat) :
  (r < h)%nat → (c < w)%nat →
  raster h w region !! (r * w + c)%nat = Some (if region r c then 1 else 0).
Proof.
  intros Hr Hc. unfold raster.
  assert (Hgen : ∀ a r, (r < h)%nat →
    (seq a h ≫= λ r, seq 0 w ≫= λ c, [if region r c then 1 else 0]) !! (r * w + c)%nat
    = Some (if region (a + r)%nat c then 1 else 0)).
  { clear r Hr. induction h as [|h IH]; intros a r Hr; [lia|]. cbn.
    rewrite bind_singleton_fmap. destruct r as [|r].
    - rewrite lookup_app_l by (rewrite length_fmap, length_seq; lia).
      cbn. rewrite list_lookup_fmap, lookup_seq_lt by done. cbn.
      by rewrite Nat.add_0_r.
    - rewrite lookup_app_r by (rewrite length_fmap, length_seq; lia).
      rewrite length_fmap, length_seq.
      replace (S r * w + c - w)%nat with (r * w + c)%nat by lia.
      rewrite IH by lia.
      by replace (S a + r)%nat with (a + S r)%nat by lia. }
  by apply Hgen.
Qed.

Lemma pixel_index (h w j : nat) :
  (j < h * w)%nat → ∃ r c, (r < h)%nat ∧ (c < w)%nat ∧ j = (r * w + c)%nat.
Proof.
  intros Hj. assert (w ≠ 0)%nat by lia.
  exists (j `div` w)%nat, (j `mod` w)%nat.
  split; [apply Nat.Div0.div_lt_upper_bound; lia|].
  split; [by apply Nat.mod_upper_bound|].
  rewrite (Nat.div_mod_eq j w) at 1. lia.
Qed.

Lemma seg_px_comm self r c acc x y :
  seg_px self r c (seg_px self r c acc x) y = seg_px self r c (seg_px self r c acc y) x.
Proof.
  unfold seg_px.
  destruct (bool_decide (iscrowd x ≠ 0) || _), (bool_decide (iscrowd y ≠ 0) || _);
    try done.
  destruct (class_map self !! category_id x), (class_map self !! category_id y);
    try done. lia.
Qed.

Lemma loss_px_comm self r c acc x y :
  loss_px self r c (loss_px self r c acc x) y = loss_px self r c (loss_px self r c acc y) x.
Proof.
  unfold loss_px.
  destruct (bool_decide (iscrowd x ≠ 0) || _), (bool_decide (iscrowd y ≠ 0) || _);
    try done.
  by rewrite <- !Z.land_assoc, (Z.land_comm (U8.wrap _)).
Qed.

Lemma seg_px_skip self r c acc ann :
  bool_decide (iscrowd ann ≠ 0) || negb (Qle_bool (min_area (p self)) (area ann)) = true →
  seg_px self r c acc ann = acc.
Proof. intros E. unfold seg_px. by rewrite E. Qed.

Lemma seg_px_label self r c acc ann cid :
  bool_decide (iscrowd ann ≠ 0) || negb (Qle_bool (min_area (p self)) (area ann)) = false →
  class_map self !! category_id ann = Some cid →
  seg_px self r c acc ann
  = Z.max acc (U8.wrap ((if segmentation ann r c then 1 else 0) * cid)).
Proof. intros E Hc. unfold seg_px. by rewrite E, Hc. Qed.

Lemma seg_px_unmapped self r c acc ann :
  bool_decide (iscrowd ann ≠ 0) || negb (Qle_bool (min_area (p self)) (area ann)) = false →
  class_map self !! category_id ann = None →
  seg_px self r c acc ann = acc.
Proof. intros E Hc. unfold seg_px. by rewrite E, Hc. Qed.

Lemma loss_px_clear self r c acc ann :
  bool_decide (iscrowd ann ≠ 0) || negb (Qle_bool (min_area (p self)) (area ann)) = true →
  loss_px self r c acc ann
  = Z.land acc (U8.wrap (Z.lnot (if segmentation ann r c then 1 else 0))).
Proof. intros E. unfold loss_px. by rewrite E. Qed.

Lemma loss_px_keep self r c acc ann :
  bool_decide (iscrowd ann ≠ 0) || negb (Qle_bool (min_area (p self)) (area ann)) = false →
  loss_px self r c acc ann = acc.
Proof. intros E. unfold loss_px. by rewrite E. Qed.

(** The loop in closed form: shapes never change and each pixel is folded
    on its own. *)
Lemma annotate_all_pixels (self : t) (img_id : Z) (desc : img_desc)
    (anns : list annotation) :
  dict_get (imgs (coco self)) img_id = Ok desc →
  Forall (λ ann, image_id ann = img_id) anns →
  ∀ sd ld : list Z,
    length sd = (height desc * width desc)%nat →
    length ld = (height desc * width desc)%nat →
    ∃ sd' ld',
      annotate_all self (Tensor [height desc; width desc] sd,
                         Tensor [height desc; width desc] ld) anns
      = Ok (Tensor [height desc; width desc] sd', Tensor [height desc; width desc] ld') ∧
      length sd' = (height desc * width desc)%nat ∧
      length ld' = (height desc * width desc)%nat ∧
      ∀ r c : nat, (r < height desc)%nat → (c < width desc)%nat →
        sd' !! (r * width desc + c)%nat
        = (λ v, foldl (seg_px self r c) v anns) <$> sd !! (r * width desc + c)%nat ∧
        ld' !! (r * width desc + c)%nat
        = (λ v, foldl (loss_px self r c) v anns) <$> ld !! (r * width desc + c)%nat.
Proof.
  intros Hdesc Hall. induction Hall as [|ann anns Hid _ IH]; intros sd ld Hsd Hld.
  - exists sd, ld. cbn. repeat split; try done;
      by destruct (_ !! _).
  - cbn. unfold annToMask. rewrite Hid, Hdesc. cbn.
    set (h := height desc) in *. set (w := width desc) in *.
    destruct (bool_decide (iscrowd ann ≠ 0) || negb (Qle_bool (min_area (p self)) (area ann)))
      eqn:Hex.
    + unfold U8.bitwise_and, U8.bitwise_not, tzip, tmap. cbn.
      rewrite decide_True by done. cbn.
      edestruct (IH sd (zip_with Z.land ld ((λ x, U8.wrap (Z.lnot x)) <$> raster h w (segmentation ann))))
        as (sd' & ld' & Hrun & Hs' & Hl' & Hpx); [done| |].
      { rewrite length_zip_with, length_fmap, raster_length. lia. }
      exists sd', ld'. split; [exact Hrun|]. split; [done|]. split; [done|].
      intros r c Hr Hc. destruct (Hpx r c Hr Hc) as [Hs Hl]. split.
      * rewrite Hs. destruct (sd !! _); cbn; [|done].
        by rewrite (seg_px_skip self r c _ ann Hex).
      * rewrite Hl, lookup_zip_with, list_lookup_fmap, raster_lookup by done.
        destruct (ld !! _); cbn; [|done].
        by rewrite (loss_px_clear self r c _ ann Hex).
    + destruct (class_map self !! category_id ann) as [cid|] eqn:Hcat.
      * unfold U8.max, U8.mul_scalar, tzip, tmap. cbn.
        rewrite decide_True by done. cbn.
        edestruct (IH (zip_with Z.max sd ((λ x, U8.wrap (x * cid)) <$> raster h w (segmentation ann))) ld)
          as (sd' & ld' & Hrun & Hs' & Hl' & Hpx); [|done|].
        { rewrite length_zip_with, length_fmap, raster_length. lia. }
        exists sd', ld'. split; [exact Hrun|]. split; [done|]. split; [done|].
        intros r c Hr Hc. destruct (Hpx r c Hr Hc) as [Hs Hl]. split.
        -- rewrite Hs, lookup_zip_with, list_lookup_fmap, raster_lookup by done.
           destruct (sd !! _); cbn; [|done].
           by rewrite (seg_px_label self r c _ ann cid Hex Hcat).
        -- rewrite Hl. destruct (ld !! _); cbn; [|done].
           by rewrite (loss_px_keep self r c _ ann Hex).
      * cbn. edestruct (IH sd ld) as (sd' & ld' & Hrun & Hs' & Hl' & Hpx); [done..|].
        exists sd', ld'. split; [exact Hrun|]. split; [done|]. split; [done|].
        intros r c Hr Hc. destruct (Hpx r c Hr Hc) as [Hs Hl]. split.
        -- rewrite Hs. destruct (sd !! _); cbn; [|done].
           by rewrite (seg_px_unmapped self r c _ ann Hex Hcat).
        -- rewrite Hl. destruct (ld !! _); cbn; [|done].
           by rewrite (loss_px_keep self r c _ ann Hex).
Qed.
End polygon.

Section polygon_pixels.
Import COCODataset Polygon.

Lemma excluded_iff (self : t) (ann : annotation) :
  bool_decide (iscrowd ann ≠ 0) || negb (Qle_bool (min_area (p self)) (area ann)) = true
  ↔ is_crowd ann ∨ below_min_area self ann.
Proof.
  unfold is_crowd, below_min_area.
  rewrite orb_true_iff, bool_decide_eq_true, negb_true_iff.
  rewrite <- not_true_iff_false, Qle_bool_iff.
  split; (intros [?|?]; [by left|right]).
  - by apply Qnot_le_lt.
  - by apply Qlt_not_le.
Qed.

Lemma loss_px_excludes self r c acc ann :
  acc = 0 ∨ acc = 1 → excludes self r c ann → loss_px self r c acc ann = 0.
Proof.
  intros Hacc [Hex Hcov]. apply excluded_iff in Hex.
  rewrite (loss_px_clear _ _ _ _ _ Hex), Hcov. by destruct Hacc as [-> | ->].
Qed.

Lemma loss_px_other self r c acc ann :
  acc = 0 ∨ acc = 1 → ¬ excludes self r c ann → loss_px self r c acc ann = acc.
Proof.
  intros Hacc Hno.
  destruct (bool_decide (iscrowd ann ≠ 0) || negb (Qle_bool (min_area (p self)) (area ann)))
    eqn:Hex.
  - rewrite (loss_px_clear _ _ _ _ _ Hex).
    destruct (segmentation ann r c) eqn:Hcov.
    + exfalso. apply Hno. split; [by apply excluded_iff|done].
    + by destruct Hacc as [-> | ->].
  - by apply loss_px_keep.
Qed.

Lemma loss_fold self r c (anns : list annotation) (acc : Z) :
  acc = 0 ∨ acc = 1 →
  (foldl (loss_px self r c) acc anns = 0 ∨ foldl (loss_px self r c) acc anns = 1) ∧
  (foldl (loss_px self r c) acc anns = 0
   ↔ acc = 0 ∨ ∃ ann, ann ∈ anns ∧ excludes self r c ann).
Proof.
  revert acc. induction anns as [|ann anns IH]; intros acc Hacc; cbn.
  - split; [done|]. split; [by left|]. intros [?|(ann & Hin & _)]; [done|].
    by apply elem_of_nil in Hin.
  - assert (Hstep : (excludes self r c ann ∧ loss_px self r c acc ann = 0)
                    ∨ (¬ excludes self r c ann ∧ loss_px self r c acc ann = acc)).
    { destruct (bool_decide (iscrowd ann ≠ 0) || negb (Qle_bool (min_area (p self)) (area ann)))
        eqn:Hex; [destruct (segmentation ann r c) eqn:Hcov|].
      - left. assert (excludes self r c ann) by (split; [by apply excluded_iff|done]).
        split; [done|]. by apply loss_px_excludes.
      - right. assert (¬ excludes self r c ann) by (intros [_ ?]; congruence).
        split; [done|]. by apply loss_px_other.
      - right. assert (¬ excludes self r c ann).
        { intros [He _]. apply excluded_iff in He. congruence. }
        split; [done|]. by apply loss_px_other. }
    destruct Hstep as [[Hyes ->]|[Hno ->]].
    + destruct (IH 0) as [Hv Hiff]; [by left|]. split; [done|].
      rewrite Hiff. split; [|by left].
      intros _. right. exists ann. split; [apply elem_of_cons; by left|done].
    + destruct (IH acc Hacc) as [Hv Hiff]. split; [done|].
      rewrite Hiff. split.
      * intros [?|(a & Hin & Ha)]; [by left|].
        right. exists a. split; [apply elem_of_cons; by right|done].
      * intros [?|(a & Hin & Ha)]; [by left|].
        apply elem_of_cons in Hin as [->|Hin]; [done|].
        right. by exists a.
Qed.

Lemma seg_px_ge self r c acc ann : acc ≤ seg_px self r c acc ann.
Proof.
  unfold seg_px. destruct (_ || _); [lia|].
  destruct (class_map self !! category_id ann); lia.
Qed.

Lemma seg_fold_ge self r c (anns : list annotation) (acc : Z) :
  acc ≤ foldl (seg_px self r c) acc anns.
Proof.
  revert acc. induction anns as [|ann anns IH]; intros acc; cbn; [lia|].
  pose proof (seg_px_ge self r c acc ann). pose proof (IH (seg_px self r c acc ann)). lia.
Qed.

Lemma seg_px_cases self r c acc ann :
  map_Forall (λ _ cid, 0 ≤ cid < 256) (class_map self) → 0 ≤ acc →
  (∃ cid, labels self r c ann cid ∧ seg_px self r c acc ann = Z.max acc cid)
  ∨ ((∀ cid, ¬ labels self r c ann cid) ∧ seg_px self r c acc ann = acc).
Proof.
  intros Hb Hacc.
  destruct (bool_decide (iscrowd ann ≠ 0) || negb (Qle_bool (min_area (p self)) (area ann)))
    eqn:Hex.
  - right. split; [|by apply seg_px_skip].
    intros cid (Hc & Ha & _). apply excluded_iff in Hex. tauto.
  - assert (Hno : ¬ is_crowd ann ∧ ¬ below_min_area self ann).
    { split; intros ?; apply not_true_iff_false in Hex; apply Hex, excluded_iff; tauto. }
    destruct (class_map self !! category_id ann) as [cid|] eqn:Hcat.
    + rewrite (seg_px_label _ _ _ _ _ _ Hex Hcat).
      pose proof (Hb _ _ Hcat) as Hcid. cbn in Hcid.
      destruct (segmentation ann r c) eqn:Hcov.
      * left. exists cid. split; [by repeat split; try tauto|].
        unfold U8.wrap. rewrite Z.mul_1_l, Z.mod_small by lia. done.
      * right. split; [intros cid' (_ & _ & _ & ?); congruence|].
        unfold U8.wrap. rewrite Z.mul_0_l. change (0 mod 256) with 0. lia.
    + right. split; [|by apply seg_px_unmapped].
      intros cid (_ & _ & ? & _). congruence.
Qed.

Lemma seg_fold self r c (anns : list annotation) (acc : Z) :
  map_Forall (λ _ cid, 0 ≤ cid < 256) (class_map self) → 0 ≤ acc →
  (foldl (seg_px self r c) acc anns = acc
   ∨ ∃ ann, ann ∈ anns ∧ labels self r c ann (foldl (seg_px self r c) acc anns)) ∧
  (∀ ann cid, ann ∈ anns → labels self r c ann cid →
     cid ≤ foldl (seg_px self r c) acc anns).
Proof.
  intros Hb. revert acc. induction anns as [|ann anns IH]; intros acc Hacc; cbn.
  - split; [by left|]. intros ann cid Hin. by apply elem_of_nil in Hin.
  - destruct (seg_px_cases self r c acc ann Hb Hacc) as [(cid & Hlab & ->)|[Hno ->]].
    + destruct (IH (Z.max acc cid)) as [Hv Hub]; [lia|].
      pose proof (seg_fold_ge self r c anns (Z.max acc cid)) as Hge.
      split.
      * destruct Hv as [Hv|(a & Hin & Ha)].
        -- rewrite Hv. destruct (Z.max_spec acc cid) as [[_ ->]|[_ ->]].
           ++ right. exists ann. split; [apply elem_of_cons; by left|done].
           ++ by left.
        -- right. exists a. split; [apply elem_of_cons; by right|done].
      * intros a cid' Hin Ha. apply elem_of_cons in Hin as [->|Hin]; [|by eapply Hub].
        destruct Hlab as (_ & _ & Hc1 & _), Ha as (_ & _ & Hc2 & _).
        assert (cid' = cid) by congruence. lia.
    + destruct (IH acc Hacc) as [Hv Hub]. split.
      * destruct Hv as [Hv|(a & Hin & Ha)]; [by left|].
        right. exists a. split; [apply elem_of_cons; by right|done].
      * intros a cid' Hin Ha. apply elem_of_cons in Hin as [->|Hin]; [|by eapply Hub].
        by destruct (Hno cid').
Qed.

(** [get_raw_data] in closed form, pixel by pixel. *)
Lemma get_raw_data_pixels (files : fs) (self : t) (key img_id : Z)
    (desc : img_desc) (img : Image) (anns : list annotation) :
  getitem (img_ids self) key = Ok img_id →
  dict_get (imgs (coco self)) img_id = Ok desc →
  images files !! path_join (img_dir self) (file_name desc) = Some img →
  size img = (width desc, height desc) →
  default [] (imgToAnns (coco self) !! img_id) = anns →
  Forall (λ ann, image_id ann = img_id) anns →
  ∃ sd ld,
    get_raw_data files self key
    = Ok {| image := convert_RGB img;
            seg_mask := Tensor [height desc; width desc] sd;
            loss_mask := Tensor [height desc; width desc] ld |} ∧
    length sd = (height desc * width desc)%nat ∧
    length ld = (height desc * width desc)%nat ∧
    ∀ r c : nat, (r < height desc)%nat → (c < width desc)%nat →
      sd !! (r * width desc + c)%nat = Some (foldl (seg_px self r c) 0 anns) ∧
      ld !! (r * width desc + c)%nat = Some (foldl (loss_px self r c) 1 anns).
Proof.
  intros Hkey Hdesc Hfile Hsize Hanns Hall.
  assert (Hn : numel [height desc; width desc] = (height desc * width desc)%nat)
    by (cbn; lia).
  destruct (annotate_all_pixels self img_id desc anns Hdesc Hall
              (replicate (numel [height desc; width desc]) 0)
              (replicate (numel [height desc; width desc]) 1))
    as (sd & ld & Hrun & Hsd & Hld & Hpx); [by rewrite length_replicate..|].
  exists sd, ld. split.
  - unfold get_raw_data. rewrite Hkey. cbn. unfold _get_img. rewrite Hdesc. cbn.
    unfold open_file. rewrite Hfile. cbn. rewrite Hsize, Hanns. cbn.
    unfold U8.ones_like, U8.zeros, full. cbn [shape].
    rewrite Hrun. done.
  - split; [done|]. split; [done|]. intros r c Hr Hc.
    destruct (Hpx r c Hr Hc) as [Hs Hl].
    rewrite Hs, Hl, !lookup_replicate_2 by (rewrite Hn; nia). done.
Qed.

Lemma pixels_eq (h w : nat) (l l' : list Z) (f g : nat → nat → Z) :
  length l = (h * w)%nat → length l' = (h * w)%nat →
  (∀ r c, (r < h)%nat → (c < w)%nat → l !! (r * w + c)%nat = Some (f r c)) →
  (∀ r c, (r < h)%nat → (c < w)%nat → l' !! (r * w + c)%nat = Some (g r c)) →
  (∀ r c, f r c = g r c) →
  l = l'.
Proof.
  intros Hl Hl' Hf Hg Hfg. apply list_eq. intros j.
  destruct (decide (j < h * w)%nat) as [Hj|Hj].
  - destruct (pixel_index h w j Hj) as (r & c & Hr & Hc & ->).
    by rewrite Hf, Hg, Hfg.
  - rewrite !lookup_ge_None_2 by lia. done.
Qed.
End polygon_pixels.

Section polygon_main.
Import COCODataset Polygon.

Lemma generate_class_map_range (store : COCO) (prm : params) (cat cid : Z) :
  _generate_class_map store prm !! cat = Some cid →
  1 ≤ cid ≤ Z.of_nat (length (cats store)).
Proof.
  unfold _generate_class_map.
  assert (Hgen : ∀ (l : list (Z * cat_desc)) (m : gmap Z Z) (idx : Z),
    1 ≤ idx → map_Forall (λ _ v, 1 ≤ v < idx) m →
    let r := foldl (λ '(mapping, idx) '(cat_id, cat),
                      if decide (name cat ∈ classes prm)
                      then (<[cat_id := idx]> mapping, idx + 1)
                      else (mapping, idx)) (m, idx) l in
    r.2 ≤ idx + Z.of_nat (length l) ∧ map_Forall (λ _ v, 1 ≤ v < r.2) r.1).
  { induction l as [|[cat_id c] l IH]; intros m idx Hidx Hm; cbn.
    - split; [lia|done].
    - case_decide.
      + destruct (IH (<[cat_id := idx]> m) (idx + 1)) as [H1 H2]; [lia| |].
        * apply map_Forall_insert_2; [lia|].
          eapply map_Forall_impl; [exact Hm|]. cbn. intros; lia.
        * split; [lia|done].
      + destruct (IH m idx Hidx Hm) as [H1 H2]. split; [lia|done]. }
  intros Hcat.
  destruct (Hgen (cats store) ∅ 1) as [H1 H2]; [lia|apply map_Forall_empty|].
  pose proof (H2 _ _ Hcat) as Hv. cbn in Hv. lia.
Qed.

(** A store of at most 255 categories only produces class ids that fit
    the 8-bit pixel type of [seg_mask]. *)
Lemma init_class_ids_fit (files : fs) (prm : params) (train : bool) (self : t) :
  __init__ files prm train = Ok self →
  (length (cats (coco self)) ≤ 255)%nat →
  map_Forall (λ _ cid, 0 ≤ cid < 256) (class_map self).
Proof.
  unfold __init__. destruct (open_file _ _) as [store|]; [|discriminate].
  cbn. intros [= <-]. cbn. intros Hlen cat cid Hcat.
  apply generate_class_map_range in Hcat. cbn. lia.
Qed.

Lemma with_annotations_lookup (self : t) (img_id : Z) (anns : list annotation) :
  default [] (imgToAnns (coco (with_annotations self img_id anns)) !! img_id) = anns.
Proof. cbn. by rewrite lookup_insert_eq. Qed.

(** C2 (as amended): on a consistent store (the image file has the
    recorded width and height, and the annotations listed for the image
    carry its id), when every mapped class id fits the 8-bit pixel type,
    each pixel of the returned [seg_mask] is the largest mapped class id
    among the non-crowd, large-enough, mapped annotations covering it, and
    0 when there is none; the mask does not depend on the order of the
    annotations; and processing more annotations never lowers a pixel. *)
Theorem seg_mask_is_max_class (files : fs) (self : t) (key img_id : Z)
    (desc : img_desc) (img : Image) (anns : list annotation) :
  getitem (img_ids self) key = Ok img_id →
  dict_get (imgs (coco self)) img_id = Ok desc →
  images files !! path_join (img_dir self) (file_name desc) = Some img →
  size img = (width desc, height desc) →
  default [] (imgToAnns (coco self) !! img_id) = anns →
  Forall (λ ann, image_id ann = img_id) anns →
  map_Forall (λ _ cid, 0 ≤ cid < 256) (class_map self) →
  ∃ s,
    get_raw_data files self key = Ok s ∧
    shape (seg_mask s) = [height desc; width desc] ∧
    (∀ r c : nat, (r < height desc)%nat → (c < width desc)%nat →
       ∃ v, data (seg_mask s) !! (r * width desc + c)%nat = Some v ∧
            (v = 0 ∨ ∃ ann, ann ∈ anns ∧ labels self r c ann v) ∧
            (∀ ann cid, ann ∈ anns → labels self r c ann cid → cid ≤ v)) ∧
    (∀ anns', anns' ≡ₚ anns →
       ∃ s', get_raw_data files (with_annotations self img_id anns') key = Ok s' ∧
             seg_mask s' = seg_mask s) ∧
    (∀ done_ todo, anns = done_ ++ todo →
       ∃ s1, get_raw_data files (with_annotations self img_id done_) key = Ok s1 ∧
             ∀ (j : nat) (v1 v : Z),
               data (seg_mask s1) !! j = Some v1 →
               data (seg_mask s) !! j = Some v → v1 ≤ v).
Proof.
  intros Hkey Hdesc Hfile Hsize Hanns Hall Hb.
  destruct (get_raw_data_pixels files self key img_id desc img anns)
    as (sd & ld & Hrun & Hsd & Hld & Hpx); [done..|].
  eexists. split; [exact Hrun|]. cbn. split; [done|]. split; [|split].
  - intros r c Hr Hc. destruct (Hpx r c Hr Hc) as [Hs _].
    eexists. split; [exact Hs|].
    destruct (seg_fold self r c anns 0 Hb) as [Hv Hub]; [lia|].
    split; [exact Hv|exact Hub].
  - intros anns' Hperm.
    destruct (get_raw_data_pixels files (with_annotations self img_id anns') key
                img_id desc img anns')
      as (sd' & ld' & Hrun' & Hsd' & Hld' & Hpx');
      [exact Hkey|exact Hdesc|exact Hfile|exact Hsize| | |].
    { apply with_annotations_lookup. }
    { by rewrite Hperm. }
    eexists. split; [exact Hrun'|]. cbn. f_equal.
    eapply (pixels_eq (height desc) (width desc)); [done..| | |].
    + intros r c Hr Hc. by destruct (Hpx' r c Hr Hc) as [-> _].
    + intros r c Hr Hc. by destruct (Hpx r c Hr Hc) as [-> _].
    + intros r c. cbn. apply foldl_comm_perm; [|done].
      intros. apply seg_px_comm.
  - intros l1 l2 ->. apply Forall_app in Hall as [Hall1 Hall2].
    destruct (get_raw_data_pixels files (with_annotations self img_id l1) key
                img_id desc img l1)
      as (sd1 & ld1 & Hrun1 & Hsd1 & Hld1 & Hpx1);
      [exact Hkey|exact Hdesc|exact Hfile|exact Hsize| |exact Hall1|].
    { apply with_annotations_lookup. }
    eexists. split; [exact Hrun1|]. cbn. intros j v1 v Hv1 Hv.
    assert (Hj : (j < height desc * width desc)%nat).
    { apply lookup_lt_Some in Hv. lia. }
    destruct (pixel_index _ _ j Hj) as (r & c & Hr & Hc & ->).
    destruct (Hpx r c Hr Hc) as [Hs _]. destruct (Hpx1 r c Hr Hc) as [Hs1 _].
    rewrite Hs in Hv. rewrite Hs1 in Hv1. simplify_eq.
    rewrite foldl_app. apply seg_fold_ge.
Qed.

(** C6 (as amended): on a consistent store (the image file has the
    recorded width and height, and the annotations listed for the image
    carry its id), each pixel of the returned [loss_mask] is 0 or 1, and 0 exactly
    when a crowd or too-small annotation covers it; the mask does not
    depend on the order of the annotations. *)
Theorem loss_mask_marks_exclusions (files : fs) (self : t) (key img_id : Z)
    (desc : img_desc) (img : Image) (anns : list annotation) :
  getitem (img_ids self) key = Ok img_id →
  dict_get (imgs (coco self)) img_id = Ok desc →
  images files !! path_join (img_dir self) (file_name desc) = Some img →
  size img = (width desc, height desc) →
  default [] (imgToAnns (coco self) !! img_id) = anns →
  Forall (λ ann, image_id ann = img_id) anns →
  ∃ s,
    get_raw_data files self key = Ok s ∧
    shape (loss_mask s) = [height desc; width desc] ∧
    (∀ r c : nat, (r < height desc)%nat → (c < width desc)%nat →
       ∃ v, data (loss_mask s) !! (r * width desc + c)%nat = Some v ∧
            (v = 0 ∨ v = 1) ∧
            (v = 0 ↔ ∃ ann, ann ∈ anns ∧ excludes self r c ann)) ∧
    (∀ anns', anns' ≡ₚ anns →
       ∃ s', get_raw_data files (with_annotations self img_id anns') key = Ok s' ∧
             loss_mask s' = loss_mask s).
Proof.
  intros Hkey Hdesc Hfile Hsize Hanns Hall.
  destruct (get_raw_data_pixels files self key img_id desc img anns)
    as (sd & ld & Hrun & Hsd & Hld & Hpx); [done..|].
  eexists. split; [exact Hrun|]. cbn. split; [done|]. split.
  - intros r c Hr Hc. destruct (Hpx r c Hr Hc) as [_ Hl].
    eexists. split; [exact Hl|].
    destruct (loss_fold self r c anns 1) as [Hv Hiff]; [by right|].
    split; [exact Hv|]. rewrite Hiff. split; [|by right].
    intros [?|?]; [done|done].
  - intros anns' Hperm.
    destruct (get_raw_data_pixels files (with_annotations self img_id anns') key
                img_id desc img anns')
      as (sd' & ld' & Hrun' & Hsd' & Hld' & Hpx');
      [exact Hkey|exact Hdesc|exact Hfile|exact Hsize| | |].
    { apply with_annotations_lookup. }
    { by rewrite Hperm. }
    eexists. split; [exact Hrun'|]. cbn. f_equal.
    eapply (pixels_eq (height desc) (width desc)); [done..| | |].
    + intros r c Hr Hc. by destruct (Hpx' r c Hr Hc) as [_ ->].
    + intros r c Hr Hc. by destruct (Hpx r c Hr Hc) as [_ ->].
    + intros r c. cbn. apply foldl_comm_perm; [|done].
      intros. apply loss_px_comm.
Qed.
End polygon_main.

Section polygon_examples.
Import COCODataset Polygon Fixtures.Polygon.

Lemma set0_built : __init__ files0 params0 true = Ok set0.
Proof. vm_compute. reflexivity. Qed.

Lemma set0_ids_fit : map_Forall (λ _ cid, 0 ≤ cid < 256) (class_map set0).
Proof.
  intros cat cid Hcat. apply generate_class_map_range in Hcat. cbn in *. lia.
Qed.

Lemma seg_mask_is_max_class_witness :
  ∃ s, get_raw_data files0 set0 0 = Ok s ∧ data (seg_mask s) = [2; 5].
Proof.
  destruct (seg_mask_is_max_class files0 set0 0 7
              {| file_name := "x.jpg"; height := 1; width := 2 |} photo
              [cup; bed; crowd])
    as (s & Hrun & _);
    [reflexivity|reflexivity|reflexivity|reflexivity|reflexivity
    |repeat constructor|exact set0_ids_fit|].
  exists s. split; [exact Hrun|].
  vm_compute in Hrun. injection Hrun as <-. reflexivity.
Defined.

(** Class ids 2 (cup) and 5 (bed) overlap on the right pixel, which
    resolves to 5 whichever annotation comes first. *)
Example overlap_resolves_to_5 :
  (seg_mask <$> get_raw_data files0 (with_annotations set0 7 [cup; bed]) 0,
   seg_mask <$> get_raw_data files0 (with_annotations set0 7 [bed; cup]) 0)
  = (Ok (Tensor [1; 2]%nat [2; 5]), Ok (Tensor [1; 2]%nat [2; 5])).
Proof. vm_compute. reflexivity. Qed.

Lemma loss_mask_marks_exclusions_witness :
  ∃ s, get_raw_data files0 set0 0 = Ok s ∧ data (loss_mask s) = [0; 1].
Proof.
  destruct (loss_mask_marks_exclusions files0 set0 0 7
              {| file_name := "x.jpg"; height := 1; width := 2 |} photo
              [cup; bed; crowd])
    as (s & Hrun & _);
    [reflexivity|reflexivity|reflexivity|reflexivity|reflexivity
    |repeat constructor|].
  exists s. split; [exact Hrun|].
  vm_compute in Hrun. injection Hrun as <-. reflexivity.
Defined.
End polygon_examples.

Section polygon_mismatch.
Import COCODataset Polygon Fixtures.Polygon.

(** C2 as stated fails in two ways. Once a class id reaches 256 it wraps:
    the annotation of category 256 is non-crowd, large enough, mapped to
    class id 256 and covers pixel (0, 0), yet that pixel of [seg_mask] is
    0. And when the image file is wider than the size recorded in the
    store, the one-column raster is broadcast over the file's columns:
    pixel (0, 1) is labelled 2 although no annotation covers it. *)
Lemma seg_mask_wraps_or_spreads :
  (__init__ wide_files wide_params true = Ok wide_set ∧
   last_cat ∈ default [] (imgToAnns (coco wide_set) !! 7) ∧
   labels wide_set 0 0 last_cat 256 ∧
   seg_mask <$> get_raw_data wide_files wide_set 0 = Ok (Tensor [1; 1]%nat [0])) ∧
  (__init__ Mismatch.files params0 true = Ok Mismatch.set ∧
   seg_mask <$> get_raw_data Mismatch.files Mismatch.set 0 = Ok (Tensor [1; 2]%nat [2; 2]) ∧
   ∀ ann cid, ann ∈ default [] (imgToAnns (coco Mismatch.set) !! 7) →
              ¬ labels Mismatch.set 0 1 ann cid).
Proof.
  split.
  - split; [vm_compute; reflexivity|].
    split; [cbn; rewrite lookup_singleton_eq; apply list_elem_of_here|].
    split; [|vm_compute; reflexivity].
    unfold labels, is_crowd, below_min_area. cbn.
    split; [intros H; by apply H|].
    split; [intros H; vm_compute in H; discriminate|].
    split; [vm_compute; reflexivity|reflexivity].
  - split; [vm_compute; reflexivity|].
    split; [vm_compute; reflexivity|].
    intros ann cid Hin (_ & _ & _ & Hcov). cbn in Hin. rewrite lookup_singleton_eq in Hin.
    cbn in Hin. apply elem_of_cons in Hin as [->|Hin]; [discriminate|].
    apply elem_of_cons in Hin as [->|Hin]; [discriminate|].
    by apply elem_of_nil in Hin.
Qed.

(** C6 as stated fails when the image file is wider than the size recorded
    in the store: the one-column raster of the crowd region is broadcast
    over the file's columns, so pixel (0, 1) of [loss_mask] is 0 although
    no crowd or too-small annotation covers it. *)
Lemma loss_mask_spreads_on_size_mismatch :
  __init__ Mismatch.files params0 true = Ok Mismatch.set ∧
  loss_mask <$> get_raw_data Mismatch.files Mismatch.set 0 = Ok (Tensor [1; 2]%nat [0; 0]) ∧
  ∀ ann, ann ∈ default [] (imgToAnns (coco Mismatch.set) !! 7) →
         ¬ excludes Mismatch.set 0 1 ann.
Proof.
  split; [vm_compute; reflexivity|].
  split; [vm_compute; reflexivity|].
  intros ann Hin [_ Hcov]. cbn in Hin. rewrite lookup_singleton_eq in Hin.
  cbn in Hin. apply elem_of_cons in Hin as [->|Hin]; [discriminate|].
  apply elem_of_cons in Hin as [->|Hin]; [discriminate|].
  by apply elem_of_nil in Hin.
Qed.
End polygon_mismatch.

(** ** Keys outside the index *)

Section keys.

Lemma getitem_out_of_range {A} (l : list A) (key : Z) :
  key < - Z.of_nat (length l) ∨ Z.of_nat (length l) ≤ key →
  getitem l key = Raise IndexError.
Proof.
  intros Hkey. unfold getitem. cbn.
  case_bool_decide; case_bool_decide; try done; lia.
Qed.

Lemma getitem_negative {A} (l : list A) (key : Z) :
  - Z.of_nat (length l) ≤ key < 0 →
  getitem l key = getitem l (key + Z.of_nat (length l)).
Proof.
  intros Hkey. unfold getitem. cbn.
  repeat case_bool_decide; try lia; done.
Qed.

Lemma scan_lines_lengths train img_dir seg_dir (lines : list string) :
  ∀ imgs segs scenes imgs' segs' scenes',
    length segs = length imgs →
    ADE20KDataset.scan_lines train img_dir seg_dir lines (imgs, segs, scenes)
    = Ok (imgs', segs', scenes') →
    length segs' = length imgs'.
Proof.
  induction lines as [|line lines IH]; intros imgs segs scenes imgs' segs' scenes' Hlen; cbn.
  - by intros [= <- <- <-].
  - destruct (split " " (slice_to_neg 1 line)) as [|a [|b [|c rest]]]; try discriminate.
    destruct (train && contains "val" a); [by apply IH|].
    destruct (negb train && contains "train" a); [by apply IH|].
    apply IH. rewrite !length_app. cbn. lia.
Qed.

Lemma flat_init_lengths files prm train (self : ADE20KDataset.t) :
  ADE20KDataset.__init__ files prm train = Ok self →
  ADE20KDataset.__len__ self = Z.of_nat (length (ADE20KDataset.img_path_list self)) ∧
  length (ADE20KDataset.seg_path_list self) = length (ADE20KDataset.img_path_list self).
Proof.
  unfold ADE20KDataset.__init__.
  destruct (open_file _ _) as [anno|]; [|discriminate]. cbn.
  destruct (ADE20KDataset.scan_lines _ _ _ _ _) as [[[imgs segs] scenes]|] eqn:Hscan;
    [|discriminate]. cbn.
  destruct (ADE20KDataset._generate_class_map _ _ _); [|discriminate]. cbn.
  intros [= <-]. cbn. split; [done|].
  by eapply scan_lines_lengths in Hscan.
Qed.

Lemma packed_init_lengths files prm train (self : FineGrainedADE20KDataset.t) :
  FineGrainedADE20KDataset.__init__ files prm train = Ok self →
  FineGrainedADE20KDataset.__len__ self
  = Z.of_nat (length (FineGrainedADE20KDataset.img_path_list self)) ∧
  length (FineGrainedADE20KDataset.seg_path_list self)
  = length (FineGrainedADE20KDataset.img_path_list self).
Proof.
  unfold FineGrainedADE20KDataset.__init__.
  destruct (open_file _ _) as [index|]; [|discriminate]. cbn.
  match goal with |- context [foldl ?f ([], []) index] =>
    assert (Hgen : ∀ (l : list (string * string)) (acc : list string * list string),
              length acc.2 = length acc.1 →
              length (foldl f acc l).2 = length (foldl f acc l).1);
    [|specialize (Hgen index ([], []) eq_refl);
      destruct (foldl f ([], []) index) as [imgs segs]]
  end.
  { induction l as [|[file folder] l IH]; intros [imgs segs] Hacc; cbn; [done|].
    apply IH. destruct (contains _ _); cbn; [|done].
    cbn in Hacc. rewrite !length_app. cbn. lia. }
  intros [= <-]. cbn. split; [done|exact Hgen].
Qed.

(** C3 (as amended): in each of the three adapters, a key below
    [-length()] or at or above [length()] makes [get_raw_data] raise
    [IndexError]; a key in [[-length(), 0)] is served exactly like
    [key + length()]. *)
Theorem get_raw_data_index_error (key : Z) :
  (∀ files prm train self,
     COCODataset.__init__ files prm train = Ok self →
     (key < - COCODataset.__len__ self ∨ COCODataset.__len__ self ≤ key →
      COCODataset.get_raw_data files self key = Raise IndexError) ∧
     (- COCODataset.__len__ self ≤ key < 0 →
      COCODataset.get_raw_data files self key
      = COCODataset.get_raw_data files self (key + COCODataset.__len__ self))) ∧
  (∀ files prm train self,
     ADE20KDataset.__init__ files prm train = Ok self →
     (key < - ADE20KDataset.__len__ self ∨ ADE20KDataset.__len__ self ≤ key →
      ADE20KDataset.get_raw_data files self key = Raise IndexError) ∧
     (- ADE20KDataset.__len__ self ≤ key < 0 →
      ADE20KDataset.get_raw_data files self key
      = ADE20KDataset.get_raw_data files self (key + ADE20KDataset.__len__ self))) ∧
  (∀ files prm train self,
     FineGrainedADE20KDataset.__init__ files prm train = Ok self →
     (key < - FineGrainedADE20KDataset.__len__ self
      ∨ FineGrainedADE20KDataset.__len__ self ≤ key →
      FineGrainedADE20KDataset.get_raw_data files self key = Raise IndexError) ∧
     (- FineGrainedADE20KDataset.__len__ self ≤ key < 0 →
      FineGrainedADE20KDataset.get_raw_data files self key
      = FineGrainedADE20KDataset.get_raw_data files self
          (key + FineGrainedADE20KDataset.__len__ self))).
Proof.
  split; [|split].
  - intros files prm train self Hinit.
    assert (Hlen : COCODataset.__len__ self
                   = Z.of_nat (length (COCODataset.img_ids self))).
    { revert Hinit. unfold COCODataset.__init__.
      destruct (open_file _ _); [|discriminate]. cbn. intros [= <-].
      unfold COCODataset.__len__. cbn. by rewrite length_fmap. }
    rewrite Hlen. unfold COCODataset.get_raw_data. split; intros Hkey.
    + by rewrite getitem_out_of_range.
    + by rewrite getitem_negative.
  - intros files prm train self Hinit.
    destruct (flat_init_lengths _ _ _ _ Hinit) as [-> Hseg].
    unfold ADE20KDataset.get_raw_data. split; intros Hkey.
    + by rewrite (getitem_out_of_range (ADE20KDataset.img_path_list self)).
    + rewrite (getitem_negative (ADE20KDataset.img_path_list self)) by done.
      rewrite (getitem_negative (ADE20KDataset.seg_path_list self)) by lia.
      by rewrite Hseg.
  - intros files prm train self Hinit.
    destruct (packed_init_lengths _ _ _ _ Hinit) as [-> Hseg].
    unfold FineGrainedADE20KDataset.get_raw_data. split; intros Hkey.
    + by rewrite (getitem_out_of_range (FineGrainedADE20KDataset.img_path_list self)).
    + rewrite (getitem_negative (FineGrainedADE20KDataset.img_path_list self)) by done.
      rewrite (getitem_negative (FineGrainedADE20KDataset.seg_path_list self)) by lia.
      by rewrite Hseg.
Qed.

Lemma get_raw_data_index_error_witness :
  COCODataset.get_raw_data Fixtures.Polygon.files0 Fixtures.Polygon.set0 1
  = Raise IndexError ∧
  ADE20KDataset.get_raw_data Fixtures.FlatFile.files0 Fixtures.FlatFile.set0 (-2)
  = Raise IndexError ∧
  FineGrainedADE20KDataset.get_raw_data Fixtures.PackedColor.files0
    Fixtures.PackedColor.set0 1
  = Raise IndexError.
Proof.
  split; [|split].
  - destruct (proj1 (get_raw_data_index_error 1) _ _ _ _ set0_built) as [H _].
    apply H. right. vm_compute. discriminate.
  - destruct (proj1 (proj2 (get_raw_data_index_error (-2))) _ _ _ _ flat_set_built)
      as [H _].
    apply H. left. reflexivity.
  - destruct (proj2 (proj2 (get_raw_data_index_error 1)) _ _ _ _ packed_set_built)
      as [H _].
    apply H. right. vm_compute. discriminate.
Defined.

(** C3 as stated fails for negative keys: on a dataset of one image the
    key -1 lies outside [[0, length())] and still returns the sample of
    key 0, in every adapter. *)
Lemma negative_key_returns_sample :
  COCODataset.__init__ Fixtures.Polygon.files0 Fixtures.Polygon.params0 true
  = Ok Fixtures.Polygon.set0 ∧
  COCODataset.__len__ Fixtures.Polygon.set0 = 1 ∧
  ¬ (0 ≤ -1 < COCODataset.__len__ Fixtures.Polygon.set0) ∧
  (∃ s, COCODataset.get_raw_data Fixtures.Polygon.files0 Fixtures.Polygon.set0 (-1)
        = Ok s ∧
        COCODataset.get_raw_data Fixtures.Polygon.files0 Fixtures.Polygon.set0 0
        = Ok s) ∧
  (∃ s, ADE20KDataset.get_raw_data Fixtures.FlatFile.files0 Fixtures.FlatFile.set0 (-1)
        = Ok s) ∧
  (∃ s, FineGrainedADE20KDataset.get_raw_data Fixtures.PackedColor.files0
          Fixtures.PackedColor.set0 (-1) = Ok s).
Proof.
  split; [exact set0_built|]. split; [reflexivity|]. split; [lia|].
  split; [|split]; eexists; try split; vm_compute; reflexivity.
Qed.
End keys.

(** ** Focal loss *)

Section focal_generic.
Import FocalLoss Focal.
Context {T : Type} `{Scalar T}.
Variable interpolate : tensor T → nat → nat → result (tensor T).

Lemma focal_zip (self : params T) (od td : list T) :
  zip_with smul
    (zip_with smul
       (sneg <$> zip_with sadd (smul (alpha self) <$> td)
                   (smul (ssub s1 (alpha self)) <$> (ssub s1 <$> td)))
       ((λ x, spow x (gamma self)) <$>
          (ssub s1 <$>
             ((λ x, smin (smax x (eps self)) (ssub s1 (eps self))) <$>
                zip_with sadd (zip_with smul od td)
                  (zip_with smul (ssub s1 <$> od) (ssub s1 <$> td))))))
    (slog <$>
       ((λ x, smin (smax x (eps self)) (ssub s1 (eps self))) <$>
          zip_with sadd (zip_with smul od td)
            (zip_with smul (ssub s1 <$> od) (ssub s1 <$> td))))
  = zip_with (focal_term self) od td.
Proof.
  revert td. induction od as [|o od IH]; intros [|t td]; cbn; try done.
  by rewrite IH.
Qed.

Lemma elementwise_same_shape (self : params T) (output target : tensor T) :
  shape target = shape output →
  elementwise self output target
  = Ok (Tensor (shape output) (zip_with (focal_term self) (data output) (data target))).
Proof.
  destruct output as [sh od], target as [sh' td]. cbn. intros ->.
  unfold elementwise, tzip, rsub1, clamp, tmap. cbn.
  repeat (rewrite decide_True by done; cbn).
  by rewrite focal_zip.
Qed.

Lemma forward_same_shape (self : params T) (output target inv_mask : tensor T) :
  shape target = shape output →
  shape inv_mask = shape output →
  forward interpolate self output target inv_mask
  = Ok (foldl sadd s0
          (zip_with smul
             (zip_with (focal_term self) (data output) (data target))
             ((λ v, sdiv v (foldl sadd s0 (ssub s1 <$> data inv_mask)))
              <$> (ssub s1 <$> data inv_mask)))).
Proof.
  intros Ht Hm. unfold forward, resize.
  rewrite decide_False by (intros Hne; by apply Hne). cbn.
  rewrite elementwise_same_shape by done. cbn.
  unfold tzip_, rsub1, tmap, sum. cbn.
  rewrite decide_True by done. cbn. done.
Qed.
End focal_generic.

Section focal_binary32.
Import FocalLoss Focal.
Variables (pow : spec_float → spec_float → spec_float) (log : spec_float → spec_float).
Variable interpolate : tensor spec_float → nat → nat → result (tensor spec_float).

Lemma SFmul_nan_r (x : spec_float) : SFmul prec emax x S754_nan = S754_nan.
Proof. by destruct x. Qed.

Lemma SFadd_nan_r (x : spec_float) : SFadd prec emax x S754_nan = S754_nan.
Proof. by destruct x. Qed.

Lemma sum_of_nans (n : nat) (a : spec_float) :
  foldl (SFadd prec emax) a (replicate (S n) S754_nan) = S754_nan.
Proof.
  revert a. induction n as [|n IH]; intros a.
  - cbn. apply SFadd_nan_r.
  - change (replicate (S (S n)) S754_nan) with (S754_nan :: replicate (S n) S754_nan).
    cbn [foldl]. apply IH.
Qed.

Lemma sum_of_zeros (n : nat) :
  foldl (SFadd prec emax) (S754_zero false) (replicate n (S754_zero false))
  = S754_zero false.
Proof.
  induction n as [|n IH]; [done|]. cbn [replicate foldl].
  change (SFadd prec emax (S754_zero false) (S754_zero false)) with (S754_zero false).
  exact IH.
Qed.

Lemma all_invalid_val_mask (masks : list spec_float) :
  Forall (λ m, m = SFone prec emax) masks →
  SFsub prec emax (SFone prec emax) <$> masks = replicate (length masks) (S754_zero false).
Proof.
  induction 1 as [|m masks -> _ IH]; [done|].
  rewrite fmap_cons, IH. cbn [length replicate]. f_equal.
Qed.

End focal_binary32.

(** * Further properties of the code *)

(** ** Label encoder: reading back, failure, and the sampling pipeline *)

Section encoder_more.
Import SegEncoder Decode.

Lemma weighted_indicator_sum (v : Z) (a n : nat) :
  foldr Z.add 0
    ((λ c : nat, Z.of_nat (S c) * float_of_bool (bool_decide (Z.of_nat (S c) = v)))
     <$> seq a n)
  = if bool_decide (Z.of_nat a < v ≤ Z.of_nat (a + n)) then v else 0.
Proof.
  revert a. induction n as [|n IH]; intros a; cbn.
  - rewrite bool_decide_eq_false_2 by lia. done.
  - rewrite IH. unfold float_of_bool.
    repeat case_bool_decide; lia.
Qed.

Lemma zip_with_seq_fmap {B C} (f : nat → B → C) (g : nat → B) (a n : nat) :
  zip_with f (seq (S a) n) (g <$> seq a n) = (λ c, f (S c) (g c)) <$> seq a n.
Proof.
  revert a. induction n as [|n IH]; intros a; cbn; [done|]. by rewrite IH.
Qed.

(** X1: with at most 255 classes, the class id of a pixel can be read back
    from the one-hot tensor: the channel numbers weighted by the channel
    values add up to the grid value when it is a class id (at most
    [num_classes]) and to 0 otherwise. *)
Theorem onehot_reads_back (num_classes w h : nat) (px : list byte) :
  (num_classes ≤ 255)%nat →
  length px = (h * w)%nat →
  ∃ onehot,
    catgory_to_onehot num_classes {| size := (w, h); pix := L px |} = Ok onehot ∧
    ∀ (i : nat) (v : byte), px !! i = Some v →
      class_at onehot i
      = if bool_decide (U8.of_byte v ≤ Z.of_nat num_classes) then U8.of_byte v else 0.
Proof.
  intros Hn Hlen. eexists. split; [apply catgory_to_onehot_L, Hlen|].
  intros i v Hv. unfold class_at. cbn [chan].
  rewrite length_fmap, length_seq, zip_with_seq_fmap.
  rewrite (list_fmap_ext _
    (λ c : nat, Z.of_nat (S c) * float_of_bool (bool_decide (Z.of_nat (S c) = U8.of_byte v)))
    (seq 0 num_classes)).
  - rewrite weighted_indicator_sum. pose proof (of_byte_range v).
    repeat case_bool_decide; lia.
  - intros k c Hk. apply lookup_seq in Hk as [-> Hk]. cbn.
    rewrite !list_lookup_fmap, Hv. cbn. rewrite (wrap_small (S k)) by lia. done.
Qed.

Lemma onehot_reads_back_witness :
  ∃ onehot,
    catgory_to_onehot 3 {| size := (3, 1)%nat; pix := L [Byte.x02; Byte.x00; Byte.xc8] |}
    = Ok onehot ∧
    class_at onehot 0 = 2 ∧ class_at onehot 1 = 0 ∧ class_at onehot 2 = 0.
Proof.
  destruct (onehot_reads_back 3 3 1 [Byte.x02; Byte.x00; Byte.xc8])
    as (onehot & Heq & _); [lia|reflexivity|].
  exists onehot. split; [exact Heq|].
  vm_compute in Heq. injection Heq as <-. repeat split; reflexivity.
Defined.

(** X2: a grid with several bands is refused unless the number of classes
    is 1 or equals the number of bands: the class ids [(N, 1, 1)] do not
    broadcast against [(bands, h, w)]. *)
Theorem onehot_refuses_other_band_counts (num_classes : nat) (img : Image) :
  length (bands (pix img)) ≠ 1%nat →
  num_classes ≠ 1%nat →
  num_classes ≠ length (bands (pix img)) →
  catgory_to_onehot num_classes img = Raise RuntimeError.
Proof.
  intros Hb Hn Hne. unfold catgory_to_onehot, pil_to_tensor.
  destruct (size img) as [w h].
  destruct (bool_decide (length (tobytes (pix img)) = _)); cbn; [|done].
  unfold broadcast_dim, U8.arange1. rewrite length_fmap, length_seq.
  rewrite !bool_decide_eq_false_2 by done. done.
Qed.

Lemma onehot_refuses_other_band_counts_witness :
  catgory_to_onehot 21
    {| size := (1, 1)%nat; pix := RGB [(Byte.x01, Byte.x02, Byte.x03)] |}
  = Raise RuntimeError.
Proof.
  apply onehot_refuses_other_band_counts; cbn; lia.
Defined.
End encoder_more.

Lemma result_bind_Ok {A B} (a : A) (f : A → result B) : Ok a ≫= f = f a.
Proof. reflexivity. Qed.

Section pipeline_more.
Import SegEncoder.
Context {Raw Img Aug : Type}.
Variable get_raw_data : Z → result (sample Raw).
Variable multi_crop : sample Raw → result (Img * Image * Image).

(** X3: when the crop stage returns single-band masks of one size, the
    sample has [num_classes] label channels and one validity channel of
    that height and width, the validity values are the mask's bytes
    unchanged, the image is the augmentor's output, and the two encoded
    masks are the same for every augmentor that returns. *)
Theorem getitem_masks_aligned (img_augmentor : Img → result Aug) (num_classes : nat)
    (key : Z) (raw : sample Raw) (im : Img) (aug : Aug)
    (w h : nat) (seg loss : list byte) :
  get_raw_data key = Ok raw →
  multi_crop raw
  = Ok (im, {| size := (w, h); pix := L seg |}, {| size := (w, h); pix := L loss |}) →
  img_augmentor im = Ok aug →
  length seg = (h * w)%nat →
  length loss = (h * w)%nat →
  ∃ e,
    BaseSet.__getitem__ get_raw_data multi_crop img_augmentor num_classes key = Ok e ∧
    image_b3hw e = aug ∧
    dims (seg_mask_bnhw e) = (num_classes, h, w) ∧
    dims (loss_mask_bnhw e) = (1%nat, h, w) ∧
    chan (loss_mask_bnhw e) = [U8.of_byte <$> loss] ∧
    ∀ (other : Img → result Aug) (e' : encoded Aug),
      BaseSet.__getitem__ get_raw_data multi_crop other num_classes key = Ok e' →
      seg_mask_bnhw e' = seg_mask_bnhw e ∧ loss_mask_bnhw e' = loss_mask_bnhw e.
Proof.
  intros Hraw Hcrop Haug Hseg Hloss.
  assert (Hl : pil_to_tensor {| size := (w, h); pix := L loss |}
               = Ok (CHW (1%nat, h, w) [U8.of_byte <$> loss])).
  { unfold pil_to_tensor. cbn.
    assert (Hx : length loss = (h * w * 1)%nat) by lia.
    by rewrite (bool_decide_eq_true_2 _ Hx). }
  assert (Hrun : ∀ (f : Img → result Aug) (a : Aug), f im = Ok a →
    BaseSet.__getitem__ get_raw_data multi_crop f num_classes key
    = Ok {| image_b3hw := a;
            seg_mask_bnhw := CHW (num_classes, h, w)
              ((λ c : nat, (λ v, float_of_bool (bool_decide (U8.wrap (Z.of_nat (S c)) = v)))
                           <$> (U8.of_byte <$> seg)) <$> seq 0 num_classes);
            loss_mask_bnhw := CHW (1%nat, h, w) [U8.of_byte <$> loss] |}).
  { intros f a Hf. unfold BaseSet.__getitem__.
    rewrite Hraw, result_bind_Ok, Hcrop, result_bind_Ok, Hf, result_bind_Ok.
    unfold call. rewrite (catgory_to_onehot_L _ _ _ _ Hseg), result_bind_Ok, Hl.
    done. }
  eexists. split; [by apply Hrun|]. cbn. repeat split; try done.
  - destruct (other im) as [a|] eqn:Ho.
    + rewrite (Hrun other a Ho) in H. by injection H as <-.
    + revert H. unfold BaseSet.__getitem__.
      rewrite Hraw, result_bind_Ok, Hcrop, result_bind_Ok, Ho. discriminate.
  - destruct (other im) as [a|] eqn:Ho.
    + rewrite (Hrun other a Ho) in H. by injection H as <-.
    + revert H. unfold BaseSet.__getitem__.
      rewrite Hraw, result_bind_Ok, Hcrop, result_bind_Ok, Ho. discriminate.
Qed.
End pipeline_more.

Section pipeline_examples.
Import SegEncoder.

Lemma getitem_masks_aligned_witness :
  ∃ e,
    BaseSet.__getitem__
      (COCODataset.get_raw_data Fixtures.Polygon.files0 Fixtures.Polygon.set0)
      (λ raw : sample Image,
         Ok (image raw,
             {| size := (2, 1)%nat; pix := L [Byte.x02; Byte.x05] |},
             {| size := (2, 1)%nat; pix := L [Byte.x00; Byte.x01] |}))
      (λ im : Image, Ok (np_array im)) 5 0 = Ok e ∧
    dims (seg_mask_bnhw e) = (5%nat, 1%nat, 2%nat) ∧
    dims (loss_mask_bnhw e) = (1%nat, 1%nat, 2%nat).
Proof.
  assert (Hraw : ∃ raw, COCODataset.get_raw_data Fixtures.Polygon.files0
                          Fixtures.Polygon.set0 0 = Ok raw)
    by (eexists; vm_compute; reflexivity).
  destruct Hraw as (raw & Hraw).
  destruct (getitem_masks_aligned
              (COCODataset.get_raw_data Fixtures.Polygon.files0 Fixtures.Polygon.set0)
              (λ raw : sample Image,
                 Ok (image raw,
                     {| size := (2, 1)%nat; pix := L [Byte.x02; Byte.x05] |},
                     {| size := (2, 1)%nat; pix := L [Byte.x00; Byte.x01] |}))
              (λ im : Image, Ok (np_array im)) 5 0 raw (image raw) (np_array (image raw))
              2 1 [Byte.x02; Byte.x05] [Byte.x00; Byte.x01])
    as (e & He & _ & Hs & Hl & _); [exact Hraw|reflexivity|reflexivity|reflexivity|reflexivity|].
  exists e. split; [exact He|]. split; [exact Hs|exact Hl].
Defined.
End pipeline_examples.

(** ** Polygon-annotation adapter: the class map *)

Section counting.
Context {A : Type} (P : A → Prop) `{!∀ x, Decision (P x)}.

Lemma filter_take_step (l : list A) (i : nat) (x : A) :
  l !! i = Some x → P x →
  length (filter P (take (S i) l)) = S (length (filter P (take i l))).
Proof.
  intros Hi Hx. rewrite (take_S_r _ _ _ Hi), filter_app, length_app, filter_cons.
  rewrite decide_True by done. cbn. lia.
Qed.

Lemma filter_take_mono (l : list A) (i j : nat) :
  (i ≤ j)%nat → (length (filter P (take i l)) ≤ length (filter P (take j l)))%nat.
Proof.
  revert i j. induction l as [|x l IH]; intros i j Hij; [by rewrite !take_nil|].
  destruct i as [|i], j as [|j]; try (cbn; lia).
  change (take (S i) (x :: l)) with (x :: take i l).
  change (take (S j) (x :: l)) with (x :: take j l).
  rewrite !filter_cons. specialize (IH i j ltac:(lia)).
  case_decide; cbn; lia.
Qed.

Lemma filter_take_le (l : list A) (i : nat) :
  (length (filter P (take i l)) ≤ length (filter P l))%nat.
Proof.
  rewrite <- (take_drop i l) at 2. rewrite filter_app, length_app. lia.
Qed.

Lemma filter_take_lt (l : list A) (i j : nat) (x : A) :
  (i < j)%nat → l !! i = Some x → P x →
  (length (filter P (take i l)) < length (filter P (take j l)))%nat.
Proof.
  intros Hij Hi Hx. pose proof (filter_take_step l i x Hi Hx).
  pose proof (filter_take_mono l (S i) j ltac:(lia)). lia.
Qed.
End counting.

Section class_map.
Import COCODataset.

Lemma generate_class_map_lookup (store : COCO) (prm : params) :
  NoDup (fst <$> cats store) →
  (∀ (i : nat) (cat_id : Z) (cat : cat_desc),
     cats store !! i = Some (cat_id, cat) →
     _generate_class_map store prm !! cat_id
     = if decide (name cat ∈ classes prm)
       then Some (Z.of_nat (length (filter (λ q, name q.2 ∈ classes prm)
                                           (take i (cats store)))) + 1)
       else None) ∧
  (∀ cat_id : Z, cat_id ∉ fst <$> cats store →
     _generate_class_map store prm !! cat_id = None).
Proof.
  unfold _generate_class_map.
  set (step := λ '(mapping, idx) '(cat_id, cat),
         if decide (name cat ∈ classes prm)
         then (<[cat_id := idx]> mapping, idx + 1)
         else (mapping, idx) : gmap Z Z * Z).
  induction (cats store) as [|[k c] l IH] using rev_ind; intros Hnd.
  - cbn. split; [intros i ? ? Hi; by rewrite lookup_nil in Hi|].
    intros ? _. apply lookup_empty.
  - rewrite fmap_app in Hnd. apply NoDup_app in Hnd as (Hnd & Hk & _).
    destruct (IH Hnd) as [IHpos IHout]. clear IH.
    assert (Hidx : (foldl step (∅, 1) l).2
                   = Z.of_nat (length (filter (λ q, name q.2 ∈ classes prm) l)) + 1).
    { clear. induction l as [|[k c] l IH] using rev_ind; [done|].
      rewrite foldl_app, filter_app, length_app, filter_cons, filter_nil.
      cbn [foldl]. destruct (foldl step (∅, 1) l) as [m idx]. cbn in IH. subst idx.
      unfold step. cbn [snd]. case_decide; cbn; lia. }
    assert (Hkl : k ∉ l.*1).
    { intros Hin. apply (Hk k Hin). cbn. apply list_elem_of_here. }
    rewrite foldl_app. cbn.
    destruct (foldl step (∅, 1) l) as [m idx]. cbn in IHpos, IHout, Hidx. subst idx.
    unfold step. split.
    + intros i cat_id cat Hi.
      destruct (decide (i < length l)%nat) as [Hlt|Hge].
      * rewrite lookup_app_l in Hi by done.
        rewrite take_app_le by lia.
        assert (cat_id ≠ k).
        { intros ->. apply Hkl. apply list_elem_of_fmap. exists (k, cat).
          split; [done|]. apply list_elem_of_lookup; eauto. }
        rewrite <- (IHpos i cat_id cat Hi).
        destruct (decide (name c ∈ classes prm)); cbn; [|done].
        by rewrite lookup_insert_ne.
      * rewrite lookup_app_r in Hi by lia.
        destruct (i - length l)%nat as [|n] eqn:Hn; [|by destruct n].
        cbn in Hi. injection Hi as <- <-.
        assert (i = length l) as -> by lia.
        rewrite take_app_length.
        destruct (decide (name c ∈ classes prm)); cbn.
        -- by rewrite lookup_insert_eq.
        -- by apply IHout.
    + intros cat_id Hout. rewrite fmap_app in Hout. cbn in Hout.
      apply not_elem_of_app in Hout as [Hout Hne].
      apply not_elem_of_cons in Hne as [Hne _].
      destruct (decide (name c ∈ classes prm)); cbn; [|by apply IHout].
      rewrite lookup_insert_ne by done. by apply IHout.
Qed.

(** X4: for a store whose category ids are distinct, the class map sends
    the category at position [i] of the iteration order, when its name is
    allowed, to one more than the number of allowed categories before it,
    and maps nothing else; so the ids run from 1 to the number of allowed
    categories and no two categories share one. *)
Theorem class_map_is_dense (store : COCO) (prm : params) :
  NoDup (fst <$> cats store) →
  (∀ (i : nat) (cat_id : Z) (cat : cat_desc),
     cats store !! i = Some (cat_id, cat) →
     _generate_class_map store prm !! cat_id
     = if decide (name cat ∈ classes prm)
       then Some (Z.of_nat (length (filter (λ q, name q.2 ∈ classes prm)
                                           (take i (cats store)))) + 1)
       else None) ∧
  (∀ cat_id class_id : Z,
     _generate_class_map store prm !! cat_id = Some class_id →
     cat_id ∈ fst <$> cats store ∧
     1 ≤ class_id ≤ Z.of_nat (length (filter (λ q, name q.2 ∈ classes prm) (cats store)))) ∧
  (∀ c1 c2 class_id : Z,
     _generate_class_map store prm !! c1 = Some class_id →
     _generate_class_map store prm !! c2 = Some class_id →
     c1 = c2).
Proof.
  intros Hnd. destruct (generate_class_map_lookup store prm Hnd) as [Hpos Hout].
  assert (Hinv : ∀ cat_id class_id,
    _generate_class_map store prm !! cat_id = Some class_id →
    ∃ i cat, cats store !! i = Some (cat_id, cat) ∧ name cat ∈ classes prm ∧
             class_id = Z.of_nat (length (filter (λ q, name q.2 ∈ classes prm)
                                                 (take i (cats store)))) + 1).
  { intros cat_id class_id Hm.
    destruct (decide (cat_id ∈ fst <$> cats store)) as [Hin|Hnin];
      [|by rewrite (Hout _ Hnin) in Hm].
    apply list_elem_of_fmap in Hin as ([k cat] & -> & Hin).
    apply list_elem_of_lookup in Hin as [i Hi]. cbn [fst] in Hm.
    rewrite (Hpos i k cat Hi) in Hm.
    case_decide; [|done]. injection Hm as <-. by exists i, cat. }
  split; [exact Hpos|]. split.
  - intros cat_id class_id Hm.
    destruct (Hinv _ _ Hm) as (i & cat & Hi & Hallowed & ->). split.
    + apply list_elem_of_fmap. exists (cat_id, cat). split; [done|].
      apply list_elem_of_lookup; eauto.
    + pose proof (filter_take_step (λ q, name q.2 ∈ classes prm) (cats store) i
                    (cat_id, cat) Hi Hallowed).
      pose proof (filter_take_le (λ q, name q.2 ∈ classes prm) (cats store) (S i)).
      lia.
  - intros c1 c2 class_id H1 H2.
    destruct (Hinv _ _ H1) as (i1 & cat1 & Hi1 & Ha1 & E1).
    destruct (Hinv _ _ H2) as (i2 & cat2 & Hi2 & Ha2 & E2).
    assert (i1 = i2) as ->.
    { destruct (Nat.lt_trichotomy i1 i2) as [Hlt|[?|Hlt]]; [|done|].
      - pose proof (filter_take_lt (λ q, name q.2 ∈ classes prm) (cats store) i1 i2
                      (c1, cat1) Hlt Hi1 Ha1). lia.
      - pose proof (filter_take_lt (λ q, name q.2 ∈ classes prm) (cats store) i2 i1
                      (c2, cat2) Hlt Hi2 Ha2). lia. }
    congruence.
Qed.

Lemma class_map_is_dense_witness :
  _generate_class_map Fixtures.Polygon.store0 Fixtures.Polygon.params0 !! 60 = Some 5 ∧
  _generate_class_map Fixtures.Polygon.store0 Fixtures.Polygon.params0 !! 30 = None.
Proof.
  destruct (class_map_is_dense Fixtures.Polygon.store0 Fixtures.Polygon.params0)
    as (Hpos & _).
  { apply (bool_decide_unpack _). vm_compute. exact I. }
  split.
  - apply (Hpos 5%nat 60 {| name := "bed" |}). reflexivity.
  - apply (Hpos 2%nat 30 {| name := "dog" |}). reflexivity.
Defined.
End class_map.

(** ** Polygon-annotation adapter: what the loop keeps *)

Lemma result_bind_Raise {A B} (e : exn) (f : A → result B) : Raise e ≫= f = Raise e.
Proof. reflexivity. Qed.

Section folds_more.
Context {A B : Type} (f : B → A → B).
Hypothesis f_comm : ∀ b x y, f (f b x) y = f (f b y) x.
Hypothesis f_idem : ∀ b x, f (f b x) x = f b x.

Lemma foldl_repeat (l : list A) (x : A) (b : B) :
  x ∈ l → foldl f b (x :: l) = foldl f b l.
Proof.
  intros Hin. apply elem_of_Permutation in Hin as [k Hk].
  cbn. rewrite (foldl_comm_perm f f_comm l (x :: k) Hk (f b x)).
  rewrite (foldl_comm_perm f f_comm l (x :: k) Hk b). cbn. by rewrite f_idem.
Qed.
End folds_more.

Section polygon_more.
Import COCODataset Polygon.

Lemma annotate_all_app (self : t) (l1 l2 : list annotation) (masks : tensor Z * tensor Z) :
  annotate_all self masks (l1 ++ l2)
  = annotate_all self masks l1 ≫= λ masks', annotate_all self masks' l2.
Proof.
  revert masks. induction l1 as [|ann l1 IH]; intros masks; [done|].
  cbn [app annotate_all]. destruct (annotate self masks ann) as [m|]; [|done].
  rewrite !result_bind_Ok. apply IH.
Qed.

Lemma annotate_all_with (self : t) (img_id : Z) (anns l : list annotation)
    (masks : tensor Z * tensor Z) :
  annotate_all (with_annotations self img_id anns) masks l = annotate_all self masks l.
Proof.
  revert masks. induction l as [|ann l IH]; intros masks; [done|].
  cbn [annotate_all].
  change (annotate (with_annotations self img_id anns) masks ann)
    with (annotate self masks ann).
  destruct (annotate self masks ann) as [m|]; [|done].
  rewrite !result_bind_Ok. apply IH.
Qed.

Lemma get_raw_data_with (files : fs) (self : t) (img_id key : Z) (anns : list annotation) :
  get_raw_data files (with_annotations self img_id anns) key
  = (id ← getitem (img_ids self) key;
     img ← _get_img files self id;
     '(seg_mask, loss_mask) ←
        annotate_all self
          (U8.zeros [(size img).2; (size img).1],
           U8.ones_like (U8.zeros [(size img).2; (size img).1]))
          (if decide (id = img_id) then anns
           else default [] (imgToAnns (coco self) !! id));
     image ← _get_img files self id;
     Ok {| image := image; seg_mask := seg_mask; loss_mask := loss_mask |}).
Proof.
  unfold get_raw_data.
  change (img_ids (with_annotations self img_id anns)) with (img_ids self).
  destruct (getitem (img_ids self) key) as [id|]; [|done].
  rewrite !result_bind_Ok.
  change (_get_img files (with_annotations self img_id anns) id)
    with (_get_img files self id).
  destruct (_get_img files self id) as [img|]; [|done].
  rewrite !result_bind_Ok, annotate_all_with.
  change (imgToAnns (coco (with_annotations self img_id anns)))
    with (<[img_id := anns]> (imgToAnns (coco self))).
  destruct (decide (id = img_id)) as [->|Hne].
  - by rewrite lookup_insert_eq.
  - by rewrite lookup_insert_ne.
Qed.

Lemma get_img_desc (files : fs) (self : t) (img_id : Z) (img : Image) :
  _get_img files self img_id = Ok img →
  ∃ desc, dict_get (imgs (coco self)) img_id = Ok desc.
Proof.
  unfold _get_img. destruct (dict_get _ _) as [desc|]; [|discriminate]. by exists desc.
Qed.

(** X5: an annotation that is neither crowd nor too small and whose
    category the class map does not know changes nothing: wherever it
    stands in the list of its image, [get_raw_data] returns (or raises) what
    it does without it. *)
Theorem unmapped_annotation_is_ignored (files : fs) (self : t) (img_id key : Z)
    (ann : annotation) (before after : list annotation) :
  image_id ann = img_id →
  iscrowd ann = 0 →
  ¬ (area ann < min_area (p self))%Q →
  class_map self !! category_id ann = None →
  get_raw_data files (with_annotations self img_id (before ++ ann :: after)) key
  = get_raw_data files (with_annotations self img_id (before ++ after)) key.
Proof.
  intros Hid Hcrowd Harea Hcat. rewrite !get_raw_data_with.
  destruct (getitem (img_ids self) key) as [id|]; [|done]. rewrite !result_bind_Ok.
  destruct (_get_img files self id) as [img|] eqn:Himg; [|done]. rewrite !result_bind_Ok.
  destruct (decide (id = img_id)) as [->|Hne]; [|done].
  destruct (get_img_desc _ _ _ _ Himg) as [desc Hdesc].
  rewrite !annotate_all_app.
  destruct (annotate_all self _ before) as [[seg loss]|]; [|done].
  rewrite !result_bind_Ok. cbn [annotate_all].
  assert (Hstep : annotate self (seg, loss) ann = Ok (seg, loss)).
  { unfold annotate, annToMask. rewrite Hid, Hdesc, result_bind_Ok.
    assert (Hex : bool_decide (iscrowd ann ≠ 0)
                  || negb (Qle_bool (min_area (p self)) (area ann)) = false).
    { apply not_true_iff_false. intros Hex. apply excluded_iff in Hex as [Hc|Ha].
      - by apply Hc.
      - by apply Harea. }
    by rewrite Hex, Hcat. }
  by rewrite Hstep, result_bind_Ok.
Qed.
End polygon_more.

Section polygon_more_examples.
Import COCODataset Polygon Fixtures.Polygon.

Lemma unmapped_annotation_is_ignored_witness :
  get_raw_data files0 (with_annotations set0 7 ([cup] ++ MoreFixtures.dog :: [bed; crowd])) 0
  = get_raw_data files0 (with_annotations set0 7 ([cup] ++ [bed; crowd])) 0.
Proof.
  apply unmapped_annotation_is_ignored.
  - reflexivity.
  - reflexivity.
  - intros H. vm_compute in H. discriminate.
  - vm_compute. reflexivity.
Defined.
End polygon_more_examples.

Section polygon_invariants.
Import COCODataset Polygon.

Lemma seg_px_idem self r c acc ann :
  seg_px self r c (seg_px self r c acc ann) ann = seg_px self r c acc ann.
Proof.
  unfold seg_px. destruct (_ || _); [done|].
  destruct (class_map self !! category_id ann); [lia|done].
Qed.

Lemma loss_px_idem self r c acc ann :
  loss_px self r c (loss_px self r c acc ann) ann = loss_px self r c acc ann.
Proof.
  unfold loss_px. destruct (_ || _); [|done].
  by rewrite <- Z.land_assoc, Z.land_diag.
Qed.

(** X6: listing an annotation a second time changes nothing: on a
    consistent store, the sample for the annotation list with one of its
    members repeated in front is the sample for the list itself. *)
Theorem repeated_annotation_is_idempotent (files : fs) (self : t) (key img_id : Z)
    (desc : img_desc) (img : Image) (anns : list annotation) (ann : annotation) :
  getitem (img_ids self) key = Ok img_id →
  dict_get (imgs (coco self)) img_id = Ok desc →
  images files !! path_join (img_dir self) (file_name desc) = Some img →
  size img = (width desc, height desc) →
  default [] (imgToAnns (coco self) !! img_id) = anns →
  Forall (λ ann, image_id ann = img_id) anns →
  ann ∈ anns →
  ∃ s, get_raw_data files self key = Ok s ∧
       get_raw_data files (with_annotations self img_id (ann :: anns)) key = Ok s.
Proof.
  intros Hkey Hdesc Hfile Hsize Hanns Hall Hin.
  destruct (get_raw_data_pixels files self key img_id desc img anns)
    as (sd & ld & Hrun & Hsd & Hld & Hpx); [done..|].
  destruct (get_raw_data_pixels files (with_annotations self img_id (ann :: anns)) key
              img_id desc img (ann :: anns))
    as (sd' & ld' & Hrun' & Hsd' & Hld' & Hpx');
    [exact Hkey|exact Hdesc|exact Hfile|exact Hsize| | |].
  { apply with_annotations_lookup. }
  { apply Forall_cons. split; [|done]. by eapply Forall_forall in Hall. }
  eexists. split; [exact Hrun|]. rewrite Hrun'. do 2 f_equal; f_equal.
  - eapply (pixels_eq (height desc) (width desc)); [done..| | |].
    + intros r c Hr Hc. by destruct (Hpx' r c Hr Hc) as [-> _].
    + intros r c Hr Hc. by destruct (Hpx r c Hr Hc) as [-> _].
    + intros r c. apply (foldl_repeat (seg_px self r c)); [|intros; apply seg_px_idem|done].
      intros. apply seg_px_comm.
  - eapply (pixels_eq (height desc) (width desc)); [done..| | |].
    + intros r c Hr Hc. by destruct (Hpx' r c Hr Hc) as [_ ->].
    + intros r c Hr Hc. by destruct (Hpx r c Hr Hc) as [_ ->].
    + intros r c. apply (foldl_repeat (loss_px self r c)); [|intros; apply loss_px_idem|done].
      intros. apply loss_px_comm.
Qed.

(** X7: an image without annotations (its id may be missing from
    [imgToAnns] altogether) yields an all-zero [seg_mask] and an all-one
    [loss_mask] of the image's height and width. *)
Theorem no_annotations_blank_masks (files : fs) (self : t) (key img_id : Z)
    (desc : img_desc) (img : Image) :
  getitem (img_ids self) key = Ok img_id →
  dict_get (imgs (coco self)) img_id = Ok desc →
  images files !! path_join (img_dir self) (file_name desc) = Some img →
  default [] (imgToAnns (coco self) !! img_id) = [] →
  get_raw_data files self key
  = Ok {| image := convert_RGB img;
          seg_mask := Tensor [(size img).2; (size img).1]
                        (replicate ((size img).2 * (size img).1) 0);
          loss_mask := Tensor [(size img).2; (size img).1]
                         (replicate ((size img).2 * (size img).1) 1) |}.
Proof.
  intros Hkey Hdesc Hfile Hanns. unfold get_raw_data.
  rewrite Hkey, result_bind_Ok, Hanns. unfold _get_img.
  rewrite Hdesc, result_bind_Ok. unfold open_file. rewrite Hfile.
  cbn [from_option]. rewrite !result_bind_Ok. cbn [annotate_all].
  rewrite !result_bind_Ok.
  unfold U8.ones_like, U8.zeros, full, numel. cbn [shape foldr size convert_RGB].
  by rewrite Nat.mul_1_r.
Qed.
End polygon_invariants.

Section polygon_sample.
Import COCODataset Polygon Masks.





(** X9: with a key that resolves, a missing file surfaces as
    [FileNotFoundError] in each of the three adapters (the image first, then
    the annotation image where there is one). *)
Theorem missing_file_raises :
  (∀ (files : COCODataset.fs) (self : COCODataset.t) key img_id desc,
     getitem (COCODataset.img_ids self) key = Ok img_id →
     dict_get (imgs (coco self)) img_id = Ok desc →
     images files !! path_join (img_dir self) (file_name desc) = None →
     COCODataset.get_raw_data files self key = Raise FileNotFoundError) ∧
  (∀ (files : ADE20KDataset.fs) (self : ADE20KDataset.t) key img_path seg_path,
     getitem (ADE20KDataset.img_path_list self) key = Ok img_path →
     getitem (ADE20KDataset.seg_path_list self) key = Ok seg_path →
     images files !! img_path = None ∨ images files !! seg_path = None →
     ADE20KDataset.get_raw_data files self key = Raise FileNotFoundError) ∧
  (∀ (files : FineGrainedADE20KDataset.fs) (self : FineGrainedADE20KDataset.t)
     key img_path seg_path,
     getitem (FineGrainedADE20KDataset.img_path_list self) key = Ok img_path →
     getitem (FineGrainedADE20KDataset.seg_path_list self) key = Ok seg_path →
     images files !! img_path = None ∨ images files !! seg_path = None →
     FineGrainedADE20KDataset.get_raw_data files self key = Raise FileNotFoundError).
Proof.
  split; [|split].
  - intros files self key img_id desc Hkey Hdesc Hfile.
    unfold get_raw_data. rewrite Hkey, result_bind_Ok. unfold _get_img.
    rewrite Hdesc, result_bind_Ok. unfold open_file. by rewrite Hfile.
  - intros files self key img_path seg_path Hi Hs Hmiss.
    unfold ADE20KDataset.get_raw_data. rewrite Hi, Hs, !result_bind_Ok. unfold open_file.
    destruct (images files !! img_path) as [img|] eqn:Himg; [|done].
    destruct Hmiss as [?|Hseg]; [done|]. by rewrite Hseg.
  - intros files self key img_path seg_path Hi Hs Hmiss.
    unfold FineGrainedADE20KDataset.get_raw_data.
    rewrite Hi, Hs, !result_bind_Ok. unfold open_file.
    destruct (images files !! img_path) as [img|] eqn:Himg; [|done].
    destruct Hmiss as [?|Hseg]; [done|]. by rewrite Hseg.
Qed.
End polygon_sample.

Section polygon_sample_examples.
Import COCODataset Polygon Fixtures.Polygon.

Lemma repeated_annotation_is_idempotent_witness :
  ∃ s, get_raw_data files0 set0 0 = Ok s ∧
       get_raw_data files0 (with_annotations set0 7 (bed :: [cup; bed; crowd])) 0 = Ok s.
Proof.
  apply (repeated_annotation_is_idempotent files0 set0 0 7
           {| file_name := "x.jpg"; height := 1; width := 2 |} photo
           [cup; bed; crowd] bed);
    [reflexivity|reflexivity|reflexivity|reflexivity|reflexivity
    |repeat constructor|].
  apply list_elem_of_further, list_elem_of_here.
Defined.

Lemma no_annotations_blank_masks_witness :
  get_raw_data files0 (with_annotations set0 7 []) 0
  = Ok {| image := convert_RGB photo;
          seg_mask := Tensor [1; 2]%nat [0; 0];
          loss_mask := Tensor [1; 2]%nat [1; 1] |}.
Proof.
  apply (no_annotations_blank_masks files0 (with_annotations set0 7 []) 0 7
           {| file_name := "x.jpg"; height := 1; width := 2 |} photo);
    [reflexivity|reflexivity|reflexivity|].
  apply with_annotations_lookup.
Defined.


Lemma missing_file_raises_witness :
  get_raw_data MoreFixtures.no_files set0 0 = Raise FileNotFoundError.
Proof.
  apply (proj1 missing_file_raises MoreFixtures.no_files set0 0 7
           {| file_name := "x.jpg"; height := 1; width := 2 |});
    reflexivity.
Defined.
End polygon_sample_examples.

(** ** Flat-file adapter: the dense ids *)

Section flat_more.
Import ADE20KDataset FlatFile.

Lemma dense_id_bounds (classes : gset string) (names : list string) (v : Z) (n : string) :
  row_name names v = Some n → n ∈ classes →
  1 ≤ dense_id classes names v
    ≤ Z.of_nat (length (filter (λ n, n ∈ classes) names)).
Proof.
  unfold row_name, dense_id. case_bool_decide; [|done]. intros Hn Hc.
  pose proof (filter_take_step (λ n, n ∈ classes) names _ n Hn Hc).
  pose proof (filter_take_le (λ n, n ∈ classes) names (S (Z.to_nat (v - 1)))).
  lia.
Qed.

(** X10: the dense ids follow the manifest order: of two allowed rows the
    later one gets the larger id, and every id lies between 1 and the
    number of allowed rows; so distinct allowed rows never share an id. *)
Theorem dense_ids_increase (classes : gset string) (names : list string)
    (v v' : Z) (n n' : string) :
  row_name names v = Some n → n ∈ classes →
  row_name names v' = Some n' → n' ∈ classes →
  v < v' →
  1 ≤ map_func (build_map_dict classes names) v
  ∧ map_func (build_map_dict classes names) v < map_func (build_map_dict classes names) v'
  ∧ map_func (build_map_dict classes names) v'
    ≤ Z.of_nat (length (filter (λ n, n ∈ classes) names)).
Proof.
  intros Hn Hc Hn' Hc' Hlt. rewrite !map_func_expected. unfold expected.
  rewrite Hn, Hn', !decide_True by done.
  pose proof (dense_id_bounds classes names v n Hn Hc).
  pose proof (dense_id_bounds classes names v' n' Hn' Hc').
  split; [lia|]. split; [|lia].
  unfold dense_id. unfold row_name in Hn, Hn'.
  case_bool_decide; [|done]. case_bool_decide; [|done].
  pose proof (filter_take_lt (λ n, n ∈ classes) names (Z.to_nat (v - 1))
                (Z.to_nat (v' - 1)) n ltac:(lia) Hn Hc).
  lia.
Qed.

Lemma dense_ids_increase_witness :
  map_func (build_map_dict {[ "wall"; "sky" ]} ["wall"; "building, edifice"; "sky"]) 1
  < map_func (build_map_dict {[ "wall"; "sky" ]} ["wall"; "building, edifice"; "sky"]) 3.
Proof.
  apply (dense_ids_increase {[ "wall"; "sky" ]} ["wall"; "building, edifice"; "sky"]
           1 3 "wall" "sky"); [reflexivity|set_solver|reflexivity|set_solver|lia].
Defined.

(** X11: whatever [get_raw_data] returns for a dataset built by [__init__]
    has every [seg_mask] value between 0 and the number of allowed manifest
    rows, and a [loss_mask] of the same shape that is 1 everywhere. *)
Theorem flat_sample_in_range (files : fs) (prm : params) (train : bool) (self : t)
    (class_desc : list string) (key : Z) (s : sample Image) :
  __init__ files prm train = Ok self →
  text_files files !! path_join (root_dir prm) "objectInfo150.txt" = Some class_desc →
  get_raw_data files self key = Ok s →
  Forall (λ v, 0 ≤ v ≤ Z.of_nat (length (filter (λ n, n ∈ classes prm)
                                                (class_names class_desc))))
         (data (seg_mask s)) ∧
  shape (loss_mask s) = shape (seg_mask s) ∧
  data (loss_mask s) = replicate (numel (shape (seg_mask s))) 1.
Proof.
  intros Hinit Hdesc. pose proof (init_class_map _ _ _ _ _ Hinit Hdesc) as Hmap.
  unfold get_raw_data.
  destruct (getitem (img_path_list self) key) as [img_path|]; [|discriminate].
  rewrite result_bind_Ok.
  destruct (getitem (seg_path_list self) key) as [seg_path|]; [|discriminate].
  rewrite result_bind_Ok.
  destruct (open_file (images files) img_path) as [img|]; [|discriminate].
  rewrite result_bind_Ok.
  destruct (open_file (images files) seg_path) as [seg|]; [|discriminate].
  rewrite result_bind_Ok. unfold vectorize.
  destruct (data (np_array seg)) as [|x0 xs] eqn:Hdata; [discriminate|].
  rewrite result_bind_Ok. intros [= <-]. cbn [seg_mask loss_mask].
  split; [|done].
  unfold tmap. cbn [data]. rewrite Hdata, <- list_fmap_compose.
  apply Forall_fmap, Forall_forall. intros x Hx. cbn.
  assert (Hbyte : 0 ≤ x < 256).
  { rewrite <- Hdata in Hx. unfold np_array in Hx. destruct (size seg). cbn in Hx.
    apply list_elem_of_fmap in Hx as (b & -> & _). apply of_byte_range. }
  rewrite Hmap, map_func_expected.
  pose proof (expected_range (classes prm) (class_names class_desc) x ltac:(lia)).
  unfold U8.wrap. rewrite Z.mod_small by lia.
  split; [lia|]. unfold expected. destruct (row_name _ _) as [n|] eqn:Hn; [|lia].
  case_decide; [|lia].
  pose proof (dense_id_bounds _ _ _ _ Hn ltac:(done)). lia.
Qed.
End flat_more.

Section flat_more_examples.
Import ADE20KDataset FlatFile Fixtures.FlatFile.

Lemma flat_sample_in_range_witness :
  ∃ s, get_raw_data files0 set0 0 = Ok s ∧
       Forall (λ v, 0 ≤ v ≤ 2) (data (seg_mask s)).
Proof.
  assert (Hrun : ∃ s, get_raw_data files0 set0 0 = Ok s)
    by (eexists; vm_compute; reflexivity).
  destruct Hrun as [s Hrun]. exists s. split; [exact Hrun|].
  apply (flat_sample_in_range files0 params0 true set0 class_lines 0 s
           flat_set_built eq_refl Hrun).
Defined.
End flat_more_examples.

(** ** Flat-file adapter: reading the manifests *)

Section strings.

Lemma chars_app (a b : string) : chars (a +:+ b) = chars a ++ chars b.
Proof.
  unfold chars. induction a as [|c a IH]; [done|].
  change (String c a +:+ b) with (String c (a +:+ b)). cbn. by rewrite IH.
Qed.

Lemma str_chars (s : string) : str (chars s) = s.
Proof. apply string_of_list_ascii_of_string. Qed.

Lemma chars_str (l : list ascii) : chars (str l) = l.
Proof. apply list_ascii_of_string_of_list_ascii. Qed.

Lemma chars_length (s : string) : length (chars s) = String.length s.
Proof. unfold chars. induction s as [|c s IH]; cbn; [done|]. by f_equal. Qed.

Lemma slice_to_neg_app (n : nat) (s ext : string) :
  String.length ext = n → slice_to_neg n (s +:+ ext) = s.
Proof.
  intros Hn. unfold slice_to_neg.
  rewrite chars_app, length_app, (chars_length ext), Hn.
  replace (length (chars s) + n - n)%nat with (length (chars s)) by lia.
  by rewrite take_app_length, str_chars.
Qed.

Lemma chars_slice_snoc (s : string) (l : list ascii) (c : ascii) :
  chars s = l ++ [c] → chars (slice_to_neg 1 s) = l.
Proof.
  intros Hs. unfold slice_to_neg. rewrite chars_str, Hs, length_app. cbn.
  replace (length l + 1 - 1)%nat with (length l) by lia.
  by rewrite take_app_length.
Qed.

Lemma split_chars_no_sep (sep : ascii) (l : list ascii) :
  sep ∉ l → split_chars sep l = [l].
Proof.
  induction l as [|c l IH]; intros Hsep; [done|].
  apply not_elem_of_cons in Hsep as [Hne Hl]. cbn.
  rewrite (proj2 (Ascii.eqb_neq c sep)) by congruence. by rewrite IH.
Qed.

Lemma split_chars_last (sep : ascii) (a b : list ascii) :
  last (split_chars sep (a ++ sep :: b)) = last (split_chars sep b).
Proof.
  assert (Hne : ∀ l, ∃ w ws, split_chars sep l = w :: ws).
  { induction l as [|c l (w & ws & IH)]; cbn; [by eexists _, _|].
    destruct (Ascii.eqb c sep); [by eexists _, _|]. rewrite IH. by eexists _, _. }
  assert (Hpre : ∃ w ws, split_chars sep (a ++ sep :: b) = (w :: ws) ++ split_chars sep b).
  { induction a as [|c a (w & ws & IH)]; cbn.
    - rewrite Ascii.eqb_refl. by exists [], [].
    - destruct (Ascii.eqb c sep).
      + rewrite IH. by exists [], (w :: ws).
      + rewrite IH. cbn. by exists (c :: w), ws. }
  destruct Hpre as (w & ws & ->). destruct (Hne b) as (w' & ws' & Hb).
  rewrite last_app, Hb. by destruct (last_is_Some (w' :: ws')) as [_ [? ->]].
Qed.
End strings.

Section manifests.
Import ADE20KDataset Split.

Lemma class_name_of_row (line name : string) :
  (∃ c, line = name +:+ String c "")
  ∨ (∃ pre c, line = pre +:+ String tab name +:+ String c "") →
  tab ∉ chars name →
  default "" (last (split tab (slice_to_neg 1 line))) = name.
Proof.
  intros Hline Htab. unfold split.
  assert (Hlast : last (split_chars tab (chars (slice_to_neg 1 line))) = Some (chars name)).
  { destruct Hline as [(c & ->)|(pre & c & ->)].
    - rewrite slice_to_neg_app by done. by rewrite split_chars_no_sep.
    - rewrite (chars_slice_snoc _ (chars pre ++ tab :: chars name) c).
      + rewrite split_chars_last. by rewrite split_chars_no_sep.
      + rewrite chars_app.
        change (String tab name +:+ String c "") with (String tab (name +:+ String c "")).
        change (chars (String tab (name +:+ String c "")))
          with (tab :: chars (name +:+ String c "")).
        rewrite chars_app, <- app_assoc. done. }
  rewrite fmap_last, Hlast. cbn. apply str_chars.
Qed.

(** X12: in the class description file, the header line is skipped and
    each further line yields the text after its last tab (the whole line if
    it has none) without the line's final character and without
    surrounding blanks; the final character is dropped whatever it is. *)
Theorem class_names_parse (header : string) (lines names : list string) :
  Forall2 (λ line name,
             ((∃ c, line = name +:+ String c "")
              ∨ (∃ pre c, line = pre +:+ String tab name +:+ String c ""))
             ∧ tab ∉ chars name)
          lines names →
  class_names (header :: lines) = strip " " <$> names.
Proof.
  unfold class_names. change (drop 1 (header :: lines)) with lines.
  induction 1 as [|line name lines names [Hline Htab] _ IH]; [done|].
  rewrite !fmap_cons, IH. f_equal. f_equal. by apply class_name_of_row.
Qed.

Lemma class_names_parse_witness :
  class_names Fixtures.FlatFile.class_lines
  = strip " " <$> ["wall"; "building, edifice"; "sky"].
Proof.
  apply (class_names_parse _ _ ["wall"; "building, edifice"; "sky"]).
  assert (Hno : ∀ name : string,
            bool_decide (tab ∉ chars name) = true → tab ∉ chars name)
    by (intros name; apply bool_decide_eq_true_1).
  constructor; [|constructor; [|constructor; [|constructor]]].
  - split; [right|by apply Hno].
    by exists ("1" +:+ Fixtures.FlatFile.tab +:+ "0.1576" +:+ Fixtures.FlatFile.tab
               +:+ "11664" +:+ Fixtures.FlatFile.tab +:+ "1172"), "010"%char.
  - split; [right|by apply Hno].
    by exists ("2" +:+ Fixtures.FlatFile.tab +:+ "0.1072" +:+ Fixtures.FlatFile.tab
               +:+ "6046" +:+ Fixtures.FlatFile.tab +:+ "612"), "010"%char.
  - split; [right|by apply Hno].
    by exists ("3" +:+ Fixtures.FlatFile.tab +:+ "0.0878" +:+ Fixtures.FlatFile.tab
               +:+ "8265" +:+ Fixtures.FlatFile.tab +:+ "796"), "010"%char.
Defined.
End manifests.

Section flat_init.
Import ADE20KDataset Split.

Lemma scan_lines_raises (train : bool) (img_dir seg_dir : string) (lines : list string) :
  Exists (λ line, ∀ a b, split " " (slice_to_neg 1 line) ≠ [a; b]) lines →
  ∀ acc, scan_lines train img_dir seg_dir lines acc = Raise ValueError.
Proof.
  induction lines as [|line lines IH]; intros Hex acc; [by apply Exists_nil in Hex|].
  cbn [scan_lines].
  destruct (split " " (slice_to_neg 1 line)) as [|a [|b [|c rest]]] eqn:Hsplit; try done.
  apply Exists_cons in Hex as [Hbad|Hex]; [by destruct (Hbad a b)|].
  destruct (train && contains "val" a); [by apply IH|].
  destruct (negb train && contains "train" a); [by apply IH|].
  destruct acc as [[imgs segs] scenes]. by apply IH.
Qed.

(** X13: a line of the scene manifest that does not consist of exactly two
    blank-separated fields (a trailing empty line included) aborts
    construction with [ValueError], also when it belongs to the other
    split. *)
Theorem malformed_scene_line_aborts (files : fs) (prm : params) (train : bool)
    (anno_content : list string) :
  text_files files !! path_join (root_dir prm) "sceneCategories.txt" = Some anno_content →
  Exists (λ line, ∀ a b, split " " (slice_to_neg 1 line) ≠ [a; b]) anno_content →
  __init__ files prm train = Raise ValueError.
Proof.
  intros Hfile Hbad. unfold __init__, open_file. rewrite Hfile. cbn [from_option].
  rewrite result_bind_Ok. by rewrite scan_lines_raises.
Qed.

Lemma scan_lines_closed (train : bool) (img_dir seg_dir : string)
    (lines : list string) (parsed : list (string * string)) :
  Forall2 (λ line e, split " " (slice_to_neg 1 line) = [e.1; e.2]) lines parsed →
  ∀ imgs segs scenes,
    scan_lines train img_dir seg_dir lines (imgs, segs, scenes)
    = Ok (imgs ++ ((λ e, path_join img_dir (e.1 +:+ ".jpg"))
                   <$> filter (λ e, keeps train e.1 = true) parsed),
          segs ++ ((λ e, path_join seg_dir (e.1 +:+ ".png"))
                   <$> filter (λ e, keeps train e.1 = true) parsed),
          scenes ++ (snd <$> filter (λ e, keeps train e.1 = true) parsed)).
Proof.
  induction 1 as [|line [a b] lines parsed Hsplit _ IH]; intros imgs segs scenes.
  - cbn. by rewrite !app_nil_r.
  - cbn [scan_lines]. cbn [fst snd] in Hsplit. rewrite Hsplit, filter_cons. cbn [fst].
    destruct (train && contains "val" a) eqn:E1.
    + assert (Hk : keeps train a = false) by (unfold keeps; by rewrite E1).
      rewrite decide_False by congruence. apply IH.
    + destruct (negb train && contains "train" a) eqn:E2.
      * assert (Hk : keeps train a = false) by (unfold keeps; by rewrite E1, E2).
        rewrite decide_False by congruence. apply IH.
      * assert (Hk : keeps train a = true) by (unfold keeps; by rewrite E1, E2).
        rewrite decide_True by done. rewrite IH, !fmap_cons, <- !app_assoc. done.
Qed.

(** X14: when every line of the scene manifest has exactly two fields,
    construction keeps, in manifest order, the names that do not contain
    "val" (training) or "train" (validation); image path, annotation path
    and scene of an entry sit at the same index, and the length is the
    number of kept names. *)
Theorem flat_index_lists (files : fs) (prm : params) (train : bool)
    (anno_content class_desc : list string) (parsed : list (string * string)) :
  text_files files !! path_join (root_dir prm) "sceneCategories.txt" = Some anno_content →
  text_files files !! path_join (root_dir prm) "objectInfo150.txt" = Some class_desc →
  Forall2 (λ line e, split " " (slice_to_neg 1 line) = [e.1; e.2]) anno_content parsed →
  ∃ self,
    __init__ files prm train = Ok self ∧
    img_path_list self
    = (λ e, path_join (path_join (root_dir prm)
                         (if train then "images/training" else "images/validation"))
                      (e.1 +:+ ".jpg"))
      <$> filter (λ e, keeps train e.1 = true) parsed ∧
    seg_path_list self
    = (λ e, path_join (path_join (root_dir prm)
                         (if train then "annotations/training"
                          else "annotations/validation"))
                      (e.1 +:+ ".png"))
      <$> filter (λ e, keeps train e.1 = true) parsed ∧
    scenario_list self = snd <$> filter (λ e, keeps train e.1 = true) parsed ∧
    __len__ self = Z.of_nat (length (filter (λ e, keeps train e.1 = true) parsed)).
Proof.
  intros Hanno Hdesc Hlines. eexists. split.
  - unfold __init__, _generate_class_map, open_file. rewrite Hanno, Hdesc.
    cbn [from_option]. rewrite result_bind_Ok.
    rewrite (scan_lines_closed _ _ _ _ _ Hlines). rewrite !result_bind_Ok.
    cbn [app]. reflexivity.
  - unfold __len__. cbn. by rewrite length_fmap.
Qed.
End flat_init.

Section flat_init_examples.
Import ADE20KDataset Split Fixtures.FlatFile.

Lemma malformed_scene_line_aborts_witness :
  __init__
    {| images := ∅;
       text_files := {[ "r/sceneCategories.txt" := ["ADE_train_00000001 airport_terminal" +:+ nl; ""] ]};
       annotation_files := ∅; index_files := ∅ |}
    params0 false
  = Raise ValueError.
Proof.
  apply (malformed_scene_line_aborts _ params0 false
           ["ADE_train_00000001 airport_terminal" +:+ nl; ""]); [reflexivity|].
  apply Exists_cons_tl, Exists_cons_hd. intros a b H. vm_compute in H. discriminate.
Defined.

Lemma flat_index_lists_witness :
  ∃ self, __init__ files0 params0 true = Ok self ∧
          img_path_list self = ["r/images/training/ADE_train_00000001.jpg"] ∧
          seg_path_list self = ["r/annotations/training/ADE_train_00000001.png"].
Proof.
  destruct (flat_index_lists files0 params0 true scene_lines class_lines
              [("ADE_train_00000001", "airport_terminal"); ("ADE_val_00000001", "abbey")])
    as (self & Hinit & Himg & Hseg & _); [reflexivity|reflexivity| |].
  { constructor; [reflexivity|]. constructor; [reflexivity|]. constructor. }
  exists self. split; [exact Hinit|]. split; [exact Himg|exact Hseg].
Defined.
End flat_init_examples.

(** ** Packed-colour adapter: index, paths and decoding *)

Section packed_more.
Import FineGrainedADE20KDataset.

(** X15: the annotation path of an image is its path with the last four
    characters replaced by "_seg.png"; a path of fewer than four characters
    gives "_seg.png" alone. *)
Theorem seg_path_replaces_extension (stem ext : string) :
  (String.length ext = 4%nat → get_seg_path (stem +:+ ext) = stem +:+ "_seg.png") ∧
  ((String.length ext < 4)%nat → get_seg_path ext = "_seg.png").
Proof.
  unfold get_seg_path. split.
  - intros Hext. by rewrite slice_to_neg_app.
  - intros Hext. unfold slice_to_neg. rewrite chars_length.
    replace (String.length ext - 4)%nat with 0%nat by lia. done.
Qed.

Lemma seg_path_replaces_extension_witness :
  get_seg_path "d/../f/ADE_train_1.jpg" = "d/../f/ADE_train_1_seg.png" ∧
  get_seg_path "a.jpeg" = "a._seg.png" ∧
  get_seg_path "abc" = "_seg.png".
Proof.
  split; [|split].
  - apply (proj1 (seg_path_replaces_extension "d/../f/ADE_train_1" ".jpg")). reflexivity.
  - apply (proj1 (seg_path_replaces_extension "a." "jpeg")). reflexivity.
  - apply (proj2 (seg_path_replaces_extension "" "abc")). cbn. lia.
Defined.

Lemma index_fold (mark base : string) (index : list (string * string)) :
  ∀ imgs segs,
    foldl (λ '(imgs, segs) '(cur_file_name, folder_path),
             if contains mark cur_file_name
             then (imgs ++ [path_join (path_join base folder_path) cur_file_name],
                   segs ++ [get_seg_path
                              (path_join (path_join base folder_path) cur_file_name)])
             else (imgs, segs))
          (imgs, segs) index
    = (imgs ++ ((λ e, path_join (path_join base e.2) e.1)
                <$> filter (λ e, contains mark e.1 = true) index),
       segs ++ (get_seg_path
                <$> ((λ e, path_join (path_join base e.2) e.1)
                     <$> filter (λ e, contains mark e.1 = true) index))).
Proof.
  induction index as [|[file folder] index IH]; intros imgs segs.
  - cbn. by rewrite !app_nil_r.
  - cbn [foldl]. rewrite filter_cons. cbn [fst snd].
    destruct (contains mark file) eqn:E.
    + rewrite decide_True by done. rewrite IH, !fmap_cons, <- !app_assoc. done.
    + rewrite decide_False by done. apply IH.
Qed.

(** X16: construction keeps, in index order, the entries whose file name
    contains "train" (training) or "val" (validation); the image path is
    [root/../folder/file], every annotation path is derived from the image
    path at the same index, and the length is the number of kept
    entries. *)
Theorem packed_index_lists (files : fs) (prm : params) (train : bool)
    (entries : index) :
  index_files files !! path_join (root_dir prm) "index_ade20k.mat" = Some entries →
  ∃ self,
    __init__ files prm train = Ok self ∧
    img_path_list self
    = (λ e, path_join (path_join (path_join (root_dir prm) "..") e.2) e.1)
      <$> filter (λ e, contains (if train then "train" else "val") e.1 = true) entries ∧
    seg_path_list self = get_seg_path <$> img_path_list self ∧
    __len__ self
    = Z.of_nat (length (filter (λ e, contains (if train then "train" else "val") e.1 = true)
                               entries)).
Proof.
  intros Hfile. eexists. split.
  - unfold __init__, open_file. rewrite Hfile. cbn [from_option].
    rewrite result_bind_Ok, index_fold. cbn [app]. reflexivity.
  - unfold __len__. cbn. by rewrite length_fmap.
Qed.

Lemma packed_index_lists_witness :
  ∃ self, __init__ Fixtures.PackedColor.files0 Fixtures.PackedColor.params0 true = Ok self ∧
          img_path_list self = ["d/../f/ADE_train_1.jpg"] ∧
          seg_path_list self = ["d/../f/ADE_train_1_seg.png"].
Proof.
  destruct (packed_index_lists Fixtures.PackedColor.files0 Fixtures.PackedColor.params0
              true [("ADE_train_1.jpg", "f")])
    as (self & Hinit & Himg & Hseg & _); [reflexivity|].
  exists self. split; [exact Hinit|]. split; [exact Himg|].
  rewrite Hseg, Himg. reflexivity.
Defined.

Lemma packed_run (files : fs) (self : t) (key : Z)
    (img_path seg_path : string) (raw seg : Image)
    (b0 b1 : list byte) (rest : list (list byte)) :
  getitem (img_path_list self) key = Ok img_path →
  getitem (seg_path_list self) key = Ok seg_path →
  images files !! img_path = Some raw →
  images files !! seg_path = Some seg →
  bands (pix seg) = b0 :: b1 :: rest →
  get_raw_data files self key
  = Ok {| image := np_array (convert_RGB raw);
          seg_mask := Tensor [(size seg).2; (size seg).1]
            (zip_with Z.add ((λ x, x * 256) <$> ((λ x, x `div` 10) <$> (U8.of_byte <$> b0)))
                      (U8.of_byte <$> b1));
          loss_mask := full [(size seg).2; (size seg).1] 1 |}.
Proof.
  intros Hi Hs Hraw Hseg Hb. destruct (band_two seg b0 b1 rest Hb) as [H0 H1].
  unfold get_raw_data. rewrite Hi, Hs. cbn.
  unfold open_file. rewrite Hraw, Hseg. cbn. rewrite H0, H1. cbn.
  unfold tzip. cbn. rewrite decide_True by done. done.
Qed.

(** X17: a decoded id determines the two quantities it was packed from:
    its quotient by 256 is [channel0 // 10] and its remainder is
    [channel1]; it lies between 0 and 6655; and the validity mask returned
    with it is 1 everywhere. *)
Theorem packed_id_unpacks (files : fs) (self : t) (key : Z)
    (img_path seg_path : string) (raw seg : Image)
    (b0 b1 : list byte) (rest : list (list byte)) :
  getitem (img_path_list self) key = Ok img_path →
  getitem (seg_path_list self) key = Ok seg_path →
  images files !! img_path = Some raw →
  images files !! seg_path = Some seg →
  bands (pix seg) = b0 :: b1 :: rest →
  ∃ s,
    get_raw_data files self key = Ok s ∧
    (∀ (i : nat) (v : Z), data (seg_mask s) !! i = Some v →
       ∃ c0 c1, b0 !! i = Some c0 ∧ b1 !! i = Some c1 ∧
                v `div` 256 = U8.of_byte c0 `div` 10 ∧
                v `mod` 256 = U8.of_byte c1 ∧
                0 ≤ v ≤ 6655) ∧
    shape (loss_mask s) = shape (seg_mask s) ∧
    Forall (λ v, v = 1) (data (loss_mask s)).
Proof.
  intros Hi Hs Hraw Hseg Hb. eexists. split; [by eapply packed_run|].
  cbn [seg_mask loss_mask data shape full]. split; [|split; [done|]].
  - intros i v Hv. apply lookup_zip_with_Some in Hv as (x & y & -> & Hx & Hy).
    rewrite !list_lookup_fmap in Hx. rewrite list_lookup_fmap in Hy.
    destruct (b0 !! i) as [c0|]; [|done]. destruct (b1 !! i) as [c1|]; [|done].
    cbn in Hx, Hy. injection Hx as <-. injection Hy as <-.
    exists c0, c1. pose proof (of_byte_range c0). pose proof (of_byte_range c1).
    assert (0 ≤ U8.of_byte c0 `div` 10 < 26).
    { split; [apply Z.div_pos; lia|]. apply Z.div_lt_upper_bound; lia. }
    repeat split; try done.
    + rewrite Z.div_add_l by lia. rewrite (Z.div_small (U8.of_byte c1)) by lia. lia.
    + rewrite Z.add_comm, Z.mod_add by lia. apply Z.mod_small. lia.
    + lia.
    + nia.
  - apply Forall_replicate. done.
Qed.

Lemma packed_id_unpacks_witness :
  ∃ s, get_raw_data Fixtures.PackedColor.files0 Fixtures.PackedColor.set0 0 = Ok s ∧
       Forall (λ v, v = 1) (data (loss_mask s)).
Proof.
  destruct (packed_id_unpacks Fixtures.PackedColor.files0 Fixtures.PackedColor.set0 0
              "d/../f/ADE_train_1.jpg" "d/../f/ADE_train_1_seg.png"
              Fixtures.PackedColor.photo Fixtures.PackedColor.packed
              [Byte.x14] [Byte.x05] [[Byte.x00]])
    as (s & Hrun & _ & _ & Hl); [reflexivity..|].
  exists s. split; [exact Hrun|exact Hl].
Defined.

(** X18: an annotation image with a single band has a two-axis array, so
    taking its channel 0 raises [IndexError] although the key is valid. *)
Theorem single_band_annotation_raises (files : fs) (self : t) (key : Z)
    (img_path seg_path : string) (raw seg : Image) (px : list byte) :
  getitem (img_path_list self) key = Ok img_path →
  getitem (seg_path_list self) key = Ok seg_path →
  images files !! img_path = Some raw →
  images files !! seg_path = Some seg →
  pix seg = L px →
  get_raw_data files self key = Raise IndexError.
Proof.
  intros Hi Hs Hraw Hseg Hpx. unfold get_raw_data.
  rewrite Hi, Hs, !result_bind_Ok. unfold open_file. rewrite Hraw, Hseg.
  cbn [from_option]. rewrite !result_bind_Ok. unfold band. by rewrite Hpx.
Qed.

Lemma single_band_annotation_raises_witness :
  get_raw_data MoreFixtures.gray_files Fixtures.PackedColor.set0 0 = Raise IndexError.
Proof.
  apply (single_band_annotation_raises MoreFixtures.gray_files Fixtures.PackedColor.set0 0
           "d/../f/ADE_train_1.jpg" "d/../f/ADE_train_1_seg.png"
           Fixtures.PackedColor.photo {| size := (1, 1)%nat; pix := L [Byte.x05] |}
           [Byte.x05]); reflexivity.
Defined.
End packed_more.

(** ** Focal loss: resizing and NaN propagation *)

Section focal_more.
Import FocalLoss Focal.
Context {T : Type} `{Scalar T}.

(** X19: when output and target have one shape nothing is resampled: the
    result is the same for every interpolation function. When the shapes
    differ and the output has fewer than four axes, reading its third or
    fourth size raises [IndexError]. *)
Theorem resize_only_on_mismatch (self : params T) (output target inv_mask : tensor T) :
  (shape target = shape output →
   ∀ interpolate interpolate' : tensor T → nat → nat → result (tensor T),
     forward interpolate self output target inv_mask
     = forward interpolate' self output target inv_mask) ∧
  (shape output ≠ shape target → (length (shape output) < 4)%nat →
   ∀ interpolate : tensor T → nat → nat → result (tensor T),
     forward interpolate self output target inv_mask = Raise IndexError).
Proof.
  split.
  - intros Hsh f g. unfold forward, resize.
    by rewrite !decide_False by (intros Hne; by apply Hne).
  - intros Hne Hlen f. unfold forward, resize. rewrite decide_True by done.
    destruct (shape output) as [|a [|b [|c [|d rest]]]]; try done.
    cbn in Hlen. lia.
Qed.
End focal_more.

Section focal_more_examples.
Import FocalLoss Focal.

Lemma resize_only_on_mismatch_witness :
  forward (H := binary32 (λ x _, x) (λ x, x)) (λ t _ _, Ok t)
    {| alpha := SFone prec emax; gamma := SFone prec emax; eps := S754_zero false |}
    (Tensor [2; 1]%nat [SFone prec emax; S754_zero false])
    (Tensor [1; 2]%nat [SFone prec emax; S754_zero false])
    (Tensor [1; 2]%nat [S754_zero false; SFone prec emax])
  = Raise IndexError.
Proof.
  apply (proj2 (resize_only_on_mismatch (H := binary32 (λ x _, x) (λ x, x))
                  {| alpha := SFone prec emax; gamma := SFone prec emax;
                     eps := S754_zero false |}
                  (Tensor [2; 1]%nat [SFone prec emax; S754_zero false])
                  (Tensor [1; 2]%nat [SFone prec emax; S754_zero false])
                  (Tensor [1; 2]%nat [S754_zero false; SFone prec emax]))).
  - cbn. discriminate.
  - cbn. lia.
Defined.
End focal_more_examples.

Section focal_binary32_more.
Import FocalLoss Focal.
Variables (pow : spec_float → spec_float → spec_float) (log : spec_float → spec_float).
Variable interpolate : tensor spec_float → nat → nat → result (tensor spec_float).

Lemma SFmul_nan_l (x : spec_float) : SFmul prec emax S754_nan x = S754_nan.
Proof. by destruct x. Qed.

Lemma SFadd_nan_l (x : spec_float) : SFadd prec emax S754_nan x = S754_nan.
Proof. by destruct x. Qed.

Lemma sum_from_nan (l : list spec_float) : foldl (SFadd prec emax) S754_nan l = S754_nan.
Proof. induction l as [|x l IH]; [done|]. cbn [foldl]. by rewrite SFadd_nan_l. Qed.

Lemma sum_with_nan (l : list spec_float) (a : spec_float) :
  S754_nan ∈ l → foldl (SFadd prec emax) a l = S754_nan.
Proof.
  revert a. induction l as [|x l IH]; intros a Hin; [by apply elem_of_nil in Hin|].
  cbn [foldl]. apply elem_of_cons in Hin as [<-|Hin].
  - rewrite SFadd_nan_r. apply sum_from_nan.
  - by apply IH.
Qed.

(** X22: in IEEE 754 binary32 the mask multiplies, it does not select: if
    the focal term of any element of same-shape tensors is NaN, the
    returned loss is NaN, whether or not that element is masked out. *)
Theorem nan_term_poisons_loss (self : params spec_float)
    (output target inv_mask : tensor spec_float) (i : nat) :
  shape target = shape output →
  shape inv_mask = shape output →
  zip_with (focal_term (H := binary32 pow log) self) (data output) (data target) !! i
  = Some S754_nan →
  is_Some (data inv_mask !! i) →
  forward (H := binary32 pow log) interpolate self output target inv_mask = Ok S754_nan.
Proof.
  intros Ht Hm Hterm [m Hmi]. rewrite forward_same_shape by done. f_equal.
  change (@sadd _ (binary32 pow log)) with (SFadd prec emax).
  change (@smul _ (binary32 pow log)) with (SFmul prec emax).
  apply sum_with_nan. apply list_elem_of_lookup. exists i.
  rewrite lookup_zip_with, Hterm, !list_lookup_fmap, Hmi.
  cbn [fmap option_fmap option_map mbind option_bind].
  by rewrite SFmul_nan_l.
Qed.
End focal_binary32_more.

Section focal_binary32_more_examples.
Import FocalLoss Focal.

Lemma nan_term_poisons_loss_witness :
  forward (H := binary32 (λ x _, x) (λ _, S754_nan)) (λ t _ _, Ok t)
    {| alpha := SFone prec emax; gamma := SFone prec emax; eps := S754_zero false |}
    (Tensor [1; 1; 1; 2]%nat [SFone prec emax; SFone prec emax])
    (Tensor [1; 1; 1; 2]%nat [SFone prec emax; SFone prec emax])
    (Tensor [1; 1; 1; 2]%nat [S754_zero false; SFone prec emax])
  = Ok S754_nan.
Proof.
  apply (nan_term_poisons_loss (λ x _, x) (λ _, S754_nan) (λ t _ _, Ok t)
           {| alpha := SFone prec emax; gamma := SFone prec emax; eps := S754_zero false |}
           (Tensor [1; 1; 1; 2]%nat [SFone prec emax; SFone prec emax])
           (Tensor [1; 1; 1; 2]%nat [SFone prec emax; SFone prec emax])
           (Tensor [1; 1; 1; 2]%nat [S754_zero false; SFone prec emax]) 1%nat).
  - reflexivity.
  - reflexivity.
  - vm_compute. reflexivity.
  - by eexists.
Defined.
End focal_binary32_more_examples.

(** ** Focal loss: shapes *)

Section focal_shapes.
Import FocalLoss Focal.
Context {T : Type} `{Scalar T}.

Lemma elementwise_wf (self : params T) (output target : tensor T) (s : list nat) :
  wf output → wf target →
  broadcast_shapes (shape output) (shape target) = Some s →
  ∃ loss, elementwise self output target = Ok loss ∧ shape loss = s ∧ wf loss.
Proof.
  intros Ho Ht Hs. unfold elementwise.
  destruct (tzip_wf smul output target s Ho Ht Hs) as (ot & -> & Hots & Hotw).
  rewrite result_bind_Ok.
  destruct (tzip_wf smul (rsub1 output) (rsub1 target) s) as (no & -> & Hnos & Hnow);
    [by apply tmap_wf..|done|].
  rewrite result_bind_Ok.
  destruct (tzip_wf sadd ot no s Hotw Hnow) as (pt & -> & Hpts & Hptw).
  { rewrite Hots, Hnos. apply broadcast_shapes_refl. }
  rewrite result_bind_Ok.
  destruct (tzip_wf sadd (tmap (smul (alpha self)) target)
              (tmap (smul (ssub s1 (alpha self))) (rsub1 target)) (shape target))
    as (at_ & -> & Hats & Hatw); [by repeat apply tmap_wf..|apply broadcast_shapes_refl|].
  rewrite result_bind_Ok.
  destruct (broadcast_shapes_absorb _ _ _ Hs) as [_ Hst].
  destruct (tzip_wf smul (tmap sneg at_)
              (tmap (λ x, spow x (gamma self))
                 (rsub1 (clamp pt (eps self) (ssub s1 (eps self))))) s)
    as (l & -> & Hls & Hlw); [by repeat apply tmap_wf..| |].
  { cbn [tmap shape rsub1 clamp]. rewrite Hats, Hpts. by rewrite broadcast_shapes_comm. }
  rewrite result_bind_Ok.
  destruct (tzip_wf smul l (tmap slog (clamp pt (eps self) (ssub s1 (eps self)))) s)
    as (loss & -> & Hlos & Hlow); [done|by repeat apply tmap_wf| |].
  { cbn [tmap shape clamp]. rewrite Hls, Hpts. apply broadcast_shapes_refl. }
  by exists loss.
Qed.
End focal_shapes.

(** ** Focal loss in binary32: the degenerate mask, symmetry and masking *)

Section focal_float.
Import FocalLoss Focal Float32.
Variables (pow : spec_float → spec_float → spec_float) (log : spec_float → spec_float).
Variable interpolate : tensor spec_float → nat → nat → result (tensor spec_float).

Lemma SFadd_comm (x y : spec_float) : SFadd prec emax x y = SFadd prec emax y x.
Proof.
  destruct x as [sx|sx| |sx mx ex], y as [sy|sy| |sy my ey]; try reflexivity.
  - cbn. by destruct sx, sy.
  - cbn. by destruct sx, sy.
  - unfold SFadd. rewrite (Z.min_comm ex ey), Z.add_comm. reflexivity.
Qed.

Lemma sum_all_nan (l : list spec_float) (a : spec_float) :
  l ≠ [] → Forall (λ x, x = S754_nan) l → foldl (SFadd prec emax) a l = S754_nan.
Proof.
  intros Hne Hl. destruct l as [|x l]; [done|].
  apply Forall_cons in Hl as [-> _]. cbn [foldl]. rewrite SFadd_nan_r. apply sum_from_nan.
Qed.

Lemma nan_weights (masks : list spec_float) :
  Forall (λ m, m = one) masks →
  Forall (λ x, x = S754_nan)
    ((λ v, SFdiv prec emax v (foldl (SFadd prec emax) zero (SFsub prec emax one <$> masks)))
     <$> (SFsub prec emax one <$> masks)).
Proof.
  intros Hone. unfold one. rewrite (all_invalid_val_mask _ Hone), fmap_replicate.
  unfold zero. rewrite sum_of_zeros. apply Forall_replicate. reflexivity.
Qed.

(** C8 (as amended), in IEEE 754 binary32: when the resize step returns
    (for output and target of one shape it changes nothing), output and
    target broadcast to a shape with at least one element, the mask expands
    to that shape (it may have a single channel) and is 1 everywhere,
    [forward] returns normally, and what it returns is NaN. All tensors
    are well-formed records. *)
Theorem all_invalid_gives_nan (self : params spec_float)
    (output target inv_mask target' mask' : tensor spec_float) (s : list nat) :
  resize interpolate output target inv_mask = Ok (target', mask') →
  wf output → wf target' → wf mask' →
  broadcast_shapes (shape output) (shape target') = Some s →
  broadcast_shapes s (shape mask') = Some s →
  numel s ≠ 0%nat →
  Forall (λ m, m = SFone prec emax) (data mask') →
  ∃ x, forward (H := binary32 pow log) interpolate self output target inv_mask = Ok x ∧
       x = S754_nan ∧ is_finite x = false.
Proof.
  intros Hres Ho Ht Hm Hs Hms Hn Hone. exists S754_nan. split; [|done].
  unfold forward. rewrite Hres, result_bind_Ok.
  destruct (elementwise_wf (H := binary32 pow log) self output target' s Ho Ht Hs)
    as (loss & -> & Hls & Hlw).
  rewrite result_bind_Ok.
  set (weights := tmap (λ v, sdiv v (sum (rsub1 mask'))) (rsub1 mask')).
  assert (Hwn : Forall (λ x, x = S754_nan) (data weights)) by (by apply nan_weights).
  assert (Hww : wf weights) by (by repeat apply tmap_wf).
  assert (Hall : ∀ wd, Forall (λ x, x = S754_nan) wd → length wd = numel s →
            foldl (SFadd prec emax) (S754_zero false)
              (zip_with (SFmul prec emax) (data loss) wd) = S754_nan).
  { intros wd Hwd Hlen. apply sum_all_nan.
    - intros Hnil. apply (f_equal length) in Hnil.
      rewrite length_zip_with, Hlw, Hls, Hlen in Hnil. cbn in Hnil. lia.
    - apply (zip_with_Forall _ (λ _, True) (λ x, x = S754_nan)); [|by apply Forall_true|done].
      intros x y _ ->. apply SFmul_nan_r. }
  unfold tzip_. case_decide as Hsh.
  - rewrite result_bind_Ok. f_equal. apply Hall; [done|].
    by rewrite Hww, <- Hsh, Hls.
  - change (shape weights) with (shape mask'). rewrite Hls, decide_True by done.
    rewrite result_bind_Ok. f_equal. apply Hall; [by apply expand_Forall|].
    by apply (expand_wf weights s).
Qed.
End focal_float.

Section focal_float_examples.
Import FocalLoss Focal Float32.

Lemma all_invalid_gives_nan_witness :
  forward (H := binary32 (λ x _, x) (λ x, x)) (λ t _ _, Ok t)
    {| alpha := half; gamma := one; eps := zero |}
    (Tensor [1; 2; 1; 1]%nat [tenth; half])
    (Tensor [1; 2; 1; 1]%nat [one; zero])
    (Tensor [1; 1; 1; 1]%nat [one])
  = Ok S754_nan.
Proof.
  destruct (all_invalid_gives_nan (λ x _, x) (λ x, x) (λ t _ _, Ok t)
              {| alpha := half; gamma := one; eps := zero |}
              (Tensor [1; 2; 1; 1]%nat [tenth; half])
              (Tensor [1; 2; 1; 1]%nat [one; zero])
              (Tensor [1; 1; 1; 1]%nat [one])
              (Tensor [1; 2; 1; 1]%nat [one; zero])
              (Tensor [1; 1; 1; 1]%nat [one])
              [1; 2; 1; 1]%nat)
    as (x & Hrun & -> & _);
    [reflexivity|reflexivity|reflexivity|reflexivity|reflexivity|reflexivity
    |discriminate|constructor; [reflexivity|constructor]|].
  exact Hrun.
Defined.

(** C8 as stated fails on tensors without elements: every element of the
    mask is 1, yet the sum of no terms is the finite value 0. It also
    fails when the all-ones mask does not expand to the shape of the loss:
    the in-place product then raises. *)
Lemma all_invalid_empty_or_misshapen :
  ¬ (∀ (pow : spec_float → spec_float → spec_float) (log : spec_float → spec_float)
       (interpolate : tensor spec_float → nat → nat → result (tensor spec_float))
       (self : params spec_float) (output target inv_mask : tensor spec_float),
       shape target = shape output →
       shape inv_mask = shape output →
       length (data target) = length (data output) →
       length (data inv_mask) = length (data output) →
       Forall (λ m, m = SFone prec emax) (data inv_mask) →
       ∃ x, forward (H := binary32 pow log) interpolate self output target inv_mask
            = Ok x ∧ is_finite x = false) ∧
  forward (H := binary32 (λ x _, x) (λ x, x)) (λ t _ _, Ok t)
    {| alpha := half; gamma := one; eps := zero |}
    (Tensor [1; 2; 1; 1]%nat [tenth; half])
    (Tensor [1; 2; 1; 1]%nat [one; zero])
    (Tensor [1; 3; 1; 1]%nat [one; one; one])
  = Raise RuntimeError.
Proof.
  split; [|vm_compute; reflexivity].
  intros Hclaim.
  destruct (Hclaim (λ x _, x) (λ x, x) (λ t _ _, Ok t)
              {| alpha := SFone prec emax; gamma := SFone prec emax;
                 eps := S754_zero false |}
              (Tensor [0; 1; 1; 1]%nat []) (Tensor [0; 1; 1; 1]%nat [])
              (Tensor [0; 1; 1; 1]%nat []))
    as (x & Hrun & Hx); [reflexivity|reflexivity|reflexivity|reflexivity|constructor|].
  vm_compute in Hrun. injection Hrun as <-. discriminate.
Qed.

Example empty_batch_returns_zero
    (pow : spec_float → spec_float → spec_float) (log : spec_float → spec_float)
    (interpolate : tensor spec_float → nat → nat → result (tensor spec_float))
    (self : params spec_float) :
  forward (H := binary32 pow log) interpolate self
    (Tensor [0; 1; 1; 1]%nat []) (Tensor [0; 1; 1; 1]%nat [])
    (Tensor [0; 1; 1; 1]%nat [])
  = Ok (S754_zero false).
Proof. reflexivity. Qed.
End focal_float_examples.

Section focal_symmetry.
Import FocalLoss Focal Float32.
Variables (pow : spec_float → spec_float → spec_float) (log : spec_float → spec_float).
Variable interpolate : tensor spec_float → nat → nat → result (tensor spec_float).

Lemma focal_term_mirror (g e x : spec_float) :
  SFsub prec emax one (SFsub prec emax one x) = x →
  focal_term (H := binary32 pow log) {| alpha := half; gamma := g; eps := e |} x one
  = focal_term (H := binary32 pow log) {| alpha := half; gamma := g; eps := e |}
      (SFsub prec emax one x) zero.
Proof.
  intros Hx. unfold focal_term.
  cbn [smul sadd ssub smin smax sneg spow slog s1 binary32 alpha gamma eps].
  fold one. rewrite Hx.
  change (SFsub prec emax one one) with zero.
  change (SFsub prec emax one zero) with one.
  change (SFsub prec emax one half) with half.
  rewrite (SFadd_comm (SFmul prec emax (SFsub prec emax one x) zero)).
  by rewrite (SFadd_comm (SFmul prec emax half zero)).
Qed.

(** C9 (as amended), in IEEE 754 binary32: with [alpha = 0.5], for a grid
    [p] whose elements all satisfy [1 - (1 - x) = x] in binary32, the loss
    for [output = p] against an all-ones target and the loss for
    [output = 1 - p] against an all-zeros target coincide, both as the
    unmasked per-element tensor and as the returned scalar, whatever the
    mask. *)
Theorem focal_loss_symmetry (g e : spec_float) (p inv_mask : tensor spec_float) :
  Forall (λ x, SFsub prec emax one (SFsub prec emax one x) = x) (data p) →
  elementwise (H := binary32 pow log) {| alpha := half; gamma := g; eps := e |}
    p (filled_like one p)
  = elementwise (H := binary32 pow log) {| alpha := half; gamma := g; eps := e |}
      (rsub1 (H := binary32 pow log) p) (filled_like zero p) ∧
  forward (H := binary32 pow log) interpolate {| alpha := half; gamma := g; eps := e |}
    p (filled_like one p) inv_mask
  = forward (H := binary32 pow log) interpolate {| alpha := half; gamma := g; eps := e |}
      (rsub1 (H := binary32 pow log) p) (filled_like zero p) inv_mask.
Proof.
  intros Hp. set (self := {| alpha := half; gamma := g; eps := e |}).
  assert (Hel : elementwise (H := binary32 pow log) self p (filled_like one p)
                = elementwise (H := binary32 pow log) self
                    (rsub1 (H := binary32 pow log) p) (filled_like zero p)).
  { rewrite !elementwise_same_shape by done. cbn [shape data rsub1 tmap filled_like].
    f_equal. f_equal.
    induction Hp as [|x l Hx _ IH]; [done|].
    rewrite !fmap_cons. cbn [zip_with]. rewrite IH. f_equal.
    by apply focal_term_mirror. }
  split; [exact Hel|].
  unfold forward, resize. cbn [shape rsub1 tmap filled_like].
  rewrite !decide_False by (intros Hne; by apply Hne).
  rewrite !result_bind_Ok. by rewrite Hel.
Qed.
End focal_symmetry.

Section focal_symmetry_examples.
Import FocalLoss Focal Float32.

Lemma focal_loss_symmetry_witness :
  forward (H := binary32 (λ x _, x) (λ x, x)) (λ t _ _, Ok t)
    {| alpha := half; gamma := one; eps := zero |}
    (Tensor [1; 1; 1; 2]%nat [half; quarter])
    (filled_like one (Tensor [1; 1; 1; 2]%nat [half; quarter]))
    (Tensor [1; 1; 1; 2]%nat [zero; one])
  = forward (H := binary32 (λ x _, x) (λ x, x)) (λ t _ _, Ok t)
      {| alpha := half; gamma := one; eps := zero |}
      (rsub1 (H := binary32 (λ x _, x) (λ x, x)) (Tensor [1; 1; 1; 2]%nat [half; quarter]))
      (filled_like zero (Tensor [1; 1; 1; 2]%nat [half; quarter]))
      (Tensor [1; 1; 1; 2]%nat [zero; one]).
Proof.
  apply (focal_loss_symmetry (λ x _, x) (λ x, x) (λ t _ _, Ok t) one zero
           (Tensor [1; 1; 1; 2]%nat [half; quarter])
           (Tensor [1; 1; 1; 2]%nat [zero; one])).
  constructor; [reflexivity|constructor; [reflexivity|constructor]].
Defined.

(** C9 as stated fails in binary32: for [p = 0.1], [1 - (1 - p)] is not
    [p], and the two returned losses differ. *)
Lemma symmetry_breaks_at_one_tenth :
  ¬ (∀ (pow : spec_float → spec_float → spec_float) (log : spec_float → spec_float)
       (interpolate : tensor spec_float → nat → nat → result (tensor spec_float))
       (g e : spec_float) (p inv_mask : tensor spec_float),
       shape inv_mask = shape p →
       forward (H := binary32 pow log) interpolate {| alpha := half; gamma := g; eps := e |}
         p (filled_like one p) inv_mask
       = forward (H := binary32 pow log) interpolate
           {| alpha := half; gamma := g; eps := e |}
           (rsub1 (H := binary32 pow log) p) (filled_like zero p) inv_mask).
Proof.
  intros Hclaim.
  specialize (Hclaim (λ x _, x) (λ x, x) (λ t _ _, Ok t) one zero
                (Tensor [1; 1; 1; 1]%nat [tenth]) (Tensor [1; 1; 1; 1]%nat [zero])
                eq_refl).
  vm_compute in Hclaim. discriminate.
Qed.
End focal_symmetry_examples.

Section focal_mask.
Import FocalLoss Focal Float32.
Variables (pow : spec_float → spec_float → spec_float) (log : spec_float → spec_float).
Variable interpolate : tensor spec_float → nat → nat → result (tensor spec_float).


End focal_mask.

Section focal_mask_examples.
Import FocalLoss Focal Float32.


End focal_mask_examples.
